(** * clarkgo: cron scheduler and rate limiters

    A shallow embedding of [pkg/schedule] (cron.go, schedule.go) and
    [pkg/ratelimit] (ratelimit.go), with the properties of the scheduling
    and throttling core stated and proved over it.

    Conventions.
    - Go's [int] is the 64-bit signed integer; it is held in [Z] and every
      addition the source performs on it is wrapped by [GoInt.wrap].
    - Go strings are byte sequences, held as [list ascii]; map keys are
      [string] so that they index stdpp's [gmap].
    - A [time.Time] is held as the number of nanoseconds since Go's zero
      time (January 1, year 1, 00:00:00 UTC), read in UTC.
    - [float64] token counts are held as exact rationals ([Q]). *)

From Stdlib Require Import ZArith List Ascii String QArith Qminmax Lia Lqa Bool.
From Stdlib Require Import DecimalString DecimalZ DecimalPos DecimalFacts.
From stdpp Require Import gmap strings.
Import ListNotations.

Local Open Scope Z_scope.

(** ** Machine integers *)

Module GoInt.

Definition min_int : Z := - 2 ^ 63.
Definition max_int : Z := 2 ^ 63 - 1.

(** Two's complement wrap-around of a 64-bit signed result. *)
Definition wrap (z : Z) : Z := (z + 2 ^ 63) mod 2 ^ 64 - 2 ^ 63.

Definition in_range (z : Z) : bool := (min_int <=? z) && (z <=? max_int).

End GoInt.

(** ** Errors and results *)

Abbreviation bytes := (list ascii).

(** The error values the scheduler package builds with [fmt.Errorf], and
    strconv's [*NumError]. *)
Inductive error : Type :=
| NumError (num : bytes)
| InvalidRange (part : bytes)
| InvalidRangeBounds (part : bytes) (min max : Z)
| InvalidStep (part : bytes)
| ValueOutOfRange (value min max : Z)
| FieldCount (got : nat)
| InvalidField (field : string) (cause : error).

(** Outcome of a call: it returns a value, returns an error, or has not
    finished within the given number of loop iterations. *)
Inductive result (A : Type) : Type :=
| Ok (a : A)
| Err (e : error)
| OutOfFuel.

Arguments Ok {A} a.
Arguments Err {A} e.
Arguments OutOfFuel {A}.

#[global] Instance result_ret : MRet result := fun _ a => Ok a.
#[global] Instance result_bind : MBind result := fun _ _ f r =>
  match r with
  | Ok a => f a
  | Err e => Err e
  | OutOfFuel => OutOfFuel
  end.

(** [fmt.Errorf("invalid ... field: %w", err)] on the error path. *)
Definition wrapErr {A} (field : string) (r : result A) : result A :=
  match r with
  | Err e => Err (InvalidField field e)
  | other => other
  end.

(** ** The parts of Go's [strings] and [strconv] that cron.go calls *)

Module strings.

(** [strings.Contains(s, string(c))] for a one-byte separator. *)
Fixpoint Contains (s : bytes) (c : ascii) : bool :=
  match s with
  | [] => false
  | x :: s' => if Ascii.eqb x c then true else Contains s' c
  end.

(** [strings.Split(s, string(sep))]: the pieces between the separators;
    always at least one piece. *)
Fixpoint Split (s : bytes) (sep : ascii) : list bytes :=
  match s with
  | [] => [[]]
  | x :: s' =>
      if Ascii.eqb x sep then [] :: Split s' sep
      else match Split s' sep with
           | p :: ps => (x :: p) :: ps
           | [] => [[x]]
           end
  end.

(** ASCII white space as [strings.Fields] sees it: tab, line feed,
    vertical tab, form feed, carriage return and space. *)
Definition isSpace (c : ascii) : bool :=
  let n := nat_of_ascii c in
  ((9 <=? n) && (n <=? 13))%nat || (n =? 32)%nat.

(** [strings.Fields(s)]: the maximal runs of non-space bytes. *)
Fixpoint Fields (s : bytes) : list bytes :=
  match s with
  | [] => []
  | x :: s' =>
      if isSpace x then Fields s'
      else match s' with
           | [] => [[x]]
           | y :: _ =>
               if isSpace y then [x] :: Fields s'
               else match Fields s' with
                    | w :: ws => (x :: w) :: ws
                    | [] => [[x]]
                    end
           end
  end.

End strings.

Module strconv.

Definition digit (c : ascii) : option Z :=
  let n := Z.of_nat (nat_of_ascii c) in
  if (48 <=? n) && (n <=? 57) then Some (n - 48) else None.

(** The digit loop: [n = n*10 + d], failing on the first non-digit. *)
Fixpoint digits (s : bytes) (acc : Z) : option Z :=
  match s with
  | [] => Some acc
  | c :: s' =>
      match digit c with
      | Some d => digits s' (acc * 10 + d)
      | None => None
      end
  end.

(** [strconv.Atoi]: an optional sign, then one or more decimal digits,
    the value within the 64-bit range. *)
Definition Atoi (s : bytes) : result Z :=
  let '(neg, body) :=
    match s with
    | "-"%char :: r => (true, r)
    | "+"%char :: r => (false, r)
    | _ => (false, s)
    end in
  match body with
  | [] => Err (NumError s)
  | _ :: _ =>
      match digits body 0 with
      | None => Err (NumError s)
      | Some n =>
          let v := if neg then - n else n in
          if GoInt.in_range v then Ok v else Err (NumError s)
      end
  end.

(** [strconv.Itoa]: the decimal rendering, with a leading minus sign for
    a negative number. *)
Definition Itoa (z : Z) : bytes :=
  list_ascii_of_string (NilZero.string_of_int (Z.to_int z)).

End strconv.

(** ** The parts of Go's [time] package that the two packages call *)

Module Duration.

Definition Nanosecond : Z := 1.
Definition Microsecond : Z := 1000 * Nanosecond.
Definition Millisecond : Z := 1000 * Microsecond.
Definition Second : Z := 1000 * Millisecond.
Definition Minute : Z := 60 * Second.
Definition Hour : Z := 60 * Minute.

(** [d.Seconds()]: the duration as a number of seconds. *)
Definition Seconds (d : Z) : Q := Qmake d 1000000000.

End Duration.

Module GoTime.

(** Nanoseconds since the zero time, January 1, year 1, 00:00:00 UTC. *)
Definition Time : Type := Z.

(** [time.Time{}]. *)
Definition zero : Time := 0.

Definition Add (t : Time) (d : Z) : Time := t + d.
Definition Sub (t u : Time) : Z := t - u.
Definition After (t u : Time) : bool := u <? t.
Definition Before (t u : Time) : bool := t <? u.

(** [t.Truncate(d)]: [t] rounded down to a multiple of [d] since the zero
    time; [t] itself when [d <= 0]. *)
Definition Truncate (t : Time) (d : Z) : Time :=
  if d <=? 0 then t else t - t mod d.

Definition secondsPerDay : Z := 86400.

(** Whole days since the zero time, and the second within the day. *)
Definition days (t : Time) : Z := t / (secondsPerDay * Duration.Second).
Definition secOfDay (t : Time) : Z := (t / Duration.Second) mod secondsPerDay.

Definition Hour (t : Time) : Z := secOfDay t / 3600.
Definition Minute (t : Time) : Z := (secOfDay t mod 3600) / 60.
Definition Second (t : Time) : Z := secOfDay t mod 60.
Definition Nanosecond (t : Time) : Z := t mod Duration.Second.

(** [t.Weekday()], Sunday = 0: the zero time falls on a Monday. *)
Definition Weekday (t : Time) : Z := (days t + 1) mod 7.

Definition isLeap (year : Z) : bool :=
  (year mod 4 =? 0) && (negb (year mod 100 =? 0) || (year mod 400 =? 0)).

(** [daysBefore[m]]: days in a non-leap year before month [m+1]. *)
Definition daysBefore : list Z :=
  [0; 31; 59; 90; 120; 151; 181; 212; 243; 273; 304; 334; 365].

Definition daysPer400Years : Z := 365 * 400 + 97.
Definition daysPer100Years : Z := 365 * 100 + 24.
Definition daysPer4Years : Z := 365 * 4 + 1.

(** The date computation of the time package ([absDate]), on a day count
    since the zero time. First the year and the day within it: 400-year,
    100-year and 4-year cycles are cut off in turn. *)
Definition absYearDay (d : Z) : Z * Z :=
  let n := d / daysPer400Years in
  let y := 400 * n in
  let d := d - daysPer400Years * n in
  let n := d / daysPer100Years in
  let n := n - Z.shiftr n 2 in
  let y := y + 100 * n in
  let d := d - daysPer100Years * n in
  let n := d / daysPer4Years in
  let y := y + 4 * n in
  let d := d - daysPer4Years * n in
  let n := d / 365 in
  let n := n - Z.shiftr n 2 in
  let y := y + n in
  let d := d - 365 * n in
  (y + 1, d).

(** Then the month and the day of the month: the leap day apart, the
    month is estimated from 31-day months and adjusted with
    [daysBefore]. *)
Definition monthDay (year yday : Z) : Z * Z :=
  if isLeap year && (yday =? 31 + 29 - 1) then (2, 29)
  else
    let day := if isLeap year && (yday >? 31 + 29 - 1)
               then yday - 1 else yday in
    let m := day / 31 in
    let end_ := nth (Z.to_nat (m + 1)) daysBefore 0 in
    let '(m, begin) :=
      if day >=? end_ then (m + 1, end_)
      else (m, nth (Z.to_nat m) daysBefore 0) in
    (m + 1, day - begin + 1).

Definition absDate (d : Z) : Z * (Z * Z) :=
  let '(year, yday) := absYearDay d in
  (year, monthDay year yday).

Definition Year (t : Time) : Z := fst (absDate (days t)).
Definition Month (t : Time) : Z := fst (snd (absDate (days t))).
Definition Day (t : Time) : Z := snd (snd (absDate (days t))).

(** [time.Date(year, month, day, hour, min, sec, 0, time.UTC)] for a
    month in 1..12. *)
Definition Date (year month day hour min sec : Z) : Time :=
  let y := year - 1 in
  let d := 365 * y + y / 4 - y / 100 + y / 400 in
  let d := d + nth (Z.to_nat (month - 1)) daysBefore 0 in
  let d := if isLeap year && (month >=? 3) then d + 1 else d in
  let d := d + day - 1 in
  (d * secondsPerDay + hour * 3600 + min * 60 + sec) * Duration.Second.

End GoTime.

(** ** cron.go *)

Record CronExpression : Type := {
  minute : list Z;
  hour : list Z;
  dayOfMonth : list Z;
  month : list Z;
  dayOfWeek : list Z
}.

(** The counting loop shared by the three branches of [parseField]:
    [for i := start; i <= hi; i += step { values = append(values, i) }].
    [fuel] bounds the number of times the loop condition is tested. *)
Fixpoint appendFrom (fuel : nat) (i hi step : Z) (values : list Z)
  : result (list Z) :=
  match fuel with
  | O => OutOfFuel
  | S fuel' =>
      if i <=? hi
      then appendFrom fuel' (GoInt.wrap (i + step)) hi step (values ++ [i])
      else Ok values
  end.

(** The body of [for _, part := range parts] in [parseField]. *)
Definition parsePart (fuel : nat) (part : bytes) (min max : Z)
  (values : list Z) : result (list Z) :=
  if strings.Contains part "-" then
    match strings.Split part "-" with
    | [p0; p1] =>
        start ← strconv.Atoi p0;
        end_ ← strconv.Atoi p1;
        if (start <? min) || (end_ >? max) || (start >? end_)
        then Err (InvalidRangeBounds part min max)
        else appendFrom fuel start end_ 1 values
    | _ => Err (InvalidRange part)
    end
  else if strings.Contains part "/" then
    match strings.Split part "/" with
    | [p0; p1] =>
        step ← strconv.Atoi p1;
        start ← match p0 with
                | ["*"%char] => Ok min
                | _ => strconv.Atoi p0
                end;
        appendFrom fuel start max step values
    | _ => Err (InvalidStep part)
    end
  else
    value ← strconv.Atoi part;
    if (value <? min) || (value >? max)
    then Err (ValueOutOfRange value min max)
    else Ok (values ++ [value]).

Fixpoint parseParts (fuel : nat) (parts : list bytes) (min max : Z)
  (values : list Z) : result (list Z) :=
  match parts with
  | [] => Ok values
  | part :: rest =>
      values' ← parsePart fuel part min max values;
      parseParts fuel rest min max values'
  end.

Definition parseField (fuel : nat) (field : bytes) (min max : Z)
  : result (list Z) :=
  match field with
  | ["*"%char] => appendFrom fuel min max 1 []
  | _ => parseParts fuel (strings.Split field ",") min max []
  end.

Definition ParseCron (fuel : nat) (expr : string) : result CronExpression :=
  let fields := strings.Fields (list_ascii_of_string expr) in
  match fields with
  | [f0; f1; f2; f3; f4] =>
      mi ← wrapErr "minute" (parseField fuel f0 0 59);
      ho ← wrapErr "hour" (parseField fuel f1 0 23);
      dm ← wrapErr "day" (parseField fuel f2 1 31);
      mo ← wrapErr "month" (parseField fuel f3 1 12);
      dw ← wrapErr "weekday" (parseField fuel f4 0 6);
      Ok {| minute := mi; hour := ho; dayOfMonth := dm;
            month := mo; dayOfWeek := dw |}
  | _ => Err (FieldCount (List.length fields))
  end.


(** [contains]: linear search of a slice. *)
Fixpoint contains (slice : list Z) (value : Z) : bool :=
  match slice with
  | [] => false
  | v :: rest => if v =? value then true else contains rest value
  end.

(** [matches]: the five membership tests, joined by Go's short-circuit
    [&&] (a later test is evaluated only when the earlier ones hold). *)
Definition matches (c : CronExpression) (t : GoTime.Time) : bool :=
  if contains (minute c) (GoTime.Minute t) then
    if contains (hour c) (GoTime.Hour t) then
      if contains (dayOfMonth c) (GoTime.Day t) then
        if contains (month c) (GoTime.Month t) then
          contains (dayOfWeek c) (GoTime.Weekday t)
        else false
      else false
    else false
  else false.

Definition IsDue (c : CronExpression) (t : GoTime.Time) : bool := matches c t.

Definition maxIterations : Z := 525600.

(** The search loop of [Next] with [n] iterations left. *)
Fixpoint NextFrom (n : nat) (c : CronExpression) (t : GoTime.Time)
  : GoTime.Time :=
  match n with
  | O => GoTime.zero
  | S n' =>
      if matches c t then t
      else NextFrom n' c (GoTime.Add t Duration.Minute)
  end.

Definition Next (c : CronExpression) (from : GoTime.Time) : GoTime.Time :=
  let t := GoTime.Add (GoTime.Truncate from Duration.Minute) Duration.Minute in
  NextFrom (Z.to_nat maxIterations) c t.

(** ** schedule.go: the execution log *)

Module Scheduler.

Record TaskLog : Type := {
  TaskID : string;
  TaskName : string;
  StartTime : GoTime.Time;
  EndTime : GoTime.Time;
  Duration : Z;
  Success : bool;
  Error : string
}.

(** The fields of [Scheduler] that [addLog] reads and writes. *)
Record Scheduler : Type := {
  logs : list TaskLog;
  maxLogSize : Z
}.

Definition NewScheduler : Scheduler :=
  {| logs := []; maxLogSize := 1000 |}.

(** The slice expression [s[lo:]]; [None] is the run-time panic for a
    bound outside [0 .. len(s)]. *)
Definition sliceFrom {A} (s : list A) (lo : Z) : option (list A) :=
  if (0 <=? lo) && (lo <=? Z.of_nat (length s))
  then Some (drop (Z.to_nat lo) s)
  else None.

Definition addLog (s : Scheduler) (log : TaskLog) : option Scheduler :=
  let logs1 := logs s ++ [log] in
  if Z.of_nat (length logs1) >? maxLogSize s then
    logs2 ← sliceFrom logs1 (GoInt.wrap (Z.of_nat (length logs1) - maxLogSize s));
    Some {| logs := logs2; maxLogSize := maxLogSize s |}
  else Some {| logs := logs1; maxLogSize := maxLogSize s |}.

(** A run of [addLog] calls, one per entry, oldest first. *)
Fixpoint addLogs (s : Scheduler) (entries : list TaskLog) : option Scheduler :=
  match entries with
  | [] => Some s
  | e :: rest => s' ← addLog s e; addLogs s' rest
  end.

End Scheduler.

(** ** schedule.go: goroutines running [runTask] on one task

    The goroutines that the tick loop ([checkAndRunTasks]) and [RunNow]
    start for one task, interleaved at the granularity of the statements
    of [runTask] and [shouldRun]. The shared state is the task's
    [IsRunning] flag and its [sync.RWMutex]. *)

Module RunTask.

(** Where a goroutine executing [runTask(task)] stands. *)
Inductive pc : Type :=
| AtLock          (* before the first task.mu.Lock() *)
| AtCheck         (* holds mu; before `if task.IsRunning` *)
| AtSkipUnlock    (* holds mu; the flag was set; before Unlock and return *)
| AtSet           (* holds mu; before `task.IsRunning = true` *)
| AtUnlock        (* holds mu; flag set; before Unlock *)
| InHandler       (* the log entry is started and task.Handler() runs *)
| AtRelock        (* the handler has returned; before the second Lock() *)
| AtClear         (* holds mu; before `task.IsRunning = false` *)
| AtFinish        (* holds mu; counters and NextRunAt updated; before Unlock *)
| Returned (ran : bool).  (* finished; [ran] tells whether the handler ran *)

(** Where the tick loop stands in [shouldRun(task, now)] and the
    dispatch that follows it. *)
Inductive tickpc : Type :=
| TickIdle
| TickRead                 (* holds the read lock; before the reads *)
| TickRUnlock (go : bool)  (* result computed; before RUnlock *)
| TickDispatch (go : bool).  (* before `if shouldRun { go runTask }` *)

Record state : Type := {
  IsRunning : bool;
  writer : bool;          (* mu is held for writing *)
  readers : nat;          (* number of read locks held on mu *)
  tick : tickpc;
  goroutines : list pc
}.

Definition init : state :=
  {| IsRunning := false; writer := false; readers := 0%nat;
     tick := TickIdle; goroutines := [] |}.

(** One statement of [runTask] by a goroutine at [p]: the next program
    point and the new flag and write-lock state, or [None] when the
    goroutine is blocked on the lock or has returned. *)
Definition advance (p : pc) (s : state) : option (pc * bool * bool) :=
  let free := negb (writer s) && (readers s =? 0)%nat in
  match p with
  | AtLock => if free then Some (AtCheck, IsRunning s, true) else None
  | AtCheck =>
      Some (if IsRunning s then AtSkipUnlock else AtSet, IsRunning s, writer s)
  | AtSkipUnlock => Some (Returned false, IsRunning s, false)
  | AtSet => Some (AtUnlock, true, writer s)
  | AtUnlock => Some (InHandler, IsRunning s, false)
  | InHandler => Some (AtRelock, IsRunning s, writer s)
  | AtRelock => if free then Some (AtClear, IsRunning s, true) else None
  | AtClear => Some (AtFinish, false, writer s)
  | AtFinish => Some (Returned true, IsRunning s, false)
  | Returned _ => None
  end.

(** What happens next: a goroutine executes its next statement, [RunNow]
    starts a goroutine, or the tick loop executes its next statement
    ([due] is what its reads of [cronExpr] and [NextRunAt] amount to:
    `cronExpr != nil && now.Unix() >= NextRunAt.Unix()`). *)
Inductive event : Type :=
| Run (i : nat)
| RunNow
| Tick (due : bool).

(** One event; [None] when it cannot happen in [s] (the goroutine does
    not exist, has returned, or is blocked on the lock). *)
Definition exec (s : state) (ev : event) : option state :=
  match ev with
  | Run i =>
      p ← goroutines s !! i;
      '(p', r, w) ← advance p s;
      Some {| IsRunning := r; writer := w; readers := readers s;
              tick := tick s; goroutines := <[i := p']> (goroutines s) |}
  | RunNow =>
      (* `go s.runTask(task)` *)
      Some {| IsRunning := IsRunning s; writer := writer s;
              readers := readers s; tick := tick s;
              goroutines := goroutines s ++ [AtLock] |}
  | Tick due =>
      match tick s with
      | TickIdle =>
          (* task.mu.RLock() *)
          if writer s then None
          else Some {| IsRunning := IsRunning s; writer := writer s;
                       readers := S (readers s); tick := TickRead;
                       goroutines := goroutines s |}
      | TickRead =>
          Some {| IsRunning := IsRunning s; writer := writer s;
                  readers := readers s;
                  tick := TickRUnlock (if IsRunning s then false else due);
                  goroutines := goroutines s |}
      | TickRUnlock go =>
          Some {| IsRunning := IsRunning s; writer := writer s;
                  readers := pred (readers s); tick := TickDispatch go;
                  goroutines := goroutines s |}
      | TickDispatch go =>
          Some {| IsRunning := IsRunning s; writer := writer s;
                  readers := readers s; tick := TickIdle;
                  goroutines :=
                    if go then goroutines s ++ [AtLock] else goroutines s |}
      end
  end.

(** An interleaving: the events in the order they happen. *)
Fixpoint execs (s : state) (evs : list event) : option state :=
  match evs with
  | [] => Some s
  | ev :: rest => s' ← exec s ev; execs s' rest
  end.

(** A run of the task is in flight: the goroutine has set the flag and
    has not cleared it yet. *)
Definition inFlight (p : pc) : bool :=
  match p with
  | AtUnlock | InHandler | AtRelock | AtClear => true
  | _ => false
  end.

(** The goroutine holds the task's lock for writing. *)
Definition holdsLock (p : pc) : bool :=
  match p with
  | AtCheck | AtSkipUnlock | AtSet | AtUnlock | AtClear | AtFinish => true
  | _ => false
  end.

Definition count (f : pc -> bool) (gs : list pc) : nat :=
  length (List.filter f gs).

End RunTask.

(** ** ratelimit.go *)

(** Every [time.Now()] a call performs is an argument of its model:
    [created] is the reading taken when a key's state is first allocated,
    [now] the reading taken under the key's lock. *)

(** The comparisons [x > y] and [x >= y] on token counts. *)
Definition Qgtb (x y : Q) : bool :=
  match (x ?= y)%Q with Gt => true | _ => false end.
Definition Qgeb (x y : Q) : bool :=
  match (x ?= y)%Q with Lt => false | _ => true end.

Module TokenBucket.

Record bucket : Type := {
  tokens : Q;
  lastCheck : GoTime.Time
}.

Record TokenBucket : Type := {
  rate : Z;
  capacity : Z;
  buckets : gmap string bucket
}.

Definition NewTokenBucket (rate capacity : Z) : TokenBucket :=
  {| rate := rate; capacity := capacity; buckets := ∅ |}.

(** The bucket [AllowN] works on: the key's bucket, or a new full one. *)
Definition getBucket (tb : TokenBucket) (key : string) (created : GoTime.Time)
  : bucket :=
  match buckets tb !! key with
  | Some b => b
  | None => {| tokens := inject_Z (capacity tb); lastCheck := created |}
  end.

(** The token count after the refill and the clamp to the capacity. *)
Definition refill (tb : TokenBucket) (b : bucket) (now : GoTime.Time) : Q :=
  let elapsed := Duration.Seconds (GoTime.Sub now (lastCheck b)) in
  let tokens1 := (tokens b + elapsed * inject_Z (rate tb))%Q in
  if Qgtb tokens1 (inject_Z (capacity tb))
  then inject_Z (capacity tb) else tokens1.

Definition AllowN (tb : TokenBucket) (key : string) (n : Z)
  (created now : GoTime.Time) : bool * TokenBucket :=
  let b := getBucket tb key created in
  let tokens2 := refill tb b now in
  if Qgeb tokens2 (inject_Z n) then
    (true, {| rate := rate tb; capacity := capacity tb;
              buckets := <[key := {| tokens := (tokens2 - inject_Z n)%Q;
                                     lastCheck := now |}]> (buckets tb) |})
  else
    (false, {| rate := rate tb; capacity := capacity tb;
               buckets := <[key := {| tokens := tokens2; lastCheck := now |}]>
                            (buckets tb) |}).

Definition Allow (tb : TokenBucket) (key : string)
  (created now : GoTime.Time) : bool * TokenBucket :=
  AllowN tb key 1 created now.

Definition Reset (tb : TokenBucket) (key : string) : TokenBucket :=
  {| rate := rate tb; capacity := capacity tb;
     buckets := delete key (buckets tb) |}.

(** One sweep of [gc]: buckets unused for more than ten minutes go. *)
Definition gc (tb : TokenBucket) (now : GoTime.Time) : TokenBucket :=
  {| rate := rate tb; capacity := capacity tb;
     buckets :=
       filter (fun kb => negb (10 * Duration.Minute
                                 <? GoTime.Sub now (lastCheck (snd kb))) = true)
              (buckets tb) |}.

(** The calls a limiter receives. *)
Inductive call : Type :=
| CallAllow (key : string) (created now : GoTime.Time)
| CallAllowN (key : string) (n : Z) (created now : GoTime.Time)
| CallReset (key : string)
| Sweep (now : GoTime.Time).

Definition perform (tb : TokenBucket) (c : call) : TokenBucket :=
  match c with
  | CallAllow key created now => snd (Allow tb key created now)
  | CallAllowN key n created now => snd (AllowN tb key n created now)
  | CallReset key => Reset tb key
  | Sweep now => gc tb now
  end.

Definition run (tb : TokenBucket) (calls : list call) : TokenBucket :=
  fold_left perform calls tb.

(** The amount a call asks for; none for [Reset] and the sweep. *)
Definition amount (c : call) : option Z :=
  match c with
  | CallAllow _ _ _ => Some 1
  | CallAllowN _ n _ _ => Some n
  | _ => None
  end.

(** The clock readings of a call, in the order they are taken. *)
Definition readings (c : call) : list GoTime.Time :=
  match c with
  | CallAllow _ created now | CallAllowN _ _ created now => [created; now]
  | CallReset _ => []
  | Sweep now => [now]
  end.

End TokenBucket.

Module SlidingWindow.

Record SlidingWindow : Type := {
  limit : Z;
  window : Z;
  windows : gmap string (list GoTime.Time)
}.

Definition NewSlidingWindow (limit window : Z) : SlidingWindow :=
  {| limit := limit; window := window; windows := ∅ |}.

(** The requests of [key] still inside the window at [now]. *)
Definition validRequests (sw : SlidingWindow) (key : string)
  (now : GoTime.Time) : list GoTime.Time :=
  let cutoff := GoTime.Add now (GoInt.wrap (- window sw)) in
  List.filter (fun reqTime => GoTime.After reqTime cutoff)
              (default [] (windows sw !! key)).

Definition AllowN (sw : SlidingWindow) (key : string) (n : Z)
  (now : GoTime.Time) : bool * SlidingWindow :=
  let valid := validRequests sw key now in
  if GoInt.wrap (Z.of_nat (length valid) + n) <=? limit sw then
    (true, {| limit := limit sw; window := window sw;
              windows := <[key := valid ++ repeat now (Z.to_nat n)]>
                           (windows sw) |})
  else
    (false, {| limit := limit sw; window := window sw;
               windows := <[key := valid]> (windows sw) |}).

Definition Allow (sw : SlidingWindow) (key : string) (now : GoTime.Time)
  : bool * SlidingWindow :=
  AllowN sw key 1 now.

Definition Reset (sw : SlidingWindow) (key : string) : SlidingWindow :=
  {| limit := limit sw; window := window sw;
     windows := delete key (windows sw) |}.

(** One sweep of [gc]: a key with no request, or whose latest request is
    older than twice the window, goes. *)
Definition gc (sw : SlidingWindow) (now : GoTime.Time) : SlidingWindow :=
  let cutoff := GoTime.Add now (GoInt.wrap (GoInt.wrap (- window sw) * 2)) in
  {| limit := limit sw; window := window sw;
     windows :=
       filter (fun kr => match last (snd kr) with
                         | None => false
                         | Some t => negb (GoTime.Before t cutoff)
                         end = true)
              (windows sw) |}.

Inductive call : Type :=
| CallAllow (key : string) (now : GoTime.Time)
| CallAllowN (key : string) (n : Z) (now : GoTime.Time)
| CallReset (key : string)
| Sweep (now : GoTime.Time).

Definition perform (sw : SlidingWindow) (c : call) : SlidingWindow :=
  match c with
  | CallAllow key now => snd (Allow sw key now)
  | CallAllowN key n now => snd (AllowN sw key n now)
  | CallReset key => Reset sw key
  | Sweep now => gc sw now
  end.

Definition run (sw : SlidingWindow) (calls : list call) : SlidingWindow :=
  fold_left perform calls sw.

Definition amount (c : call) : option Z :=
  match c with
  | CallAllow _ _ => Some 1
  | CallAllowN _ n _ => Some n
  | _ => None
  end.

(** What [GetStats] reports; the [window] entry is the duration that
    the source renders with [String()]. *)
Record stats : Type := {
  stats_requests : Z;
  stats_limit : Z;
  stats_window : Z;
  stats_remaining : Z
}.

Definition GetStats (sw : SlidingWindow) (key : string) (now : GoTime.Time)
  : stats :=
  match windows sw !! key with
  | None =>
      {| stats_requests := 0; stats_limit := limit sw;
         stats_window := window sw; stats_remaining := limit sw |}
  | Some requests =>
      let cutoff := GoTime.Add now (GoInt.wrap (- window sw)) in
      let count :=
        Z.of_nat (length (List.filter
                            (fun reqTime => GoTime.After reqTime cutoff)
                            requests)) in
      {| stats_requests := count; stats_limit := limit sw;
         stats_window := window sw;
         stats_remaining := GoInt.wrap (limit sw - count) |}
  end.

End SlidingWindow.

Module FixedWindow.

Record fixedWindowData : Type := {
  count : Z;
  resetTime : GoTime.Time
}.

Record FixedWindow : Type := {
  limit : Z;
  window : Z;
  windows : gmap string fixedWindowData
}.

Definition NewFixedWindow (limit window : Z) : FixedWindow :=
  {| limit := limit; window := window; windows := ∅ |}.

(** The key's window as the admission test sees it: allocated on first
    use, and started afresh once its deadline has passed. *)
Definition current (fw : FixedWindow) (key : string)
  (created now : GoTime.Time) : fixedWindowData :=
  let fwd := match windows fw !! key with
             | Some fwd => fwd
             | None => {| count := 0;
                          resetTime := GoTime.Add created (window fw) |}
             end in
  if GoTime.After now (resetTime fwd)
  then {| count := 0; resetTime := GoTime.Add now (window fw) |}
  else fwd.

Definition AllowN (fw : FixedWindow) (key : string) (n : Z)
  (created now : GoTime.Time) : bool * FixedWindow :=
  let fwd := current fw key created now in
  if GoInt.wrap (count fwd + n) <=? limit fw then
    (true, {| limit := limit fw; window := window fw;
              windows := <[key := {| count := GoInt.wrap (count fwd + n);
                                     resetTime := resetTime fwd |}]>
                           (windows fw) |})
  else
    (false, {| limit := limit fw; window := window fw;
               windows := <[key := fwd]> (windows fw) |}).

Definition Allow (fw : FixedWindow) (key : string)
  (created now : GoTime.Time) : bool * FixedWindow :=
  AllowN fw key 1 created now.

Definition Reset (fw : FixedWindow) (key : string) : FixedWindow :=
  {| limit := limit fw; window := window fw;
     windows := delete key (windows fw) |}.

Inductive call : Type :=
| CallAllow (key : string) (created now : GoTime.Time)
| CallAllowN (key : string) (n : Z) (created now : GoTime.Time)
| CallReset (key : string).

Definition perform (fw : FixedWindow) (c : call) : FixedWindow :=
  match c with
  | CallAllow key created now => snd (Allow fw key created now)
  | CallAllowN key n created now => snd (AllowN fw key n created now)
  | CallReset key => Reset fw key
  end.

Definition run (fw : FixedWindow) (calls : list call) : FixedWindow :=
  fold_left perform calls fw.

(** [GetResetTime]; [now] is the clock reading taken for a key without
    a window. *)
Definition GetResetTime (fw : FixedWindow) (key : string) (now : GoTime.Time)
  : GoTime.Time :=
  match windows fw !! key with
  | None => GoTime.Add now (window fw)
  | Some fwd => resetTime fwd
  end.

End FixedWindow.

(** ** schedule.go: the task registry and a task's run *)

Module TaskRegistry.

(** [t.Unix()] and [t.UnixNano()]: seconds and nanoseconds since
    January 1, 1970 UTC. *)
Definition unixEpoch : GoTime.Time := GoTime.Date 1970 1 1 0 0 0.
Definition Unix (t : GoTime.Time) : Z := (t - unixEpoch) / Duration.Second.
Definition UnixNano (t : GoTime.Time) : Z := t - unixEpoch.

(** A [Task]; [H] is the type of handlers, which the scheduler only
    stores and calls. *)
Record Task (H : Type) : Type := {
  ID : string;
  Name : string;
  Schedule : string;
  Handler : H;
  LastRunAt : GoTime.Time;
  NextRunAt : GoTime.Time;
  RunCount : Z;
  FailCount : Z;
  IsRunning : bool;
  Description : string;
  cronExpr : option CronExpression
}.

Arguments ID {H} _.
Arguments Name {H} _.
Arguments Schedule {H} _.
Arguments Handler {H} _.
Arguments LastRunAt {H} _.
Arguments NextRunAt {H} _.
Arguments RunCount {H} _.
Arguments FailCount {H} _.
Arguments IsRunning {H} _.
Arguments Description {H} _.
Arguments cronExpr {H} _.

(** The errors of the registry: [fmt.Errorf("invalid cron expression:
    %w", err)] and [fmt.Errorf("task %s not found", taskID)]. *)
Inductive taskError : Type :=
| InvalidCronExpression (cause : error)
| TaskNotFound (taskID : string).

(** What [AddTask] returns: the registry it leaves and its error, if
    any; or nothing yet, when [ParseCron] has not returned. *)
Inductive added (H : Type) : Type :=
| Added (tasks : gmap string (Task H)) (err : option taskError)
| AddDiverges.

Arguments Added {H} tasks err.
Arguments AddDiverges {H}.

Section Registry.

Context {H : Type}.

(** [AddTask]; [t1] is the clock reading that names a task without ID,
    [t2] the one [Next] starts from. *)
Definition AddTask (fuel : nat) (tasks : gmap string (Task H)) (task : Task H)
  (t1 t2 : GoTime.Time) : added H :=
  let id :=
    if String.eqb (ID task) ""
    then ("task_" +:+ string_of_list_ascii (strconv.Itoa (UnixNano t1)))%string
    else ID task in
  if negb (String.eqb (Schedule task) "") then
    match ParseCron fuel (Schedule task) with
    | OutOfFuel => AddDiverges
    | Err e => Added tasks (Some (InvalidCronExpression e))
    | Ok c =>
        Added (<[id := {| ID := id; Name := Name task;
                          Schedule := Schedule task; Handler := Handler task;
                          LastRunAt := LastRunAt task;
                          NextRunAt := Next c t2;
                          RunCount := RunCount task;
                          FailCount := FailCount task;
                          IsRunning := IsRunning task;
                          Description := Description task;
                          cronExpr := Some c |}]> tasks) None
    end
  else
    Added (<[id := {| ID := id; Name := Name task;
                      Schedule := Schedule task; Handler := Handler task;
                      LastRunAt := LastRunAt task;
                      NextRunAt := NextRunAt task;
                      RunCount := RunCount task;
                      FailCount := FailCount task;
                      IsRunning := IsRunning task;
                      Description := Description task;
                      cronExpr := cronExpr task |}]> tasks) None.

Definition RemoveTask (tasks : gmap string (Task H)) (taskID : string)
  : gmap string (Task H) * option taskError :=
  match tasks !! taskID with
  | None => (tasks, Some (TaskNotFound taskID))
  | Some _ => (delete taskID tasks, None)
  end.

Definition GetTask (tasks : gmap string (Task H)) (taskID : string)
  : option (Task H) * option taskError :=
  match tasks !! taskID with
  | None => (None, Some (TaskNotFound taskID))
  | Some task => (Some task, None)
  end.

(** [ListTasks]: the tasks in the map's iteration order. *)
Definition ListTasks (tasks : gmap string (Task H)) : list (Task H) :=
  snd <$> map_to_list tasks.

Definition shouldRun (task : Task H) (now : GoTime.Time) : bool :=
  if IsRunning task then false
  else match cronExpr task with
       | None => false
       | Some _ => Unix now >=? Unix (NextRunAt task)
       end.

(** [runTask] run on its own, from its first lock to [addLog]: [err] is
    what the handler returned (its message, [None] for nil), and
    [started], [ended] and [now] are the three clock readings. Returns
    the task and the log entry, or [None] when the run is skipped
    because the task is already running. *)
Definition runTask (task : Task H) (err : option string)
  (started ended now : GoTime.Time) : option (Task H * Scheduler.TaskLog) :=
  if IsRunning task then None
  else
    Some ({| ID := ID task; Name := Name task; Schedule := Schedule task;
             Handler := Handler task;
             LastRunAt := started;
             NextRunAt := match cronExpr task with
                          | Some c => Next c now
                          | None => NextRunAt task
                          end;
             RunCount := GoInt.wrap (RunCount task + 1);
             FailCount := match err with
                          | Some _ => GoInt.wrap (FailCount task + 1)
                          | None => FailCount task
                          end;
             IsRunning := false;
             Description := Description task;
             cronExpr := cronExpr task |},
          {| Scheduler.TaskID := ID task;
             Scheduler.TaskName := Name task;
             Scheduler.StartTime := started;
             Scheduler.EndTime := ended;
             Scheduler.Duration := GoTime.Sub ended started;
             Scheduler.Success := match err with None => true | _ => false end;
             Scheduler.Error := default "" err |}).

End Registry.

(** [calculateSuccessRate]: the share of runs that did not fail, in
    percent; 0 when nothing has run. *)
Definition calculateSuccessRate (total fails : Z) : Q :=
  if total =? 0 then 0%Q
  else (inject_Z (GoInt.wrap (total - fails)) / inject_Z total * 100)%Q.

(** The loop of [GetLogs] over the entries from the newest to the
    oldest, [count] of them taken so far. *)
Fixpoint getLogsFrom (newestFirst : list Scheduler.TaskLog) (taskID : string)
  (limit count : Z) (logs : list Scheduler.TaskLog) : list Scheduler.TaskLog :=
  match newestFirst with
  | [] => logs
  | entry :: older =>
      if count <? limit then
        if String.eqb taskID "" || String.eqb (Scheduler.TaskID entry) taskID
        then getLogsFrom older taskID limit (count + 1) (logs ++ [entry])
        else getLogsFrom older taskID limit count logs
      else logs
  end.

Definition GetLogs (s : Scheduler.Scheduler) (taskID : string) (limit : Z)
  : list Scheduler.TaskLog :=
  getLogsFrom (rev (Scheduler.logs s)) taskID limit 0 [].

(** What [GetStats] reports. The tasks are visited in the map's
    iteration order, on which none of the sums depends. *)
Record stats : Type := {
  total_tasks : Z;
  running_tasks : Z;
  total_runs : Z;
  total_fails : Z;
  success_rate : Q
}.

Definition GetStats {H : Type} (tasks : gmap string (Task H)) : stats :=
  let visited := snd <$> map_to_list tasks in
  let runningTasks :=
    fold_left (fun n task => if IsRunning task then GoInt.wrap (n + 1) else n)
              visited 0 in
  let totalRuns :=
    fold_left (fun n task => GoInt.wrap (n + RunCount task)) visited 0 in
  let totalFails :=
    fold_left (fun n task => GoInt.wrap (n + FailCount task)) visited 0 in
  {| total_tasks := Z.of_nat (size tasks);
     running_tasks := runningTasks;
     total_runs := totalRuns;
     total_fails := totalFails;
     success_rate := calculateSuccessRate totalRuns totalFails |}.

End TaskRegistry.

(** ** builder.go: the schedules the task builder sets *)

Module TaskBuilder.

(** The [Schedule] each method sets; [fmt.Sprintf] writes each [%d] in
    decimal and the text between as it stands. *)
Definition EveryMinute : string := "* * * * *".
Definition EveryFiveMinutes : string := "*/5 * * * *".
Definition EveryTenMinutes : string := "*/10 * * * *".
Definition EveryFifteenMinutes : string := "*/15 * * * *".
Definition EveryThirtyMinutes : string := "*/30 * * * *".
Definition Hourly : string := "0 * * * *".

Definition HourlyAt (minute : Z) : string :=
  string_of_list_ascii
    (strconv.Itoa minute ++ list_ascii_of_string " * * * *").

Definition Daily : string := "0 0 * * *".

Definition DailyAt (hour minute : Z) : string :=
  string_of_list_ascii
    (strconv.Itoa minute ++ " "%char :: strconv.Itoa hour
     ++ list_ascii_of_string " * * *").

Definition Weekly : string := "0 0 * * 0".

Definition WeeklyOn (weekday hour minute : Z) : string :=
  string_of_list_ascii
    (strconv.Itoa minute ++ " "%char :: strconv.Itoa hour
     ++ list_ascii_of_string " * * " ++ strconv.Itoa weekday).

Definition Monthly : string := "0 0 1 * *".

Definition MonthlyOn (day hour minute : Z) : string :=
  string_of_list_ascii
    (strconv.Itoa minute ++ " "%char :: strconv.Itoa hour
     ++ " "%char :: strconv.Itoa day ++ list_ascii_of_string " * *").

Definition Yearly : string := "0 0 1 1 *".
Definition Weekdays : string := "0 0 * * 1-5".
Definition Weekends : string := "0 0 * * 0,6".


End TaskBuilder.

(** ** ratelimit.go: the key generators *)

Definition IPKeyGenerator (ip : string) : string := "ip:" +:+ ip.

Definition UserKeyGenerator (userID : string) : string := "user:" +:+ userID.

Definition EndpointKeyGenerator (method path : string) : string :=
  "endpoint:" +:+ method +:+ ":" +:+ path.

(** The loop of [CompositeKeyGenerator] from the part of index [i] on,
    [result] being what the earlier parts gave. *)
Fixpoint compositeFrom (i : Z) (parts : list string) (result : string)
  : string :=
  match parts with
  | [] => result
  | part :: rest =>
      compositeFrom (i + 1) rest
        ((if i >? 0 then result +:+ ":" else result) +:+ part)
  end.

Definition CompositeKeyGenerator (parts : list string) : string :=
  compositeFrom 0 parts "".

(** * Vocabulary of the statements *)

(** ** Decimal numerals and range sub-terms *)

(** The number a digit sequence denotes, read after [acc]. *)
Fixpoint uintValue (u : Decimal.uint) (acc : Z) : Z :=
  match u with
  | Decimal.Nil => acc
  | Decimal.D0 l => uintValue l (acc * 10 + 0)
  | Decimal.D1 l => uintValue l (acc * 10 + 1)
  | Decimal.D2 l => uintValue l (acc * 10 + 2)
  | Decimal.D3 l => uintValue l (acc * 10 + 3)
  | Decimal.D4 l => uintValue l (acc * 10 + 4)
  | Decimal.D5 l => uintValue l (acc * 10 + 5)
  | Decimal.D6 l => uintValue l (acc * 10 + 6)
  | Decimal.D7 l => uintValue l (acc * 10 + 7)
  | Decimal.D8 l => uintValue l (acc * 10 + 8)
  | Decimal.D9 l => uintValue l (acc * 10 + 9)
  end.

Definition uintBytes (u : Decimal.uint) : bytes :=
  list_ascii_of_string (NilEmpty.string_of_uint u).

Definition isDigit (c : ascii) : bool :=
  match strconv.digit c with Some _ => true | None => false end.

(** [s] is a non-empty run of decimal digits that denotes [v]. *)
Definition numeral (s : bytes) (v : Z) : Prop :=
  s <> [] /\ forallb isDigit s = true /\ strconv.digits s 0 = Some v.

(** The range sub-term [a-b] as it is written. *)
Definition rangeTerm (a b : Z) : bytes :=
  strconv.Itoa a ++ "-"%char :: strconv.Itoa b.

(** ** The search of [Next] *)

(** The minutes [Next] tests, in order: [n] of them from [t] on. *)
Definition candidates (n : Z) (t : GoTime.Time) : list GoTime.Time :=
  (fun k => GoTime.Add t (k * Duration.Minute)) <$> seqZ 0 n.

(** ** Sequences of limiter calls *)

(** Every call asks for a non-negative amount. *)
Definition nonnegAmounts (calls : list TokenBucket.call) : bool :=
  forallb (fun c => match TokenBucket.amount c with
                    | Some n => 0 <=? n
                    | None => true
                    end) calls.

(** Every call asks for an [int] amount that, added to a count of at
    most [limit], stays within [int]. *)
Definition boundedAmounts (limit : Z) (calls : list SlidingWindow.call) : bool :=
  forallb (fun c => match SlidingWindow.amount c with
                    | Some n => (GoInt.min_int <=? n)
                                && (n <=? GoInt.max_int - limit)
                    | None => true
                    end) calls.

(** The clock readings never go back. *)
Fixpoint nondecreasing (ts : list GoTime.Time) : bool :=
  match ts with
  | t1 :: (t2 :: _) as rest => (t1 <=? t2) && nondecreasing rest
  | _ => true
  end.

(** ** Invariants of the limiters *)


Definition requestsWithinLimit (sw : SlidingWindow.SlidingWindow) : Prop :=
  forall key rs, SlidingWindow.windows sw !! key = Some rs ->
    Z.of_nat (length rs) <= SlidingWindow.limit sw.


(** No bucket is in debt, and none was checked after [T]. *)
Definition solvent (T : GoTime.Time) (tb : TokenBucket.TokenBucket) : Prop :=
  forall key b, TokenBucket.buckets tb !! key = Some b ->
    (0 <= TokenBucket.tokens b)%Q /\ TokenBucket.lastCheck b <= T.

(** ** Invariant of the goroutines of one task *)

Definition isAtSet (p : RunTask.pc) : bool :=
  match p with RunTask.AtSet => true | _ => false end.

Definition b2n (b : bool) : nat := if b then 1%nat else 0%nat.

(** The write lock has one holder when it is held and none otherwise; a
    run is in flight exactly when the flag is set, and then there is
    one; and a goroutine about to set the flag has found it clear. *)
Record invariant (s : RunTask.state) : Prop := {
  inv_lock :
    RunTask.count RunTask.holdsLock (RunTask.goroutines s)
    = b2n (RunTask.writer s);
  inv_flag :
    RunTask.count RunTask.inFlight (RunTask.goroutines s)
    = b2n (RunTask.IsRunning s);
  inv_set :
    (0 < RunTask.count isAtSet (RunTask.goroutines s))%nat ->
    RunTask.IsRunning s = false
}.

(** The values of a step term: [start], [start + step], ... up to [hi]. *)
Definition stepValues (start step hi : Z) : list Z :=
  (fun k => start + k * step)
    <$> seqZ 0 (if start <=? hi then (hi - start) / step + 1 else 0).

(** The step term [a/n] as it is written. *)
Definition stepTerm (a n : Z) : bytes :=
  strconv.Itoa a ++ "/"%char :: strconv.Itoa n.

(** The values lie in the field's range, and there is at least one. *)
Definition validSet (min max : Z) (values : list Z) : Prop :=
  values <> [] /\ Forall (fun v => min <= v <= max) values.

(** What one run of a task's handler comes to: the error it returned
    and the three clock readings of [runTask]. *)
Record outcome : Type := {
  failure : option string;
  startedAt : GoTime.Time;
  endedAt : GoTime.Time;
  recomputedAt : GoTime.Time
}.

(** The task and the log entries after the runs [outs], one after the
    other. *)
Fixpoint runAll {H : Type} (task : TaskRegistry.Task H) (outs : list outcome)
  : TaskRegistry.Task H * list Scheduler.TaskLog :=
  match outs with
  | [] => (task, [])
  | o :: rest =>
      match TaskRegistry.runTask task (failure o) (startedAt o) (endedAt o)
              (recomputedAt o) with
      | Some (task', entry) =>
          let '(task'', entries) := runAll task' rest in
          (task'', entry :: entries)
      | None => runAll task rest
      end
  end.

Definition failed (o : outcome) : bool :=
  match failure o with Some _ => true | None => false end.

(** ** The sliding window beside a limiter that never forgets *)

(** The time [t] is one of the times from [a] to [b]. *)
Definition within (a b t : GoTime.Time) : bool := (a <=? t) && (t <=? b).

Module SlidingReference.

(** What a sequence of calls returns: one answer for each [Allow] and
    [AllowN], in order. *)
Fixpoint answers (sw : SlidingWindow.SlidingWindow)
  (calls : list SlidingWindow.call) : list bool :=
  match calls with
  | [] => []
  | c :: rest =>
      match c with
      | SlidingWindow.CallAllow key now =>
          fst (SlidingWindow.Allow sw key now)
          :: answers (SlidingWindow.perform sw c) rest
      | SlidingWindow.CallAllowN key n now =>
          fst (SlidingWindow.AllowN sw key n now)
          :: answers (SlidingWindow.perform sw c) rest
      | _ => answers (SlidingWindow.perform sw c) rest
      end
  end.

(** The clock reading of a call. *)
Definition reading (c : SlidingWindow.call) : list GoTime.Time :=
  match c with
  | SlidingWindow.CallAllow _ now | SlidingWindow.CallAllowN _ _ now
  | SlidingWindow.Sweep now => [now]
  | SlidingWindow.CallReset _ => []
  end.

(** The reference keeps, for every key, the times of all the requests
    admitted since the key was last reset. *)
Abbreviation history := (gmap string (list GoTime.Time)).

(** The admitted requests of [key] later than [now - window]. *)
Definition inWindow (window : Z) (h : history) (key : string)
  (now : GoTime.Time) : list GoTime.Time :=
  List.filter (fun t => now - window <? t) (default [] (h !! key)).

(** [n] requests are admitted when, with those of the window, they are
    at most [limit]. *)
Definition allowN (limit window : Z) (h : history) (key : string) (n : Z)
  (now : GoTime.Time) : bool * history :=
  if Z.of_nat (length (inWindow window h key now)) + n <=? limit
  then (true, <[key := default [] (h !! key) ++ repeat now (Z.to_nat n)]> h)
  else (false, h).

(** The answers of the reference; a sweep means nothing to it. *)
Fixpoint expected (limit window : Z) (h : history)
  (calls : list SlidingWindow.call) : list bool :=
  match calls with
  | [] => []
  | c :: rest =>
      match c with
      | SlidingWindow.CallAllow key now =>
          fst (allowN limit window h key 1 now)
          :: expected limit window (snd (allowN limit window h key 1 now)) rest
      | SlidingWindow.CallAllowN key n now =>
          fst (allowN limit window h key n now)
          :: expected limit window (snd (allowN limit window h key n now)) rest
      | SlidingWindow.CallReset key => expected limit window (delete key h) rest
      | SlidingWindow.Sweep _ => expected limit window h rest
      end
  end.

(** How the limiter's record of a key stands to the reference's at the
    latest clock reading [T]: it holds no later time, its last time is
    its latest, it is within the limit, and from [T] on the two have the
    same requests in the window. *)
Record agrees (T : GoTime.Time) (limit window : Z)
  (stored admitted : list GoTime.Time) : Prop := {
  agrees_past : Forall (fun t => t <= T) stored;
  agrees_last : forall x, last stored = Some x -> Forall (fun t => t <= x) stored;
  agrees_limit : Z.of_nat (length stored) <= limit;
  agrees_window : forall c, T - window <= c ->
    List.filter (fun t => c <? t) stored = List.filter (fun t => c <? t) admitted
}.

(** No call is [Reset(key)]. *)
Definition neverReset (key : string) (calls : list SlidingWindow.call) : bool :=
  forallb (fun c => match c with
                    | SlidingWindow.CallReset k => negb (String.eqb k key)
                    | _ => true
                    end) calls.

(** No call asks for a negative amount. *)
Definition nonnegAmounts (calls : list SlidingWindow.call) : bool :=
  forallb (fun c => match SlidingWindow.amount c with
                    | Some n => 0 <=? n
                    | None => true
                    end) calls.

(** The requests admitted for [key] at the times from [a] to [b]: the
    amounts of its calls at those times that were answered true. *)
Fixpoint admittedIn (key : string) (a b : GoTime.Time)
  (calls : list SlidingWindow.call) (oks : list bool) : Z :=
  match calls with
  | [] => 0
  | SlidingWindow.CallAllow k now :: rest =>
      match oks with
      | ok :: oks' =>
          (if ok && String.eqb k key && within a b now
           then 1 else 0) + admittedIn key a b rest oks'
      | [] => 0
      end
  | SlidingWindow.CallAllowN k n now :: rest =>
      match oks with
      | ok :: oks' =>
          (if ok && String.eqb k key && within a b now
           then n else 0) + admittedIn key a b rest oks'
      | [] => 0
      end
  | _ :: rest => admittedIn key a b rest oks
  end.

(** The limiter and the reference agree on every key. *)
Definition agree (T : GoTime.Time) (sw : SlidingWindow.SlidingWindow)
  (h : history) : Prop :=
  forall key,
    agrees T (SlidingWindow.limit sw) (SlidingWindow.window sw)
      (default [] (SlidingWindow.windows sw !! key)) (default [] (h !! key)).

(** The calls that concern [key]: its own, and the sweeps. *)
Definition concerns (key : string) (c : SlidingWindow.call) : bool :=
  match c with
  | SlidingWindow.CallAllow k _ | SlidingWindow.CallAllowN k _ _
  | SlidingWindow.CallReset k => String.eqb k key
  | SlidingWindow.Sweep _ => true
  end.

(** Of the answers [oks] to [calls], those to the calls on [key]. *)
Fixpoint answersFor (key : string) (calls : list SlidingWindow.call)
  (oks : list bool) : list bool :=
  match calls with
  | [] => []
  | (SlidingWindow.CallAllow k _ | SlidingWindow.CallAllowN k _ _) :: rest =>
      match oks with
      | ok :: oks' =>
          if String.eqb k key then ok :: answersFor key rest oks'
          else answersFor key rest oks'
      | [] => []
      end
  | _ :: rest => answersFor key rest oks
  end.

End SlidingReference.

(** ** Sequences of calls on a token bucket *)

Module BucketRuns.

(** What a sequence of calls returns: one answer for each [Allow] and
    [AllowN], in order. *)
Fixpoint answers (tb : TokenBucket.TokenBucket)
  (calls : list TokenBucket.call) : list bool :=
  match calls with
  | [] => []
  | c :: rest =>
      match c with
      | TokenBucket.CallAllow key created now =>
          fst (TokenBucket.Allow tb key created now)
          :: answers (TokenBucket.perform tb c) rest
      | TokenBucket.CallAllowN key n created now =>
          fst (TokenBucket.AllowN tb key n created now)
          :: answers (TokenBucket.perform tb c) rest
      | _ => answers (TokenBucket.perform tb c) rest
      end
  end.


(** No call is [Reset(key)]. *)
Definition neverReset (key : string) (calls : list TokenBucket.call) : bool :=
  forallb (fun c => match c with
                    | TokenBucket.CallReset k => negb (String.eqb k key)
                    | _ => true
                    end) calls.





(** The calls that concern [key]: its own, and the sweeps. *)
Definition concerns (key : string) (c : TokenBucket.call) : bool :=
  match c with
  | TokenBucket.CallAllow k _ _ | TokenBucket.CallAllowN k _ _ _
  | TokenBucket.CallReset k => String.eqb k key
  | TokenBucket.Sweep _ => true
  end.

(** Of the answers [oks] to [calls], those to the calls on [key]. *)
Fixpoint answersFor (key : string) (calls : list TokenBucket.call)
  (oks : list bool) : list bool :=
  match calls with
  | [] => []
  | (TokenBucket.CallAllow k _ _ | TokenBucket.CallAllowN k _ _ _) :: rest =>
      match oks with
      | ok :: oks' =>
          if String.eqb k key then ok :: answersFor key rest oks'
          else answersFor key rest oks'
      | [] => []
      end
  | _ :: rest => answersFor key rest oks
  end.

End BucketRuns.

(** ** Sequences of calls on a fixed window *)

Module FixedRuns.

(** What a sequence of calls returns: one answer for each [Allow] and
    [AllowN], in order. *)
Fixpoint answers (fw : FixedWindow.FixedWindow)
  (calls : list FixedWindow.call) : list bool :=
  match calls with
  | [] => []
  | c :: rest =>
      match c with
      | FixedWindow.CallAllow key created now =>
          fst (FixedWindow.Allow fw key created now)
          :: answers (FixedWindow.perform fw c) rest
      | FixedWindow.CallAllowN key n created now =>
          fst (FixedWindow.AllowN fw key n created now)
          :: answers (FixedWindow.perform fw c) rest
      | FixedWindow.CallReset _ => answers (FixedWindow.perform fw c) rest
      end
  end.

(** The clock readings of a call, in the order they are taken. *)
Definition readings (c : FixedWindow.call) : list GoTime.Time :=
  match c with
  | FixedWindow.CallAllow _ created now
  | FixedWindow.CallAllowN _ _ created now => [created; now]
  | FixedWindow.CallReset _ => []
  end.

(** The amount a call asks for; none for [Reset]. *)
Definition amount (c : FixedWindow.call) : option Z :=
  match c with
  | FixedWindow.CallAllow _ _ _ => Some 1
  | FixedWindow.CallAllowN _ n _ _ => Some n
  | FixedWindow.CallReset _ => None
  end.

(** Every call asks for an amount from 0 to [MaxInt - limit]. *)
Definition naturalAmounts (limit : Z) (calls : list FixedWindow.call) : bool :=
  forallb (fun c => match amount c with
                    | Some n => (0 <=? n) && (n <=? GoInt.max_int - limit)
                    | None => true
                    end) calls.

(** No call is [Reset(key)]. *)
Definition neverReset (key : string) (calls : list FixedWindow.call) : bool :=
  forallb (fun c => match c with
                    | FixedWindow.CallReset k => negb (String.eqb k key)
                    | _ => true
                    end) calls.

(** The requests admitted for [key] at the times from [a] to [b]: the
    amounts of its calls at those times that were answered true. *)
Fixpoint admittedIn (key : string) (a b : GoTime.Time)
  (calls : list FixedWindow.call) (oks : list bool) : Z :=
  match calls with
  | [] => 0
  | FixedWindow.CallAllow k _ now :: rest =>
      match oks with
      | ok :: oks' =>
          (if ok && String.eqb k key && within a b now
           then 1 else 0) + admittedIn key a b rest oks'
      | [] => 0
      end
  | FixedWindow.CallAllowN k n _ now :: rest =>
      match oks with
      | ok :: oks' =>
          (if ok && String.eqb k key && within a b now
           then n else 0) + admittedIn key a b rest oks'
      | [] => 0
      end
  | FixedWindow.CallReset _ :: rest => admittedIn key a b rest oks
  end.

(** The account of a key over the times from [a] to [b], [S] requests
    admitted there so far, at the latest clock reading [T]: by where the
    key's window, which ends at [resetTime] and began [window] before,
    lies to those times. *)
Definition account (a b : GoTime.Time) (window limit : Z) (T : GoTime.Time)
  (S : Z) (o : option FixedWindow.fixedWindowData) : Prop :=
  match o with
  | None => S = 0
  | Some fwd =>
      let R := FixedWindow.resetTime fwd in
      let c := FixedWindow.count fwd in
      0 <= c <= limit /\ R - window <= T /\ 0 <= S <= 2 * limit
      /\ (R < a -> S = 0)
      /\ (a <= R -> R - window <= a -> S <= c)
      /\ (a < R - window -> R - window <= b -> S <= limit + c)
  end.

(** The calls on [key]. *)
Definition concerns (key : string) (c : FixedWindow.call) : bool :=
  match c with
  | FixedWindow.CallAllow k _ _ | FixedWindow.CallAllowN k _ _ _
  | FixedWindow.CallReset k => String.eqb k key
  end.

(** Of the answers [oks] to [calls], those to the calls on [key]. *)
Fixpoint answersFor (key : string) (calls : list FixedWindow.call)
  (oks : list bool) : list bool :=
  match calls with
  | [] => []
  | (FixedWindow.CallAllow k _ _ | FixedWindow.CallAllowN k _ _ _) :: rest =>
      match oks with
      | ok :: oks' =>
          if String.eqb k key then ok :: answersFor key rest oks'
          else answersFor key rest oks'
      | [] => []
      end
  | _ :: rest => answersFor key rest oks
  end.

End FixedRuns.

(** ** Sums over the tasks *)


(** ** Fields that are a star or one number *)

(** A field as the time presets write it. *)
Inductive fieldSpec : Type :=
| Any
| Exactly (v : Z).

Definition render (spec : fieldSpec) : bytes :=
  match spec with
  | Any => ["*"%char]
  | Exactly v => strconv.Itoa v
  end.

Definition inRange (lo hi : Z) (spec : fieldSpec) : bool :=
  match spec with
  | Any => true
  | Exactly v => (lo <=? v) && (v <=? hi)
  end.

Definition valuesOf (lo hi : Z) (spec : fieldSpec) : list Z :=
  match spec with
  | Any => seqZ lo (hi + 1 - lo)
  | Exactly v => [v]
  end.

(** The expression five such fields stand for. *)
Definition expressionOf (s0 s1 s2 s3 s4 : fieldSpec) : CronExpression :=
  {| minute := valuesOf 0 59 s0; hour := valuesOf 0 23 s1;
     dayOfMonth := valuesOf 1 31 s2; month := valuesOf 1 12 s3;
     dayOfWeek := valuesOf 0 6 s4 |}.

(** What [ParseCron] makes of a preset whose fields are [s0] to [s4]:
    the expression when every number is in its field's range, an error
    when one is not. *)
Definition parsesTo (r : result CronExpression) (s0 s1 s2 s3 s4 : fieldSpec)
  : Prop :=
  match r with
  | Ok c =>
      inRange 0 59 s0 && inRange 0 23 s1 && inRange 1 31 s2
      && inRange 1 12 s3 && inRange 0 6 s4 = true
      /\ c = expressionOf s0 s1 s2 s3 s4
  | Err _ =>
      inRange 0 59 s0 && inRange 0 23 s1 && inRange 1 31 s2
      && inRange 1 12 s3 && inRange 0 6 s4 = false
  | OutOfFuel => False
  end.

(** ** Keys and their parts *)

(** The string holds no colon. *)
Fixpoint colonFree (s : string) : bool :=
  match s with
  | EmptyString => true
  | String c s' => negb (Ascii.eqb c ":") && colonFree s'
  end.

(** The parts after the first, each behind its colon. *)
Fixpoint colonJoined (parts : list string) : string :=
  match parts with
  | [] => ""
  | part :: rest => ":" +:+ part +:+ colonJoined rest
  end.

(** * Properties *)

(** ** Machine integers *)

Lemma max_int_val : GoInt.max_int = 9223372036854775807.
Proof. reflexivity. Qed.

Lemma min_int_val : GoInt.min_int = -9223372036854775808.
Proof. reflexivity. Qed.

(** Linear arithmetic with the bounds of [int] as numerals. *)
Ltac int_lia := rewrite ?max_int_val, ?min_int_val in *; lia.

Lemma wrap_small z :
  GoInt.min_int <= z <= GoInt.max_int -> GoInt.wrap z = z.
Proof.
  intros H. unfold GoInt.wrap. change (2 ^ 63) with 9223372036854775808.
  change (2 ^ 64) with 18446744073709551616.
  rewrite Z.mod_small; int_lia.
Qed.

Lemma wrap_range z : GoInt.min_int <= GoInt.wrap z <= GoInt.max_int.
Proof.
  unfold GoInt.wrap. change (2 ^ 63) with 9223372036854775808.
  change (2 ^ 64) with 18446744073709551616.
  pose proof (Z.mod_pos_bound (z + 9223372036854775808) 18446744073709551616).
  int_lia.
Qed.

(** ** The counting loop of [parseField] *)

(** With step 1 and a bound below the largest [int], the loop appends
    the integers from [i] to [hi] and stops. *)
Lemma appendFrom_unit n : forall fuel i hi values,
  hi < GoInt.max_int -> GoInt.min_int <= i -> i <= hi + 1 ->
  n = Z.to_nat (hi + 1 - i) -> (n < fuel)%nat ->
  appendFrom fuel i hi 1 values = Ok (values ++ seqZ i (hi + 1 - i)).
Proof.
  induction n as [|n IH]; intros fuel i hi values Hhi Hlo Hi Hn Hfuel.
  - destruct fuel as [|fuel]; [lia|]. simpl.
    destruct (Z.leb_spec i hi); [lia|].
    rewrite seqZ_nil by lia. by rewrite app_nil_r.
  - destruct fuel as [|fuel]; [lia|]. simpl.
    destruct (Z.leb_spec i hi); [|lia].
    rewrite wrap_small by int_lia.
    rewrite (IH fuel (i + 1) hi (values ++ [i])) by int_lia.
    rewrite (seqZ_cons i) by lia.
    rewrite <- app_assoc. simpl. repeat f_equal; lia.
Qed.

(** With step 0 the loop never leaves a start at or below the bound. *)
Lemma appendFrom_zero_step fuel : forall i hi values,
  GoInt.min_int <= i <= hi -> hi <= GoInt.max_int ->
  appendFrom fuel i hi 0 values = OutOfFuel.
Proof.
  induction fuel as [|fuel IH]; intros i hi values Hi Hhi; [done|].
  simpl. destruct (Z.leb_spec i hi); [|lia].
  rewrite Z.add_0_r, wrap_small by int_lia. by apply IH.
Qed.

(** ** Decimal numerals *)

Lemma of_uint_acc_value u : forall acc,
  Z.pos (Pos.of_uint_acc u acc) = uintValue u (Z.pos acc).
Proof.
  induction u as [|u IH|u IH|u IH|u IH|u IH|u IH|u IH|u IH|u IH|u IH];
    intros acc; simpl; [done|..]; rewrite IH; f_equal; lia.
Qed.

Lemma of_uint_value u : Z.of_N (Pos.of_uint u) = uintValue u 0.
Proof.
  induction u as [|u IH|u IH|u IH|u IH|u IH|u IH|u IH|u IH|u IH|u IH];
    simpl; [done|exact IH|..]; apply of_uint_acc_value.
Qed.

Lemma to_uint_value p : uintValue (Pos.to_uint p) 0 = Z.pos p.
Proof. rewrite <- of_uint_value, DecimalPos.Unsigned.of_to. done. Qed.

Lemma digits_uintBytes u : forall acc,
  strconv.digits (uintBytes u) acc = Some (uintValue u acc).
Proof.
  induction u as [|u IH|u IH|u IH|u IH|u IH|u IH|u IH|u IH|u IH|u IH];
    intros acc; [done|..]; apply IH.
Qed.

Lemma isDigit_uintBytes u : forallb isDigit (uintBytes u) = true.
Proof.
  induction u as [|u IH|u IH|u IH|u IH|u IH|u IH|u IH|u IH|u IH|u IH];
    [done|..]; exact IH.
Qed.

Lemma uintBytes_nonnil u : u <> Decimal.Nil -> uintBytes u <> [].
Proof. destruct u; done. Qed.

Lemma Itoa_nonneg z : 0 <= z -> numeral (strconv.Itoa z) z.
Proof.
  intros Hz. destruct z as [|p|p]; [by repeat split| |lia].
  unfold strconv.Itoa. simpl.
  pose proof (DecimalPos.Unsigned.to_uint_nonnil p) as Hnil.
  assert (NilZero.string_of_uint (Pos.to_uint p)
          = NilEmpty.string_of_uint (Pos.to_uint p)) as ->
    by (destruct (Pos.to_uint p); done).
  split; [by apply uintBytes_nonnil|].
  split; [apply isDigit_uintBytes|].
  fold (uintBytes (Pos.to_uint p)).
  by rewrite digits_uintBytes, to_uint_value.
Qed.

Lemma Itoa_neg z :
  z < 0 -> exists ds, strconv.Itoa z = "-"%char :: ds /\ numeral ds (- z).
Proof.
  intros Hz. destruct z as [|p|p]; [lia|lia|].
  exists (strconv.Itoa (Z.pos p)). split; [done|].
  apply (Itoa_nonneg (Z.pos p)). lia.
Qed.

(** ** Splitting and [Atoi] *)

Lemma digit_not_sep c :
  isDigit c = true ->
  c <> "-"%char /\ c <> "+"%char /\ c <> "/"%char /\ c <> ","%char
  /\ c <> "*"%char.
Proof.
  destruct c as [[] [] [] [] [] [] [] []]; (discriminate || by repeat split).
Qed.

Lemma Contains_app s1 s2 c :
  strings.Contains (s1 ++ s2) c = strings.Contains s1 c || strings.Contains s2 c.
Proof.
  induction s1 as [|x s1 IH]; [done|]. simpl.
  destruct (Ascii.eqb x c); [done|exact IH].
Qed.

Lemma Contains_digits s c :
  forallb isDigit s = true -> isDigit c = false -> strings.Contains s c = false.
Proof.
  intros Hs Hc. induction s as [|x s IH]; [done|].
  simpl in *. apply andb_true_iff in Hs as [Hx Hs].
  destruct (Ascii.eqb_spec x c) as [->|_]; [congruence|by apply IH].
Qed.

Lemma Split_none s sep :
  strings.Contains s sep = false -> strings.Split s sep = [s].
Proof.
  induction s as [|x s IH]; [done|]. simpl.
  destruct (Ascii.eqb x sep); [done|]. intros H. by rewrite IH.
Qed.

Lemma Split_cons_sep s sep :
  strings.Split (sep :: s) sep = [] :: strings.Split s sep.
Proof. simpl. by rewrite Ascii.eqb_refl. Qed.

Lemma Split_app s1 s2 sep :
  strings.Contains s1 sep = false ->
  strings.Split (s1 ++ sep :: s2) sep = s1 :: strings.Split s2 sep.
Proof.
  induction s1 as [|x s1 IH]; [intros _; apply Split_cons_sep|].
  simpl. destruct (Ascii.eqb x sep); [done|]. intros H. by rewrite IH.
Qed.

Lemma Split_length s sep :
  length (strings.Split s sep) = S (List.count_occ ascii_dec s sep).
Proof.
  induction s as [|x s IH]; [done|]. simpl.
  destruct (Ascii.eqb_spec x sep) as [->|Hne].
  - destruct (ascii_dec sep sep); [|done]. simpl. by rewrite IH.
  - destruct (ascii_dec x sep); [done|].
    destruct (strings.Split s sep); simpl in *; [done|exact IH].
Qed.

Lemma Atoi_unsigned c s :
  c <> "-"%char -> c <> "+"%char ->
  strconv.Atoi (c :: s) =
    match strconv.digits (c :: s) 0 with
    | None => Err (NumError (c :: s))
    | Some n => if GoInt.in_range n then Ok n else Err (NumError (c :: s))
    end.
Proof.
  intros Hm Hp.
  destruct c as [[] [] [] [] [] [] [] []]; done.
Qed.

Lemma Atoi_numeral s v :
  numeral s v ->
  strconv.Atoi s = if GoInt.in_range v then Ok v else Err (NumError s).
Proof.
  intros (Hne & Hd & Hv). destruct s as [|c s]; [done|].
  simpl in Hd. apply andb_true_iff in Hd as [Hc _].
  apply digit_not_sep in Hc as (Hm & Hp & _).
  by rewrite Atoi_unsigned, Hv.
Qed.

Lemma Atoi_Itoa z :
  strconv.Atoi (strconv.Itoa z) =
    if GoInt.in_range z then Ok z else Err (NumError (strconv.Itoa z)).
Proof.
  destruct (Z.lt_ge_cases z 0) as [Hz|Hz].
  - destruct (Itoa_neg z Hz) as (ds & -> & Hne & Hd & Hv).
    destruct ds as [|c ds]; [done|].
    unfold strconv.Atoi. rewrite Hv. by rewrite Z.opp_involutive.
  - by apply Atoi_numeral, Itoa_nonneg.
Qed.

Lemma parseField_not_star fuel field min max :
  field <> ["*"%char] ->
  parseField fuel field min max
  = parseParts fuel (strings.Split field ",") min max [].
Proof.
  intros H. destruct field as [|c [|d r]]; [done| |].
  - destruct c as [[] [] [] [] [] [] [] []]; done.
  - destruct c as [[] [] [] [] [] [] [] []]; done.
Qed.

Lemma Contains_rangeTerm a b : strings.Contains (rangeTerm a b) "-" = true.
Proof.
  unfold rangeTerm. rewrite Contains_app. simpl. apply orb_true_r.
Qed.

Lemma Contains_numeral s v c :
  numeral s v -> isDigit c = false -> strings.Contains s c = false.
Proof. intros (_ & Hd & _). by apply Contains_digits. Qed.

(** What the loop body does on a range sub-term: a sign in either bound
    makes three pieces, a bound outside [int] fails in [Atoi], then comes
    the bounds test, and only then the counting loop. *)
Lemma parsePart_range fuel min max a b values :
  max < GoInt.max_int -> (Z.to_nat (max - min) + 1 < fuel)%nat ->
  parsePart fuel (rangeTerm a b) min max values =
    if (0 <=? a) && (0 <=? b) then
      if GoInt.in_range a then
        if GoInt.in_range b then
          if (a <? min) || (b >? max) || (a >? b)
          then Err (InvalidRangeBounds (rangeTerm a b) min max)
          else Ok (values ++ seqZ a (b - a + 1))
        else Err (NumError (strconv.Itoa b))
      else Err (NumError (strconv.Itoa a))
    else Err (InvalidRange (rangeTerm a b)).
Proof.
  intros Hmax Hfuel. unfold parsePart. rewrite Contains_rangeTerm.
  destruct (Z.leb_spec 0 a) as [Ha|Ha]; simpl andb.
  - destruct (Z.leb_spec 0 b) as [Hb|Hb].
    + pose proof (Itoa_nonneg a Ha) as Hna.
      pose proof (Itoa_nonneg b Hb) as Hnb.
      unfold rangeTerm at 1.
      rewrite Split_app by (by eapply Contains_numeral).
      rewrite Split_none by (by eapply Contains_numeral).
      rewrite !Atoi_Itoa. unfold mbind, result_bind.
      destruct (GoInt.in_range a); [|done].
      destruct (GoInt.in_range b) eqn:Hrb; [|done].
      destruct ((a <? min) || (b >? max) || (a >? b)) eqn:Htest; [done|].
      apply orb_false_iff in Htest as [Htest Hab].
      apply orb_false_iff in Htest as [Hamin Hbmax].
      unfold GoInt.in_range in Hrb.
      rewrite (appendFrom_unit (Z.to_nat (b + 1 - a))) by int_lia.
      do 3 f_equal. lia.
    + destruct (Itoa_neg b Hb) as (ds & Hds & _).
      assert (2 < length (strings.Split (rangeTerm a b) "-"))%nat as Hlen.
      { rewrite Split_length. unfold rangeTerm. rewrite Hds.
        rewrite count_occ_app. simpl. lia. }
      destruct (strings.Split (rangeTerm a b) "-") as [|p0 [|p1 [|p2 r]]];
        simpl in Hlen; try lia; done.
  - destruct (Itoa_neg a Ha) as (ds & Hds & _).
    assert (2 < length (strings.Split (rangeTerm a b) "-"))%nat as Hlen.
    { rewrite Split_length. unfold rangeTerm. rewrite Hds.
      rewrite count_occ_app. simpl. lia. }
    destruct (strings.Split (rangeTerm a b) "-") as [|p0 [|p1 [|p2 r]]];
      simpl in Hlen; try lia; done.
Qed.

Lemma rangeTerm_no_comma a b : strings.Contains (rangeTerm a b) "," = false.
Proof.
  assert (forall z, strings.Contains (strconv.Itoa z) "," = false) as H.
  { intros z. destruct (Z.lt_ge_cases z 0) as [Hz|Hz].
    - destruct (Itoa_neg z Hz) as (ds & -> & Hn). simpl.
      by eapply Contains_numeral.
    - eapply Contains_numeral; [by apply Itoa_nonneg|done]. }
  unfold rangeTerm. rewrite Contains_app. simpl. by rewrite !H.
Qed.

(** C3. A range sub-term [a-b] parsed against a declared range
    [min..max] (with [0 <= min], as all five fields have) yields exactly
    the integers from [a] to [b] when [min <= a <= b <= max], and is an
    error when [a > b], [a < min] or [b > max]. *)
Theorem parseField_range fuel min max a b :
  0 <= min -> max < GoInt.max_int ->
  (Z.to_nat (max - min) + 1 < fuel)%nat ->
  (min <= a <= b /\ b <= max ->
   parseField fuel (rangeTerm a b) min max = Ok (seqZ a (b - a + 1)))
  /\ (a > b \/ a < min \/ b > max ->
      exists e, parseField fuel (rangeTerm a b) min max = Err e).
Proof.
  intros Hmin Hmax Hfuel.
  assert (rangeTerm a b <> ["*"%char]) as Hstar.
  { intros Heq. pose proof (Contains_rangeTerm a b) as H.
    by rewrite Heq in H. }
  rewrite parseField_not_star by done.
  rewrite Split_none by apply rangeTerm_no_comma.
  unfold parseParts, mbind, result_bind.
  rewrite parsePart_range by done.
  split.
  - intros Hab.
    assert ((0 <=? a) = true) as -> by lia.
    assert ((0 <=? b) = true) as -> by lia.
    assert (GoInt.in_range a = true) as ->
      by (unfold GoInt.in_range; int_lia).
    assert (GoInt.in_range b = true) as ->
      by (unfold GoInt.in_range; int_lia).
    assert ((a <? min) || (b >? max) || (a >? b) = false) as -> by lia.
    done.
  - intros Hbad.
    destruct ((0 <=? a) && (0 <=? b)); [|by eexists].
    destruct (GoInt.in_range a); [|by eexists].
    destruct (GoInt.in_range b); [|by eexists].
    assert ((a <? min) || (b >? max) || (a >? b) = true) as -> by lia.
    by eexists.
Qed.

Lemma parseField_range_witness :
  parseField 100 (rangeTerm 10 15) 0 59 = Ok [10; 11; 12; 13; 14; 15]
  /\ exists e, parseField 100 (rangeTerm 15 10) 0 59 = Err e.
Proof.
  split.
  - apply (parseField_range 100 0 59 10 15); [lia|reflexivity|simpl; lia|lia].
  - apply (parseField_range 100 0 59 15 10); [lia|reflexivity|simpl; lia|lia].
Defined.

(** ** [ParseCron] on step terms *)

(** C9 (failing input). On ["*/0 * * * *"] the step loop of the minute
    field never ends: whatever the number of iterations allowed,
    [ParseCron] has not returned. *)
Theorem ParseCron_zero_step_diverges :
  forall fuel, ParseCron fuel "*/0 * * * *" = OutOfFuel.
Proof.
  intros fuel. unfold ParseCron.
  change (strings.Fields (list_ascii_of_string "*/0 * * * *"))
    with [list_ascii_of_string "*/0"; ["*"%char]; ["*"%char]; ["*"%char];
          ["*"%char]].
  cbv beta iota.
  assert (parseField fuel (list_ascii_of_string "*/0") 0 59 = OutOfFuel) as ->.
  { change (parseField fuel (list_ascii_of_string "*/0") 0 59)
      with (values' ← appendFrom fuel 0 59 0 []; Ok values').
    rewrite appendFrom_zero_step by int_lia. done. }
  done.
Qed.

(** C2 (failing input). ["60/5 * * * *"] has a minute field that yields
    no value, and [ParseCron] returns a [CronExpression] whose minute
    set is empty, with no error. *)
Theorem ParseCron_empty_minute :
  ParseCron 100 "60/5 * * * *"
  = Ok {| minute := []; hour := seqZ 0 24; dayOfMonth := seqZ 1 31;
          month := seqZ 1 12; dayOfWeek := seqZ 0 7 |}.
Proof. vm_compute. reflexivity. Qed.

(** ** [Next] *)

Lemma minute_val : Duration.Minute = 60000000000.
Proof. reflexivity. Qed.

Lemma candidates_cons n t :
  0 < n ->
  candidates n t = t :: candidates (n - 1) (GoTime.Add t Duration.Minute).
Proof.
  intros Hn. unfold candidates. rewrite seqZ_cons by lia. simpl.
  f_equal; [unfold GoTime.Add; lia|].
  replace (Z.succ 0) with (1 + 0) by lia.
  replace (Z.pred n) with (n - 1) by lia.
  rewrite <- fmap_add_seqZ, <- list_fmap_compose.
  apply list_fmap_ext. intros _ k _. simpl. unfold GoTime.Add. lia.
Qed.

Lemma NextFrom_find n : forall c t,
  NextFrom n c t
  = default GoTime.zero (List.find (matches c) (candidates (Z.of_nat n) t)).
Proof.
  induction n as [|n IH]; intros c t; [done|].
  rewrite candidates_cons by lia. simpl NextFrom. simpl List.find.
  destruct (matches c t); [done|].
  rewrite IH. do 3 f_equal. lia.
Qed.

Lemma Truncate_minute from :
  GoTime.Truncate from Duration.Minute <= from
    < GoTime.Add (GoTime.Truncate from Duration.Minute) Duration.Minute
  /\ GoTime.Truncate from Duration.Minute mod Duration.Minute = 0.
Proof.
  unfold GoTime.Truncate, GoTime.Add.
  change (Duration.Minute <=? 0) with false. cbv iota. rewrite minute_val.
  pose proof (Z.mod_pos_bound from 60000000000).
  split; [lia|].
  rewrite Zminus_mod, Z.mod_mod, Z.sub_diag by lia. done.
Qed.

(** C4. [Next] starts at [from] truncated to the minute plus one minute,
    which is later than [from] (so no minute at or before [from]'s own
    is tested); it tests one minute after the other, 525,600 of them at
    most, returns the first that matches and the zero time if none
    does. *)
Theorem Next_search c from :
  let start :=
    GoTime.Add (GoTime.Truncate from Duration.Minute) Duration.Minute in
  GoTime.Truncate from Duration.Minute <= from < start
  /\ GoTime.Truncate from Duration.Minute mod Duration.Minute = 0
  /\ Forall (fun t => from < t) (candidates 525600 start)
  /\ Next c from
     = default GoTime.zero
         (List.find (matches c)
            ((fun k => GoTime.Add start (k * Duration.Minute))
               <$> seqZ 0 525600)).
Proof.
  intros start. pose proof (Truncate_minute from) as [Hfrom Hmod].
  split; [done|]. split; [done|]. split.
  - unfold candidates. apply Forall_fmap, Forall_forall.
    intros k Hk. apply elem_of_seqZ in Hk. simpl.
    unfold GoTime.Add at 1. fold start in Hfrom. rewrite minute_val. lia.
  - unfold Next. fold start. rewrite NextFrom_find.
    by rewrite Z2Nat.id.
Qed.

Lemma second_val : Duration.Second = 1000000000.
Proof. reflexivity. Qed.

(** A time on a minute boundary has zero seconds and nanoseconds. *)
Lemma minute_boundary t :
  t mod Duration.Minute = 0 ->
  GoTime.Second t = 0 /\ GoTime.Nanosecond t = 0.
Proof.
  rewrite minute_val. intros Ht.
  apply Z.mod_divide in Ht as [q ->]; [|lia].
  unfold GoTime.Second, GoTime.Nanosecond, GoTime.secOfDay,
    GoTime.secondsPerDay.
  rewrite second_val. split.
  - replace (q * 60000000000) with (q * 60 * 1000000000) by lia.
    rewrite Z.div_mul by lia.
    rewrite Z.mod_mod_divide by (by exists 1440).
    by rewrite Z.mod_mul.
  - replace (q * 60000000000) with (q * 60 * 1000000000) by lia.
    by rewrite Z.mod_mul.
Qed.

Lemma candidates_elem n t u :
  u ∈ candidates n t ->
  exists k, 0 <= k < n /\ u = GoTime.Add t (k * Duration.Minute).
Proof.
  unfold candidates. intros Hu. apply list_elem_of_fmap in Hu as (k & -> & Hk).
  apply elem_of_seqZ in Hk. exists k. split; [lia|done].
Qed.

(** C1 (amended). For a cron string that [ParseCron] accepts and a time
    [t], [Next] returns either the zero time, and then none of the
    525,600 minutes after [t]'s own is due, or a time later than [t], on
    a minute boundary, at which [IsDue] holds. *)
Theorem Next_due_or_zero fuel expr c t :
  ParseCron fuel expr = Ok c ->
  let start :=
    GoTime.Add (GoTime.Truncate t Duration.Minute) Duration.Minute in
  (Next c t = GoTime.zero
   /\ forall k, 0 <= k < 525600 ->
        IsDue c (GoTime.Add start (k * Duration.Minute)) = false)
  \/ (t < Next c t
      /\ GoTime.Second (Next c t) = 0
      /\ GoTime.Nanosecond (Next c t) = 0
      /\ IsDue c (Next c t) = true).
Proof.
  intros _ start.
  pose proof (Truncate_minute t) as [Ht Hmod]. fold start in Ht.
  unfold Next. fold start. rewrite NextFrom_find, Z2Nat.id by done.
  change maxIterations with 525600.
  assert (forall k, GoTime.Second (GoTime.Add start (k * Duration.Minute)) = 0
                    /\ GoTime.Nanosecond
                         (GoTime.Add start (k * Duration.Minute)) = 0)
    as aligned.
  { intros k. apply minute_boundary. unfold start, GoTime.Add.
    replace (GoTime.Truncate t Duration.Minute + Duration.Minute
             + k * Duration.Minute)
      with (GoTime.Truncate t Duration.Minute + (k + 1) * Duration.Minute)
      by ring.
    rewrite Z.mod_add by done. exact Hmod. }
  destruct (List.find (matches c) (candidates 525600 start)) as [u|] eqn:Hfind.
  - right. apply List.find_some in Hfind as [Hin Hdue].
    apply list_elem_of_In, candidates_elem in Hin as (k & Hk & ->).
    simpl default. split; [|split; [|split]]; [| | |exact Hdue].
    + unfold GoTime.Add at 1. rewrite minute_val. lia.
    + apply (aligned k).
    + apply (aligned k).
  - left. split; [done|]. intros k Hk.
    apply (List.find_none _ _ Hfind). apply list_elem_of_In.
    unfold candidates. apply list_elem_of_fmap. exists k.
    split; [done|]. apply elem_of_seqZ. lia.
Qed.

Lemma Next_due_or_zero_witness :
  let c := {| minute := [0]; hour := [8]; dayOfMonth := seqZ 1 31;
              month := seqZ 1 12; dayOfWeek := seqZ 0 7 |} in
  let t := GoTime.Date 2024 1 1 12 0 0 in
  let start :=
    GoTime.Add (GoTime.Truncate t Duration.Minute) Duration.Minute in
  (Next c t = GoTime.zero
   /\ forall k, 0 <= k < 525600 ->
        IsDue c (GoTime.Add start (k * Duration.Minute)) = false)
  \/ (t < Next c t
      /\ GoTime.Second (Next c t) = 0
      /\ GoTime.Nanosecond (Next c t) = 0
      /\ IsDue c (Next c t) = true).
Proof.
  intros c t. apply (Next_due_or_zero 100 "0 8 * * *" c t).
  vm_compute. reflexivity.
Defined.

(** The spec's worked examples of [Next]. *)
Example Next_every_minute :
  (c ← ParseCron 100 "* * * * *"; Ok (Next c (GoTime.Date 2024 1 1 12 0 0)))
  = Ok (GoTime.Date 2024 1 1 12 1 0).
Proof. vm_compute. reflexivity. Qed.

Example Next_hourly :
  (c ← ParseCron 100 "0 * * * *"; Ok (Next c (GoTime.Date 2024 1 1 12 30 0)))
  = Ok (GoTime.Date 2024 1 1 13 0 0).
Proof. vm_compute. reflexivity. Qed.

Example Next_daily_at_eight :
  (c ← ParseCron 100 "0 8 * * *"; Ok (Next c (GoTime.Date 2024 1 1 12 0 0)))
  = Ok (GoTime.Date 2024 1 2 8 0 0).
Proof. vm_compute. reflexivity. Qed.

(** No date is a February 30 or 31. *)
Lemma monthDay_february year yday dd :
  GoTime.monthDay year yday = (2, dd) -> dd <= 29.
Proof.
  unfold GoTime.monthDay.
  destruct (GoTime.isLeap year && (yday =? 31 + 29 - 1)); [intros [= <-]; lia|].
  set (day := if GoTime.isLeap year && (yday >? 31 + 29 - 1)
              then yday - 1 else yday).
  destruct (day >=? nth (Z.to_nat (day / 31 + 1)) GoTime.daysBefore 0) eqn:Hge;
    intros [= Hm Hd].
  - assert (day / 31 = 0) as H0 by lia. rewrite H0 in Hge. simpl in Hge.
    apply Z.div_small_iff in H0 as [H0|H0]; lia.
  - assert (day / 31 = 1) as H1 by lia. rewrite H1 in Hge, Hd.
    simpl in Hge, Hd. lia.
Qed.

Lemma Day_in_february t : GoTime.Month t = 2 -> GoTime.Day t <= 29.
Proof.
  unfold GoTime.Month, GoTime.Day, GoTime.absDate.
  destruct (GoTime.absYearDay (GoTime.days t)) as [year yday]. simpl.
  destruct (GoTime.monthDay year yday) as [m dd] eqn:Hmd. simpl.
  intros ->. by eapply monthDay_february.
Qed.

Lemma contains_In slice value : contains slice value = true <-> In value slice.
Proof.
  induction slice as [|v rest IH]; simpl; [split; [done|tauto]|].
  destruct (Z.eqb_spec v value) as [->|Hne]; [tauto|].
  rewrite IH. split; [tauto|]. by intros [?|?].
Qed.

(** C1 (counterexample). ["0 0 31 2 *"] is accepted, and no minute ever
    matches it, so [Next] from noon of January 1, 2024 returns the zero
    time: that is not later than the time given, and [IsDue] is false
    at it. *)
Lemma Next_february_31 :
  exists c, ParseCron 100 "0 0 31 2 *" = Ok c
    /\ Next c (GoTime.Date 2024 1 1 12 0 0) = GoTime.zero
    /\ ~ GoTime.Date 2024 1 1 12 0 0 < Next c (GoTime.Date 2024 1 1 12 0 0)
    /\ IsDue c (Next c (GoTime.Date 2024 1 1 12 0 0)) = false.
Proof.
  eexists. split; [vm_compute; reflexivity|].
  set (c := {| minute := _ |}).
  assert (forall t, matches c t = false) as Hnever.
  { intros t. unfold matches.
    destruct (contains (minute c) _); [|done].
    destruct (contains (hour c) _); [|done].
    destruct (contains (dayOfMonth c) _) eqn:Hd; [|done].
    destruct (contains (month c) _) eqn:Hm; [|done].
    apply contains_In in Hd, Hm. simpl in Hd, Hm.
    pose proof (Day_in_february t). lia. }
  assert (Next c (GoTime.Date 2024 1 1 12 0 0) = GoTime.zero) as Hz.
  { unfold Next. generalize (Z.to_nat maxIterations).
    generalize (GoTime.Add
                  (GoTime.Truncate (GoTime.Date 2024 1 1 12 0 0)
                     Duration.Minute) Duration.Minute).
    intros t n. revert t.
    induction n as [|n IH]; intros t; simpl; [done|].
    by rewrite Hnever. }
  rewrite Hz. clear Hz. split; [reflexivity|]. split; [|apply Hnever].
  vm_compute. discriminate.
Qed.

(** ** The execution log *)

Section AddLog.

Import Scheduler.

(** One call: the new entry goes to the back, and what exceeds
    [maxLogSize] leaves from the front. *)
Lemma addLog_step s e :
  0 <= maxLogSize s ->
  Z.of_nat (length (logs s)) < GoInt.max_int ->
  addLog s e
  = Some {| logs := drop (length (logs s) + 1 - Z.to_nat (maxLogSize s))
                         (logs s ++ [e]);
            maxLogSize := maxLogSize s |}.
Proof.
  intros Hm Hlen. unfold addLog.
  assert (length (logs s ++ [e]) = (length (logs s) + 1)%nat) as Hl
    by (rewrite length_app; simpl; lia).
  rewrite Hl.
  destruct (Z.gtb_spec (Z.of_nat (length (logs s) + 1)) (maxLogSize s)).
  - rewrite wrap_small by int_lia. unfold sliceFrom.
    rewrite Hl.
    destruct (Z.leb_spec 0 (Z.of_nat (length (logs s) + 1) - maxLogSize s));
      [|lia].
    destruct (Z.leb_spec (Z.of_nat (length (logs s) + 1) - maxLogSize s)
                (Z.of_nat (length (logs s) + 1))); [|lia].
    simpl. do 3 f_equal. lia.
  - do 2 f_equal.
    replace (length (logs s) + 1 - Z.to_nat (maxLogSize s))%nat with 0%nat
      by lia.
    done.
Qed.

Lemma addLogs_from s entries :
  0 <= maxLogSize s < GoInt.max_int ->
  Z.of_nat (length (logs s)) <= maxLogSize s ->
  addLogs s entries
  = Some {| logs := drop (length (logs s ++ entries)
                          - Z.to_nat (maxLogSize s))
                         (logs s ++ entries);
            maxLogSize := maxLogSize s |}.
Proof.
  revert s. induction entries as [|e rest IH]; intros s Hm Hlen.
  - simpl. rewrite app_nil_r.
    replace (length (logs s) - Z.to_nat (maxLogSize s))%nat with 0%nat by lia.
    by destruct s.
  - simpl. rewrite addLog_step by lia. simpl.
    set (k := (length (logs s) + 1 - Z.to_nat (maxLogSize s))%nat).
    assert (length (drop k (logs s ++ [e]))
            = (length (logs s) + 1 - k)%nat) as Hdrop
      by (rewrite length_drop, length_app; simpl; lia).
    rewrite IH; simpl; [|lia|lia].
    assert (drop k (logs s ++ [e]) ++ rest = drop k (logs s ++ e :: rest))
      as Heq.
    { rewrite <- drop_app_le by (rewrite length_app; simpl; lia).
      by rewrite <- app_assoc. }
    rewrite Heq, drop_drop. do 2 f_equal.
    rewrite length_drop, !length_app. simpl. subst k. f_equal. lia.
Qed.

(** C7. However many entries are logged, starting from an empty log
    with a maximum of [m] entries ([NewScheduler] has [m = 1000]),
    every [addLog] succeeds and the log then holds exactly the last [m]
    entries logged, in the order they were logged: it never exceeds
    [m], and what was dropped is the oldest entries. *)
Theorem addLog_bounded m entries :
  0 <= m < GoInt.max_int ->
  exists s,
    addLogs {| logs := []; maxLogSize := m |} entries = Some s
    /\ maxLogSize s = m
    /\ Z.of_nat (length (logs s)) <= m
    /\ length (logs s) = Nat.min (length entries) (Z.to_nat m)
    /\ entries = take (length entries - Z.to_nat m) entries ++ logs s.
Proof.
  intros Hm. eexists. split.
  - rewrite addLogs_from; simpl; [reflexivity|lia|lia].
  - simpl. rewrite length_drop, take_drop. split; [done|].
    split; [lia|]. split; [lia|done].
Qed.

End AddLog.

Lemma addLog_bounded_witness :
  let e1 := {| Scheduler.TaskID := "task_1"; Scheduler.TaskName := "backup";
               Scheduler.StartTime := GoTime.Date 2024 1 1 12 0 0;
               Scheduler.EndTime := GoTime.Date 2024 1 1 12 0 1;
               Scheduler.Duration := Duration.Second;
               Scheduler.Success := true; Scheduler.Error := "" |} in
  let e2 := {| Scheduler.TaskID := "task_1"; Scheduler.TaskName := "backup";
               Scheduler.StartTime := GoTime.Date 2024 1 1 12 1 0;
               Scheduler.EndTime := GoTime.Date 2024 1 1 12 1 2;
               Scheduler.Duration := 2 * Duration.Second;
               Scheduler.Success := false; Scheduler.Error := "disk full" |} in
  exists s,
    Scheduler.addLogs Scheduler.NewScheduler [e1; e2] = Some s
    /\ Scheduler.maxLogSize s = 1000
    /\ Z.of_nat (length (Scheduler.logs s)) <= 1000
    /\ length (Scheduler.logs s) = Nat.min 2 (Z.to_nat 1000)
    /\ [e1; e2]
       = take (2 - Z.to_nat 1000) [e1; e2] ++ Scheduler.logs s.
Proof.
  intros e1 e2. apply (addLog_bounded 1000 [e1; e2]).
  split; [lia|reflexivity].
Defined.

(** ** The token bucket *)



Section TokenBucketFacts.

Import TokenBucket.



End TokenBucketFacts.

(** ** Quota invariants of the three limiters *)


Section TokenBucketInvariant.

Import TokenBucket.





End TokenBucketInvariant.

Section SlidingWindowInvariant.

Import SlidingWindow.

Lemma validRequests_le sw key now :
  0 <= limit sw -> requestsWithinLimit sw ->
  Z.of_nat (length (validRequests sw key now)) <= limit sw.
Proof.
  intros Hl Hinv. unfold validRequests.
  etransitivity; [apply inj_le, List.filter_length_le|].
  destruct (windows sw !! key) as [rs|] eqn:Hk; simpl; [by eapply Hinv|lia].
Qed.

Lemma AllowN_requestsWithinLimit sw key n now :
  0 <= limit sw -> GoInt.min_int <= n <= GoInt.max_int - limit sw ->
  requestsWithinLimit sw ->
  requestsWithinLimit (snd (AllowN sw key n now)).
Proof.
  intros Hl Hn Hinv k rs.
  pose proof (validRequests_le sw key now Hl Hinv) as Hvalid.
  unfold AllowN. rewrite wrap_small by int_lia.
  destruct (Z.leb_spec (Z.of_nat (length (validRequests sw key now)) + n)
              (limit sw)); simpl;
    (destruct (decide (key = k)) as [->|Hne];
     [rewrite lookup_insert_eq; intros [= <-]
     |rewrite lookup_insert_ne by done; apply Hinv]); [|done].
  rewrite length_app, repeat_length. lia.
Qed.

Lemma perform_requestsWithinLimit sw c :
  0 <= limit sw ->
  (forall n, amount c = Some n ->
     GoInt.min_int <= n <= GoInt.max_int - limit sw) ->
  requestsWithinLimit sw -> requestsWithinLimit (perform sw c).
Proof.
  intros Hl Hn Hinv. destruct c as [key now|key n now|key|now]; simpl.
  - unfold Allow.
    apply (AllowN_requestsWithinLimit sw key 1 now); [done|by apply Hn|done].
  - apply (AllowN_requestsWithinLimit sw key n now); [done|by apply Hn|done].
  - intros k rs. simpl. intros Hk. apply lookup_delete_Some in Hk as [_ Hk].
    by eapply Hinv.
  - intros k rs. simpl. intros Hk. apply map_lookup_filter_Some in Hk as [Hk _].
    by eapply Hinv.
Qed.

Lemma perform_limit sw c : limit (perform sw c) = limit sw.
Proof. destruct c; simpl; unfold Allow, AllowN; try done;
  by destruct (_ <=? _). Qed.

Lemma run_requestsWithinLimit calls : forall sw,
  0 <= limit sw -> boundedAmounts (limit sw) calls = true ->
  requestsWithinLimit sw -> requestsWithinLimit (run sw calls).
Proof.
  induction calls as [|c calls IH]; intros sw Hl Hcalls Hinv; [done|].
  simpl in Hcalls. apply andb_true_iff in Hcalls as [Hc Hcalls].
  simpl. apply IH; rewrite ?perform_limit; [done|done|].
  apply perform_requestsWithinLimit; [done| |done].
  intros n Hn. rewrite Hn in Hc. lia.
Qed.

End SlidingWindowInvariant.

Section FixedWindowInvariant.

Import FixedWindow.




Lemma perform_limit_fixed fw c : limit (perform fw c) = limit fw.
Proof. destruct c; simpl; unfold Allow, AllowN; try done;
  by destruct (_ <=? _). Qed.


End FixedWindowInvariant.


Lemma run_limit_sliding calls : forall sw,
  SlidingWindow.limit (SlidingWindow.run sw calls) = SlidingWindow.limit sw.
Proof.
  induction calls as [|c calls IH]; intros sw; [done|].
  simpl. by rewrite IH, perform_limit.
Qed.





(** ** Calls that ask for nothing or less *)

Lemma nondecreasing_cons t ts :
  nondecreasing (t :: ts) = true ->
  nondecreasing ts = true /\ match ts with [] => True | u :: _ => t <= u end.
Proof.
  destruct ts as [|u ts]; [done|]. simpl.
  intros H. apply andb_true_iff in H as [Htu H]. split; [done|lia].
Qed.

Lemma nondecreasing_hd d ts :
  nondecreasing ts = true -> nondecreasing (hd d ts :: ts) = true.
Proof.
  destruct ts as [|u ts]; [done|]. intros H. simpl hd.
  change (((u <=? u) && nondecreasing (u :: ts)) = true).
  rewrite H. rewrite Z.leb_refl. done.
Qed.

Section TokenBucketNonNegative.

Import TokenBucket.

Lemma solvent_mono T T' tb : T <= T' -> solvent T tb -> solvent T' tb.
Proof.
  intros HT Hs key b Hk. destruct (Hs key b Hk). split; [done|lia].
Qed.






End TokenBucketNonNegative.




(** ** No two runs of one task at a time *)

Section RunTaskFacts.

Import RunTask.

Lemma count_insert f gs : forall i p p',
  gs !! i = Some p ->
  (count f (<[i := p']> gs) + b2n (f p) = count f gs + b2n (f p'))%nat.
Proof.
  unfold count.
  induction gs as [|q gs IH]; intros i p p' Hi; [done|].
  destruct i as [|i]; simpl in *.
  - injection Hi as ->. destruct (f p), (f p'); simpl; lia.
  - specialize (IH i p p' Hi). destruct (f q); simpl; lia.
Qed.

Lemma count_app f gs p :
  count f (gs ++ [p]) = (count f gs + b2n (f p))%nat.
Proof.
  unfold count. rewrite List.filter_app, length_app. simpl.
  by destruct (f p).
Qed.

Lemma count_le f g gs :
  (forall p, f p = true -> g p = true) -> (count f gs <= count g gs)%nat.
Proof.
  intros Hfg. unfold count.
  induction gs as [|q gs IH]; simpl; [done|].
  destruct (f q) eqn:Hf; [rewrite (Hfg q Hf); simpl; lia|].
  destruct (g q); simpl; lia.
Qed.

Lemma count_pos f gs i p :
  gs !! i = Some p -> f p = true -> (0 < count f gs)%nat.
Proof.
  unfold count. revert i.
  induction gs as [|q gs IH]; intros i Hi Hf; [done|].
  destruct i as [|i]; simpl in *.
  - injection Hi as ->. rewrite Hf. simpl. lia.
  - specialize (IH i Hi Hf). destruct (f q); simpl; lia.
Qed.

(** At most one element satisfies [f]: two positions that do are one. *)
Lemma count_unique f gs : forall i j p q,
  (count f gs <= 1)%nat ->
  gs !! i = Some p -> gs !! j = Some q -> f p = true -> f q = true -> i = j.
Proof.
  induction gs as [|r gs IH]; intros i j p q Hc Hi Hj Hp Hq; [done|].
  unfold count in Hc. simpl in Hc.
  destruct i as [|i], j as [|j]; simpl in *; [done| | |].
  - injection Hi as ->. rewrite Hp in Hc. simpl in Hc.
    pose proof (count_pos f gs j q Hj Hq). unfold count in *. lia.
  - injection Hj as ->. rewrite Hq in Hc. simpl in Hc.
    pose proof (count_pos f gs i p Hi Hp). unfold count in *. lia.
  - f_equal. apply (IH i j p q); try done.
    unfold count. destruct (f r); simpl in Hc; lia.
Qed.

Lemma invariant_init : invariant init.
Proof. split; simpl; [done|done|unfold count; simpl; lia]. Qed.

Lemma invariant_spawn s tk rd :
  invariant s ->
  invariant {| IsRunning := IsRunning s; writer := writer s; readers := rd;
               tick := tk; goroutines := goroutines s ++ [AtLock] |}.
Proof.
  intros [H1 H2 H3]. split; simpl; rewrite count_app; simpl.
  - by rewrite Nat.add_0_r.
  - by rewrite Nat.add_0_r.
  - rewrite Nat.add_0_r. exact H3.
Qed.

Lemma invariant_same_goroutines s tk rd :
  invariant s ->
  invariant {| IsRunning := IsRunning s; writer := writer s; readers := rd;
               tick := tk; goroutines := goroutines s |}.
Proof. intros [H1 H2 H3]. by split. Qed.

Lemma invariant_exec s ev s' : invariant s -> exec s ev = Some s' -> invariant s'.
Proof.
  intros Hinv Hexec. destruct ev as [i| |due]; simpl in Hexec.
  - destruct (goroutines s !! i) as [p|] eqn:Hi; [|done]. simpl in Hexec.
    destruct (advance p s) as [[[p' r] w]|] eqn:Hadv; [|done].
    simpl in Hexec. injection Hexec as <-.
    destruct Hinv as [H1 H2 H3].
    pose proof (count_insert holdsLock _ i p p' Hi) as C1.
    pose proof (count_insert inFlight _ i p p' Hi) as C2.
    pose proof (count_insert isAtSet _ i p p' Hi) as C3.
    pose proof (count_le isAtSet holdsLock (goroutines s)
                  ltac:(by intros []) ) as C4.
    pose proof (count_pos holdsLock _ i p Hi) as P1.
    pose proof (count_pos inFlight _ i p Hi) as P2.
    pose proof (count_pos isAtSet _ i p Hi) as P3.
    unfold advance in Hadv.
    destruct p; simpl in *;
      repeat match type of Hadv with
             | context [if ?b then _ else _] => destruct b eqn:?
             end;
      try discriminate; injection Hadv as <- <- <-;
      destruct (writer s) eqn:Hw, (IsRunning s) eqn:Hr; simpl in *;
      split; simpl; try lia; try done;
      try (intros ?; specialize (H3 ltac:(lia)); done);
      try (specialize (P1 eq_refl); lia);
      try (specialize (P2 eq_refl); lia);
      try (specialize (H3 (P3 eq_refl)); done).
  - injection Hexec as <-. by apply invariant_spawn.
  - destruct (tick s) as [| |go|go].
    + destruct (writer s) eqn:Hw; [done|]. injection Hexec as <-.
      rewrite <- Hw. by apply invariant_same_goroutines.
    + injection Hexec as <-. by apply invariant_same_goroutines.
    + injection Hexec as <-. by apply invariant_same_goroutines.
    + injection Hexec as <-. destruct go;
        [by apply invariant_spawn|by apply invariant_same_goroutines].
Qed.

Lemma invariant_execs evs : forall s s',
  invariant s -> execs s evs = Some s' -> invariant s'.
Proof.
  induction evs as [|ev evs IH]; intros s s' Hinv Hexecs; simpl in Hexecs.
  - by injection Hexecs as <-.
  - destruct (exec s ev) as [s1|] eqn:Hexec; [|done]. simpl in Hexecs.
    eapply IH; [|exact Hexecs]. by eapply invariant_exec.
Qed.

(** C8. In every state that an interleaving of goroutine statements,
    [RunNow] calls and tick-loop statements leads to, at most one
    goroutine has a run of the task in flight (flag set by it and not
    yet cleared), so at most one executes the handler; and while one
    has, the flag is set, so that any other goroutine that reaches the
    check under the lock takes the branch that unlocks and returns
    without calling the handler. *)
Theorem runTask_no_overlap evs s :
  execs init evs = Some s ->
  (forall i j p q,
     goroutines s !! i = Some p -> goroutines s !! j = Some q ->
     inFlight p = true -> inFlight q = true -> i = j)
  /\ (forall i j,
        goroutines s !! i = Some InHandler ->
        goroutines s !! j = Some InHandler -> i = j)
  /\ (forall i p,
        goroutines s !! i = Some p -> inFlight p = true ->
        IsRunning s = true
        /\ advance AtCheck s = Some (AtSkipUnlock, true, writer s)
        /\ advance AtSkipUnlock s = Some (Returned false, true, false)).
Proof.
  intros Hexecs.
  destruct (invariant_execs evs init s invariant_init Hexecs) as [H1 H2 H3].
  assert (count inFlight (goroutines s) <= 1)%nat as Hone
    by (rewrite H2; destruct (IsRunning s); simpl; lia).
  split; [|split].
  - intros i j p q Hi Hj Hp Hq. by eapply (count_unique inFlight).
  - intros i j Hi Hj. by eapply (count_unique inFlight).
  - intros i p Hi Hp. pose proof (count_pos inFlight _ i p Hi Hp) as Hpos.
    rewrite H2 in Hpos. unfold advance.
    destruct (IsRunning s); simpl in Hpos; [done|lia].
Qed.

End RunTaskFacts.

Lemma runTask_no_overlap_witness :
  exists s,
    RunTask.execs RunTask.init
      [RunTask.RunNow; RunTask.Run 0; RunTask.Run 0; RunTask.Run 0;
       RunTask.Run 0; RunTask.RunNow; RunTask.Run 1; RunTask.Run 1] = Some s
    /\ RunTask.goroutines s = [RunTask.InHandler; RunTask.AtSkipUnlock]
    /\ (forall i j p q,
          RunTask.goroutines s !! i = Some p ->
          RunTask.goroutines s !! j = Some q ->
          RunTask.inFlight p = true -> RunTask.inFlight q = true -> i = j)
    /\ (forall i j,
          RunTask.goroutines s !! i = Some RunTask.InHandler ->
          RunTask.goroutines s !! j = Some RunTask.InHandler -> i = j)
    /\ (forall i p,
          RunTask.goroutines s !! i = Some p -> RunTask.inFlight p = true ->
          RunTask.IsRunning s = true
          /\ RunTask.advance RunTask.AtCheck s
             = Some (RunTask.AtSkipUnlock, true, RunTask.writer s)
          /\ RunTask.advance RunTask.AtSkipUnlock s
             = Some (RunTask.Returned false, true, false)).
Proof.
  eexists. split; [vm_compute; reflexivity|]. split; [reflexivity|].
  apply (runTask_no_overlap
           [RunTask.RunNow; RunTask.Run 0; RunTask.Run 0; RunTask.Run 0;
            RunTask.Run 0; RunTask.RunNow; RunTask.Run 1; RunTask.Run 1]).
  reflexivity.
Defined.

(** ** The cases of the repository's tests and of the spec *)

Example ParseCron_minute_out_of_range :
  ParseCron 100 "60 * * * *"
  = Err (InvalidField "minute" (ValueOutOfRange 60 0 59)).
Proof. vm_compute. reflexivity. Qed.

Example ParseCron_four_fields :
  ParseCron 100 "* * * *" = Err (FieldCount 4).
Proof. vm_compute. reflexivity. Qed.

Example ParseCron_duplicates_kept :
  parseField 100 (list_ascii_of_string "1,1-3") 0 59 = Ok [1; 1; 2; 3].
Proof. vm_compute. reflexivity. Qed.

(** TestTokenBucket_AllowN: rate 10, capacity 20; 5 and 10 are granted,
    a further 10 is not. *)
Example TokenBucket_AllowN_test :
  let t := GoTime.Date 2024 1 1 12 0 0 in
  let tb0 := TokenBucket.NewTokenBucket 10 20 in
  let r1 := TokenBucket.AllowN tb0 "test_user" 5 t t in
  let r2 := TokenBucket.AllowN (snd r1) "test_user" 10 t t in
  let r3 := TokenBucket.AllowN (snd r2) "test_user" 10 t t in
  (fst r1, fst r2, fst r3) = (true, true, false).
Proof. vm_compute. reflexivity. Qed.

(** TestTokenBucket_Allow: rate 5, capacity 10; ten requests pass, the
    eleventh does not, and 200ms later one more does. *)
Example TokenBucket_Allow_test :
  let t := GoTime.Date 2024 1 1 12 0 0 in
  let ten := repeat (TokenBucket.CallAllow "test_user" t t) 10 in
  let tb := TokenBucket.run (TokenBucket.NewTokenBucket 5 10) ten in
  let r11 := TokenBucket.Allow tb "test_user" t t in
  let later := GoTime.Add t (200 * Duration.Millisecond) in
  let r12 := TokenBucket.Allow (snd r11) "test_user" later later in
  (fst r11, fst r12) = (false, true).
Proof. vm_compute. reflexivity. Qed.

(** TestSlidingWindow_AllowN: limit 10; 5 and 3 are granted, a further 5
    is not. *)
Example SlidingWindow_AllowN_test :
  let t := GoTime.Date 2024 1 1 12 0 0 in
  let sw0 := SlidingWindow.NewSlidingWindow 10 (2 * Duration.Second) in
  let r1 := SlidingWindow.AllowN sw0 "test_user" 5 t in
  let r2 := SlidingWindow.AllowN (snd r1) "test_user" 3 t in
  let r3 := SlidingWindow.AllowN (snd r2) "test_user" 5 t in
  (fst r1, fst r2, fst r3) = (true, true, false).
Proof. vm_compute. reflexivity. Qed.

(** TestFixedWindow_AllowN: limit 10; 6 and 4 are granted, one more is
    not; after the window's deadline it is. *)
Example FixedWindow_AllowN_test :
  let t := GoTime.Date 2024 1 1 12 0 0 in
  let fw0 := FixedWindow.NewFixedWindow 10 (2 * Duration.Second) in
  let r1 := FixedWindow.AllowN fw0 "test_user" 6 t t in
  let r2 := FixedWindow.AllowN (snd r1) "test_user" 4 t t in
  let r3 := FixedWindow.AllowN (snd r2) "test_user" 1 t t in
  let later := GoTime.Add t (2100 * Duration.Millisecond) in
  let r4 := FixedWindow.AllowN (snd r3) "test_user" 1 later later in
  (fst r1, fst r2, fst r3, fst r4) = (true, true, false, true).
Proof. vm_compute. reflexivity. Qed.

(** TestTokenBucket_Reset: a key that is reset starts again from a full
    bucket. *)
Example TokenBucket_Reset_test :
  let t := GoTime.Date 2024 1 1 12 0 0 in
  let five := repeat (TokenBucket.CallAllow "test_user" t t) 5 in
  let tb := TokenBucket.run (TokenBucket.NewTokenBucket 2 5) five in
  let before := TokenBucket.Allow tb "test_user" t t in
  let after :=
    TokenBucket.Allow (TokenBucket.Reset (snd before) "test_user")
      "test_user" t t in
  (fst before, fst after) = (false, true).
Proof. vm_compute. reflexivity. Qed.

(** ** Single values *)

Lemma Itoa_not_star z : strconv.Itoa z <> ["*"%char].
Proof.
  destruct (Z.lt_ge_cases z 0) as [Hz|Hz].
  - destruct (Itoa_neg z Hz) as (ds & -> & _). done.
  - destruct (Itoa_nonneg z Hz) as (_ & Hd & _). intros Heq.
    rewrite Heq in Hd. done.
Qed.

Lemma Itoa_no_comma z : strings.Contains (strconv.Itoa z) "," = false.
Proof.
  destruct (Z.lt_ge_cases z 0) as [Hz|Hz].
  - destruct (Itoa_neg z Hz) as (ds & -> & Hn). simpl.
    by eapply Contains_numeral.
  - eapply Contains_numeral; [by apply Itoa_nonneg|done].
Qed.

(** X1. A field that is one integer [v] in decimal yields exactly [v]
    when [v] lies in the declared range, and is an error otherwise;
    the loop bound plays no part. *)
Theorem parseField_single fuel min max v :
  0 <= min -> max <= GoInt.max_int ->
  (min <= v <= max -> parseField fuel (strconv.Itoa v) min max = Ok [v])
  /\ (v < min \/ v > max ->
      exists e, parseField fuel (strconv.Itoa v) min max = Err e).
Proof.
  intros Hmin Hmax.
  rewrite parseField_not_star by apply Itoa_not_star.
  rewrite Split_none by apply Itoa_no_comma.
  unfold parseParts, parsePart, mbind, result_bind.
  destruct (Z.lt_ge_cases v 0) as [Hv|Hv].
  - destruct (Itoa_neg v Hv) as (ds & Hds & Hn). rewrite Hds.
    assert (strings.Contains ds "-" = false) as Hc
      by (by eapply Contains_numeral).
    change (strings.Contains ("-"%char :: ds) "-") with true. cbv iota.
    rewrite Split_cons_sep, Split_none by done.
    split; [lia|]. intros _. by eexists.
  - pose proof (Itoa_nonneg v Hv) as Hn.
    rewrite (Contains_numeral _ v "-"), (Contains_numeral _ v "/") by done.
    rewrite Atoi_Itoa. unfold GoInt.in_range.
    split.
    + intros Hr.
      assert ((GoInt.min_int <=? v) && (v <=? GoInt.max_int) = true) as ->
        by int_lia.
      assert ((v <? min) || (v >? max) = false) as -> by lia.
      done.
    + intros Hr.
      destruct ((GoInt.min_int <=? v) && (v <=? GoInt.max_int)); [|by eexists].
      assert ((v <? min) || (v >? max) = true) as -> by lia.
      by eexists.
Qed.

Lemma parseField_single_witness :
  parseField 0 (strconv.Itoa 8) 0 23 = Ok [8]
  /\ exists e, parseField 0 (strconv.Itoa 24) 0 23 = Err e.
Proof.
  split.
  - apply (parseField_single 0 0 23 8); [lia|vm_compute; discriminate|lia].
  - apply (parseField_single 0 0 23 24); [lia|vm_compute; discriminate|lia].
Defined.

(** ** Step terms *)

Lemma stepValues_cons start step hi :
  1 <= step -> start <= hi ->
  stepValues start step hi = start :: stepValues (start + step) step hi.
Proof.
  intros Hs Hle. unfold stepValues.
  destruct (Z.leb_spec start hi); [|lia].
  assert (0 <= (hi - start) / step) by (apply Z.div_pos; lia).
  rewrite seqZ_cons by lia. simpl. f_equal; [lia|].
  replace (Z.succ 0) with (1 + 0) by lia.
  rewrite <- fmap_add_seqZ, <- list_fmap_compose.
  replace (Z.pred ((hi - start) / step + 1))
    with (if start + step <=? hi then (hi - (start + step)) / step + 1 else 0).
  - apply list_fmap_ext. intros _ k _. simpl. lia.
  - destruct (Z.leb_spec (start + step) hi).
    + replace (hi - start) with (hi - (start + step) + 1 * step) by lia.
      rewrite Z.div_add by lia. lia.
    + rewrite Z.div_small by lia. lia.
Qed.

Lemma stepValues_nil start step hi : hi < start -> stepValues start step hi = [].
Proof.
  intros H. unfold stepValues. destruct (Z.leb_spec start hi); [lia|done].
Qed.

Lemma appendFrom_step cnt : forall fuel i hi step values,
  1 <= step -> hi + step <= GoInt.max_int -> GoInt.min_int <= i ->
  cnt = length (stepValues i step hi) -> (cnt < fuel)%nat ->
  appendFrom fuel i hi step values = Ok (values ++ stepValues i step hi).
Proof.
  induction cnt as [|cnt IH]; intros fuel i hi step values Hs Hhi Hlo Hc Hf.
  - destruct fuel as [|fuel]; [lia|]. simpl.
    destruct (Z.leb_spec i hi) as [Hle|Hgt].
    + rewrite stepValues_cons in Hc by lia. done.
    + rewrite stepValues_nil by lia. by rewrite app_nil_r.
  - destruct fuel as [|fuel]; [lia|]. simpl.
    destruct (Z.leb_spec i hi) as [Hle|Hgt].
    + rewrite stepValues_cons in Hc |- * by lia. simpl in Hc.
      rewrite wrap_small by int_lia.
      rewrite (IH fuel (i + step) hi step) by int_lia.
      by rewrite <- app_assoc.
    + rewrite stepValues_nil in Hc by lia. done.
Qed.

Lemma Contains_Itoa_nonneg z c :
  0 <= z -> isDigit c = false -> strings.Contains (strconv.Itoa z) c = false.
Proof. intros Hz Hc. eapply Contains_numeral; [by apply Itoa_nonneg|done]. Qed.

Lemma parseField_star_step fuel min max n :
  0 <= max -> 1 <= n <= GoInt.max_int - max -> GoInt.min_int <= min ->
  (length (stepValues min n max) < fuel)%nat ->
  parseField fuel ("*"%char :: "/"%char :: strconv.Itoa n) min max
  = Ok (stepValues min n max).
Proof.
  intros Hmax Hn Hmin Hfm.
  assert (strconv.Atoi (strconv.Itoa n) = Ok n) as Hatoi_n
    by (rewrite Atoi_Itoa; unfold GoInt.in_range;
        by assert ((GoInt.min_int <=? n) && (n <=? GoInt.max_int) = true)
             as -> by int_lia).
  change (parseField fuel ("*"%char :: "/"%char :: strconv.Itoa n) min max)
    with (parseParts fuel
            (strings.Split ("*"%char :: "/"%char :: strconv.Itoa n) ",")
            min max []).
  rewrite Split_none
    by (simpl; apply Contains_Itoa_nonneg; (done || lia)).
  unfold parseParts, parsePart, mbind, result_bind.
  change (strings.Contains ("*"%char :: "/"%char :: strconv.Itoa n) "-")
    with (strings.Contains (strconv.Itoa n) "-").
  rewrite Contains_Itoa_nonneg by (done || lia).
  change (strings.Contains ("*"%char :: "/"%char :: strconv.Itoa n) "/")
    with true. cbv iota.
  change (strings.Split ("*"%char :: "/"%char :: strconv.Itoa n) "/")
    with (match strings.Split ("/"%char :: strconv.Itoa n) "/" with
          | p :: ps => ("*"%char :: p) :: ps
          | [] => [["*"%char]]
          end).
  rewrite Split_cons_sep.
  rewrite Split_none by (apply Contains_Itoa_nonneg; (done || lia)).
  rewrite Hatoi_n.
  by rewrite (appendFrom_step (length (stepValues min n max))) by int_lia.
Qed.

(** X2. A step term [a/n] with [a >= 0] and [n >= 1] yields [a], [a+n],
    [a+2n], ... up to [max], and [*/n] the same from [min]. The start is
    not compared with the declared range: a start below [min] is kept,
    and a start above [max] yields no value at all. *)
Theorem parseField_step fuel min max a n :
  0 <= a <= GoInt.max_int -> 0 <= max -> 1 <= n <= GoInt.max_int - max ->
  GoInt.min_int <= min ->
  (length (stepValues a n max) < fuel)%nat ->
  (length (stepValues min n max) < fuel)%nat ->
  parseField fuel (stepTerm a n) min max = Ok (stepValues a n max)
  /\ parseField fuel ("*"%char :: "/"%char :: strconv.Itoa n) min max
     = Ok (stepValues min n max).
Proof.
  intros Ha Hmax Hn Hmin Hfa Hfm.
  assert (strconv.Atoi (strconv.Itoa n) = Ok n) as Hatoi_n
    by (rewrite Atoi_Itoa; unfold GoInt.in_range;
        by assert ((GoInt.min_int <=? n) && (n <=? GoInt.max_int) = true)
             as -> by int_lia).
  assert (strconv.Atoi (strconv.Itoa a) = Ok a) as Hatoi_a
    by (rewrite Atoi_Itoa; unfold GoInt.in_range;
        by assert ((GoInt.min_int <=? a) && (a <=? GoInt.max_int) = true)
             as -> by int_lia).
  split.
  - assert (strings.Contains (stepTerm a n) "/" = true) as Hslash
      by (unfold stepTerm; rewrite Contains_app; simpl; apply orb_true_r).
    assert (strings.Contains (stepTerm a n) "-" = false) as Hdash.
    { unfold stepTerm. rewrite Contains_app. simpl.
      rewrite !Contains_Itoa_nonneg by (done || lia). done. }
    assert (strings.Contains (stepTerm a n) "," = false) as Hcomma.
    { unfold stepTerm. rewrite Contains_app. simpl.
      rewrite !Contains_Itoa_nonneg by (done || lia). done. }
    assert (stepTerm a n <> ["*"%char]) as Hstar
      by (intros Heq; by rewrite Heq in Hslash).
    rewrite parseField_not_star, Split_none by done.
    unfold parseParts, parsePart, mbind, result_bind.
    rewrite Hdash, Hslash. unfold stepTerm.
    rewrite Split_app by (apply Contains_Itoa_nonneg; (done || lia)).
    rewrite Split_none by (apply Contains_Itoa_nonneg; (done || lia)).
    rewrite Hatoi_n.
    assert (match strconv.Itoa a with
            | ["*"%char] => Ok min
            | _ => strconv.Atoi (strconv.Itoa a)
            end = Ok a) as ->.
    { pose proof (Itoa_not_star a) as Hns. rewrite <- Hatoi_a.
      destruct (strconv.Itoa a) as [|c [|d r]]; [done|..];
        destruct c as [[] [] [] [] [] [] [] []]; done. }
    by rewrite (appendFrom_step (length (stepValues a n max))) by int_lia.
  - apply parseField_star_step; (done || lia).
Qed.

Lemma parseField_step_witness :
  parseField 100 (stepTerm 0 10) 1 31 = Ok (stepValues 0 10 31)
  /\ parseField 100 ("*"%char :: "/"%char :: strconv.Itoa 10) 1 31
     = Ok (stepValues 1 10 31).
Proof.
  apply (parseField_step 100 1 31 0 10);
    [split; [lia|vm_compute; discriminate]|lia
    |split; [lia|vm_compute; discriminate]|vm_compute; discriminate
    |vm_compute; lia|vm_compute; lia].
Defined.

(** ** Fields without a step term *)

Lemma appendFrom_unit_inv fuel : forall i hi values vs,
  hi < GoInt.max_int -> GoInt.min_int <= i -> i <= hi + 1 ->
  appendFrom fuel i hi 1 values = Ok vs ->
  vs = values ++ seqZ i (hi + 1 - i).
Proof.
  induction fuel as [|fuel IH]; intros i hi values vs Hhi Hlo Hi; [done|].
  simpl. destruct (Z.leb_spec i hi).
  - rewrite wrap_small by int_lia. intros Hvs.
    apply IH in Hvs; [|int_lia..]. rewrite Hvs, <- app_assoc. simpl.
    rewrite (seqZ_cons i) by lia. repeat f_equal; lia.
  - intros [= <-]. rewrite seqZ_nil by lia. by rewrite app_nil_r.
Qed.

Lemma Contains_Split s c sep :
  strings.Contains s c = false ->
  Forall (fun p => strings.Contains p c = false) (strings.Split s sep).
Proof.
  induction s as [|x s IH]; simpl; [by repeat constructor|].
  destruct (Ascii.eqb x c) eqn:Hx; [done|]. intros Hs. specialize (IH Hs).
  destruct (Ascii.eqb x sep); [by constructor|].
  destruct (strings.Split s sep) as [|p ps];
    [constructor; [simpl; by rewrite Hx|constructor]|].
  inversion IH; subst. constructor; [|done]. simpl. by rewrite Hx.
Qed.

Lemma Split_nonnil s sep : strings.Split s sep <> [].
Proof.
  destruct s as [|x s]; simpl; [done|].
  destruct (Ascii.eqb x sep); [done|]. by destruct (strings.Split s sep).
Qed.

Lemma Contains_Fields s c :
  strings.Contains s c = false ->
  Forall (fun f => strings.Contains f c = false) (strings.Fields s).
Proof.
  induction s as [|x s IH]; [by constructor|].
  simpl. destruct (Ascii.eqb x c) eqn:Hx; [done|]. intros Hs.
  specialize (IH Hs). destruct (strings.isSpace x); [done|].
  destruct s as [|y s']; [repeat constructor; simpl; by rewrite Hx|].
  destruct (strings.isSpace y).
  - constructor; [simpl; by rewrite Hx|done].
  - destruct (strings.Fields (y :: s')) as [|w ws];
      [repeat constructor; simpl; by rewrite Hx|].
    inversion IH; subst. constructor; [|done]. simpl. by rewrite Hx.
Qed.

Lemma parsePart_no_step fuel part min max values vs :
  max < GoInt.max_int -> GoInt.min_int <= min ->
  strings.Contains part "/" = false ->
  parsePart fuel part min max values = Ok vs ->
  exists new, vs = values ++ new /\ validSet min max new.
Proof.
  intros Hmax Hmin Hslash. unfold parsePart. rewrite Hslash.
  unfold mbind, result_bind.
  destruct (strings.Contains part "-").
  - destruct (strings.Split part "-") as [|p0 [|p1 [|p2 r]]]; try done.
    destruct (strconv.Atoi p0) as [start| |]; try done.
    destruct (strconv.Atoi p1) as [end_| |]; try done.
    destruct ((start <? min) || (end_ >? max) || (start >? end_)) eqn:Ht;
      [done|].
    intros Hvs. apply appendFrom_unit_inv in Hvs; [|int_lia..].
    exists (seqZ start (end_ + 1 - start)). split; [done|]. split.
    + rewrite (seqZ_cons start) by lia. done.
    + apply Forall_forall. intros v Hv. apply elem_of_seqZ in Hv. lia.
  - destruct (strconv.Atoi part) as [v| |]; try done.
    destruct ((v <? min) || (v >? max)) eqn:Ht; [done|].
    intros [= <-]. exists [v]. split; [done|]. split; [done|].
    repeat constructor; lia.
Qed.

Lemma parseParts_no_step fuel parts : forall min max values vs,
  max < GoInt.max_int -> GoInt.min_int <= min ->
  Forall (fun p => strings.Contains p "/" = false) parts ->
  parseParts fuel parts min max values = Ok vs ->
  exists new, vs = values ++ new
    /\ Forall (fun v => min <= v <= max) new
    /\ (parts <> [] -> new <> []).
Proof.
  induction parts as [|part rest IH]; intros min max values vs Hmax Hmin Hp.
  - intros [= <-]. exists []. by rewrite app_nil_r.
  - inversion Hp as [|? ? Hpart Hrest]; subst. simpl.
    unfold mbind, result_bind.
    destruct (parsePart fuel part min max values) as [v1| |] eqn:H1;
      try done.
    apply parsePart_no_step in H1 as (new1 & -> & Hne & Hin); try done.
    intros H2. apply IH in H2 as (new2 & -> & Hin2 & _); try done.
    exists (new1 ++ new2). split; [by rewrite app_assoc|].
    split; [by apply Forall_app|]. intros _.
    destruct new1; [done|done].
Qed.

Lemma parseField_no_step fuel field min max vs :
  GoInt.min_int <= min <= max -> max < GoInt.max_int ->
  strings.Contains field "/" = false ->
  parseField fuel field min max = Ok vs -> validSet min max vs.
Proof.
  intros Hmin Hmax Hslash.
  destruct (decide (field = ["*"%char])) as [->|Hstar].
  - simpl. intros Hvs. apply appendFrom_unit_inv in Hvs; [|int_lia..].
    subst vs. simpl. split.
    + rewrite (seqZ_cons min) by lia. done.
    + apply Forall_forall. intros v Hv. apply elem_of_seqZ in Hv. lia.
  - rewrite parseField_not_star by done. intros Hvs.
    apply parseParts_no_step in Hvs as (new & -> & Hin & Hne);
      [|lia|lia|by apply Contains_Split].
    simpl. split; [|done]. apply Hne, Split_nonnil.
Qed.

(** X3. Whatever the loop bound, a cron string that holds no step term
    (no '/') and that [ParseCron] accepts gives five sets that are each
    non-empty and within their field's range: minute 0-59, hour 0-23,
    day 1-31, month 1-12, weekday 0-6. *)
Theorem ParseCron_no_step_valid fuel expr c :
  strings.Contains (list_ascii_of_string expr) "/" = false ->
  ParseCron fuel expr = Ok c ->
  validSet 0 59 (minute c) /\ validSet 0 23 (hour c)
  /\ validSet 1 31 (dayOfMonth c) /\ validSet 1 12 (month c)
  /\ validSet 0 6 (dayOfWeek c).
Proof.
  intros Hslash. unfold ParseCron.
  pose proof (Contains_Fields _ _ Hslash) as Hf.
  destruct (strings.Fields (list_ascii_of_string expr))
    as [|f0 [|f1 [|f2 [|f3 [|f4 [|f5 r]]]]]]; try done.
  inversion Hf as [|? ? H0 Hf1]; subst.
  inversion Hf1 as [|? ? H1 Hf2]; subst.
  inversion Hf2 as [|? ? H2 Hf3]; subst.
  inversion Hf3 as [|? ? H3 Hf4]; subst.
  inversion Hf4 as [|? ? H4 _]; subst.
  unfold mbind, result_bind, wrapErr.
  destruct (parseField fuel f0 0 59) as [mi| |] eqn:E0; try done.
  destruct (parseField fuel f1 0 23) as [ho| |] eqn:E1; try done.
  destruct (parseField fuel f2 1 31) as [dm| |] eqn:E2; try done.
  destruct (parseField fuel f3 1 12) as [mo| |] eqn:E3; try done.
  destruct (parseField fuel f4 0 6) as [dw| |] eqn:E4; try done.
  intros [= <-]. simpl.
  split; [|split; [|split; [|split]]].
  - apply (parseField_no_step fuel f0 0 59 mi); (done || int_lia).
  - apply (parseField_no_step fuel f1 0 23 ho); (done || int_lia).
  - apply (parseField_no_step fuel f2 1 31 dm); (done || int_lia).
  - apply (parseField_no_step fuel f3 1 12 mo); (done || int_lia).
  - apply (parseField_no_step fuel f4 0 6 dw); (done || int_lia).
Qed.

Lemma ParseCron_no_step_valid_witness :
  exists c, ParseCron 100 "0,30 9-17 * * 1-5" = Ok c
    /\ validSet 0 59 (minute c) /\ validSet 0 23 (hour c)
    /\ validSet 1 31 (dayOfMonth c) /\ validSet 1 12 (month c)
    /\ validSet 0 6 (dayOfWeek c).
Proof.
  eexists. split; [vm_compute; reflexivity|].
  apply (ParseCron_no_step_valid 100 "0,30 9-17 * * 1-5");
    [reflexivity|vm_compute; reflexivity].
Defined.

(** ** [GetLogs] *)

Lemma getLogsFrom_take newestFirst taskID limit : forall count logs,
  TaskRegistry.getLogsFrom newestFirst taskID limit count logs
  = logs ++ take (Z.to_nat (limit - count))
              (List.filter
                 (fun e => String.eqb taskID ""
                           || String.eqb (Scheduler.TaskID e) taskID)
                 newestFirst).
Proof.
  induction newestFirst as [|e older IH]; intros count logs; simpl.
  - by rewrite take_nil, app_nil_r.
  - destruct (Z.ltb_spec count limit) as [Hlt|Hge].
    + destruct (String.eqb taskID "" || String.eqb (Scheduler.TaskID e) taskID).
      * rewrite IH, <- app_assoc. simpl.
        replace (Z.to_nat (limit - count))
          with (S (Z.to_nat (limit - (count + 1)))) by lia.
        done.
      * apply IH.
    + replace (Z.to_nat (limit - count)) with 0%nat by lia.
      by rewrite take_0, app_nil_r.
Qed.

(** X4. [GetLogs(taskID, limit)] returns the newest [limit] entries of
    the log, newest first, among those of task [taskID] (among all of
    them when [taskID] is empty); it returns none when [limit <= 0]. *)
Theorem GetLogs_newest_first s taskID limit :
  TaskRegistry.GetLogs s taskID limit
  = take (Z.to_nat limit)
      (List.filter
         (fun e => String.eqb taskID "" || String.eqb (Scheduler.TaskID e) taskID)
         (rev (Scheduler.logs s))).
Proof.
  unfold TaskRegistry.GetLogs. rewrite getLogsFrom_take. simpl.
  by rewrite Z.sub_0_r.
Qed.

(** ** The task registry *)

Section RegistryFacts.

Import TaskRegistry.
Context {H : Type}.
Implicit Types (tasks : gmap string (Task H)) (task : Task H).

Lemma ListTasks_length tasks : length (ListTasks tasks) = size tasks.
Proof. unfold ListTasks. by rewrite length_fmap, length_map_to_list. Qed.

(** X5. When [AddTask] accepts a task that has an ID: [GetTask] finds it
    under that ID, with its name, schedule and handler, the parsed
    expression and [NextRunAt = Next(t2)]; no other ID is touched; the
    registry grows by one, unless the ID was taken, in which case the
    task that held it is replaced; and [RemoveTask] of that ID then
    leaves the registry without any task under it, after which
    [GetTask] and [RemoveTask] report "not found". When [AddTask]
    returns an error the registry is as it was. *)
Theorem AddTask_registers fuel tasks task t1 t2 tasks' err :
  ID task <> "" ->
  AddTask fuel tasks task t1 t2 = Added tasks' err ->
  match err with
  | Some e =>
      tasks' = tasks
      /\ exists cause, e = InvalidCronExpression cause
           /\ ParseCron fuel (Schedule task) = Err cause
  | None =>
      (exists task',
         GetTask tasks' (ID task) = (Some task', None)
         /\ ID task' = ID task /\ Name task' = Name task
         /\ Schedule task' = Schedule task /\ Handler task' = Handler task
         /\ (Schedule task <> "" ->
             exists c, ParseCron fuel (Schedule task) = Ok c
               /\ cronExpr task' = Some c /\ NextRunAt task' = Next c t2))
      /\ (forall id, id <> ID task -> tasks' !! id = tasks !! id)
      /\ length (ListTasks tasks')
         = (length (ListTasks tasks)
            + match tasks !! ID task with Some _ => 0 | None => 1 end)%nat
      /\ RemoveTask tasks' (ID task) = (delete (ID task) tasks, None)
      /\ GetTask (delete (ID task) tasks) (ID task)
         = (None, Some (TaskNotFound (ID task)))
      /\ RemoveTask (delete (ID task) tasks) (ID task)
         = (delete (ID task) tasks, Some (TaskNotFound (ID task)))
  end.
Proof.
  intros Hid. unfold AddTask.
  assert (String.eqb (ID task) "" = false) as -> by by apply String.eqb_neq.
  assert (forall t : Task H,
            length (ListTasks (<[ID task := t]> tasks))
            = (length (ListTasks tasks)
               + match tasks !! ID task with Some _ => 0 | None => 1 end)%nat) as Hlen.
  { intros t. rewrite !ListTasks_length.
    destruct (tasks !! ID task) eqn:Hk.
    - rewrite map_size_insert_Some by done. lia.
    - rewrite map_size_insert_None by done. lia. }
  assert (forall t : Task H,
            RemoveTask (<[ID task := t]> tasks) (ID task)
            = (delete (ID task) tasks, None)) as Hrem.
  { intros t. unfold RemoveTask. rewrite lookup_insert_eq.
    by rewrite delete_insert_eq. }
  assert (GetTask (delete (ID task) tasks) (ID task)
          = (None, Some (TaskNotFound (ID task)))) as Hget
    by (unfold GetTask; by rewrite lookup_delete_eq).
  assert (RemoveTask (delete (ID task) tasks) (ID task)
          = (delete (ID task) tasks, Some (TaskNotFound (ID task)))) as Hrem2
    by (unfold RemoveTask; by rewrite lookup_delete_eq).
  destruct (String.eqb (Schedule task) "") eqn:Hs; simpl.
  - apply String.eqb_eq in Hs. intros [= <- <-].
    split; [|split; [|split; [|split; [|split]]]]; try done.
    + eexists. unfold GetTask. rewrite lookup_insert_eq.
      split; [done|]. simpl. repeat split; try done.
    + intros id Hne. by rewrite lookup_insert_ne.
  - destruct (ParseCron fuel (Schedule task)) as [c|e|] eqn:Hp; [| |done].
    + intros [= <- <-].
      split; [|split; [|split; [|split; [|split]]]]; try done.
      * eexists. unfold GetTask. rewrite lookup_insert_eq.
        split; [done|]. simpl. repeat split; try done.
        intros _. by exists c.
      * intros id Hne. by rewrite lookup_insert_ne.
    + intros [= <- <-]. split; [done|]. by exists e.
Qed.

End RegistryFacts.

Lemma AddTask_registers_witness :
  let task :=
    {| TaskRegistry.ID := "backup"; TaskRegistry.Name := "nightly backup";
       TaskRegistry.Schedule := "0 8 * * *"; TaskRegistry.Handler := tt;
       TaskRegistry.LastRunAt := GoTime.zero;
       TaskRegistry.NextRunAt := GoTime.zero;
       TaskRegistry.RunCount := 0; TaskRegistry.FailCount := 0;
       TaskRegistry.IsRunning := false; TaskRegistry.Description := "";
       TaskRegistry.cronExpr := None |} in
  let t := GoTime.Date 2024 1 1 12 0 0 in
  exists tasks',
    TaskRegistry.AddTask 100 ∅ task t t = TaskRegistry.Added tasks' None
    /\ (exists task',
          TaskRegistry.GetTask tasks' "backup" = (Some task', None)
          /\ TaskRegistry.ID task' = "backup"
          /\ TaskRegistry.Name task' = "nightly backup"
          /\ TaskRegistry.Schedule task' = "0 8 * * *"
          /\ TaskRegistry.Handler task' = tt
          /\ ("0 8 * * *" <> "" ->
              exists c, ParseCron 100 "0 8 * * *" = Ok c
                /\ TaskRegistry.cronExpr task' = Some c
                /\ TaskRegistry.NextRunAt task' = Next c t))
    /\ (forall id, id <> "backup" -> tasks' !! id = (∅ : gmap string _) !! id)
    /\ length (TaskRegistry.ListTasks tasks')
       = (length (TaskRegistry.ListTasks (∅ : gmap string (TaskRegistry.Task unit)))
          + match (∅ : gmap string (TaskRegistry.Task unit)) !! "backup" with
            | Some _ => 0
            | None => 1
            end)%nat
    /\ TaskRegistry.RemoveTask tasks' "backup" = (delete "backup" ∅, None)
    /\ TaskRegistry.GetTask (delete "backup" (∅ : gmap string (TaskRegistry.Task unit))) "backup"
       = (None, Some (TaskRegistry.TaskNotFound "backup"))
    /\ TaskRegistry.RemoveTask (delete "backup" (∅ : gmap string (TaskRegistry.Task unit))) "backup"
       = (delete "backup" ∅, Some (TaskRegistry.TaskNotFound "backup")).
Proof.
  intros task t. eexists. split; [vm_compute; reflexivity|].
  apply (AddTask_registers 100 ∅ task t t _ None);
    [discriminate|vm_compute; reflexivity].
Defined.

(** ** When the tick dispatches a task *)

Lemma Next_aligned c from : Next c from mod Duration.Minute = 0.
Proof.
  pose proof (Truncate_minute from) as [_ Hmod].
  unfold Next. rewrite NextFrom_find.
  destruct (List.find (matches c) _) as [u|] eqn:Hfind; simpl; [|done].
  apply List.find_some in Hfind as [Hin _].
  apply list_elem_of_In, candidates_elem in Hin as (k & _ & ->).
  unfold GoTime.Add.
  replace (GoTime.Truncate from Duration.Minute + Duration.Minute
           + k * Duration.Minute)
    with (GoTime.Truncate from Duration.Minute + (k + 1) * Duration.Minute)
    by ring.
  by rewrite Z.mod_add.
Qed.

Lemma Unix_ge_aligned now u :
  u mod Duration.Minute = 0 ->
  (TaskRegistry.Unix now >=? TaskRegistry.Unix u) = (u <=? now).
Proof.
  rewrite minute_val. intros Hu.
  apply Z.mod_divide in Hu as [q ->]; [|lia].
  unfold TaskRegistry.Unix. rewrite second_val.
  change TaskRegistry.unixEpoch with (62135596800 * 1000000000).
  replace (q * 60000000000 - 62135596800 * 1000000000)
    with ((q * 60 - 62135596800) * 1000000000) by lia.
  rewrite Z.div_mul by lia.
  destruct (Z.leb_spec (q * 60000000000) now) as [Hle|Hgt].
  - apply Z.geb_le.
    apply Z.div_le_lower_bound; lia.
  - destruct (Z.geb_spec ((now - 62135596800 * 1000000000) / 1000000000)
                (q * 60 - 62135596800)) as [Hge|]; [|done].
    exfalso.
    assert ((now - 62135596800 * 1000000000) / 1000000000
            < q * 60 - 62135596800); [|lia].
    apply Z.div_lt_upper_bound; lia.
Qed.

Section DispatchFacts.

Import TaskRegistry.
Context {H : Type}.

(** X6. A task that is not running and whose [NextRunAt] was computed by
    [Next] is dispatched by the tick ([shouldRun] is true) exactly at
    the times that are not before [NextRunAt]. *)
Theorem shouldRun_from_NextRunAt (task : Task H) c from now :
  IsRunning task = false -> cronExpr task = Some c ->
  NextRunAt task = Next c from ->
  shouldRun task now = true <-> NextRunAt task <= now.
Proof.
  intros Hr Hc Hn. unfold shouldRun. rewrite Hr, Hc, Hn.
  rewrite Unix_ge_aligned by apply Next_aligned. apply Z.leb_le.
Qed.

(** X7. A task whose expression is due at none of the 525,600 minutes
    after it is added is registered with the zero time as [NextRunAt],
    and the tick then finds it due at every time from the zero time on,
    whenever it is not running. *)
Theorem AddTask_never_due_always_dispatched
  fuel tasks (task : Task H) t1 t2 c :
  ID task <> "" -> IsRunning task = false -> Schedule task <> "" ->
  ParseCron fuel (Schedule task) = Ok c ->
  (forall k, 0 <= k < 525600 ->
     IsDue c (GoTime.Add
                (GoTime.Add (GoTime.Truncate t2 Duration.Minute)
                   Duration.Minute) (k * Duration.Minute)) = false) ->
  exists task',
    AddTask fuel tasks task t1 t2 = Added (<[ID task := task']> tasks) None
    /\ NextRunAt task' = GoTime.zero
    /\ forall now, GoTime.zero <= now -> shouldRun task' now = true.
Proof.
  intros Hid Hr Hs Hp Hnever. unfold AddTask.
  assert (String.eqb (ID task) "" = false) as -> by by apply String.eqb_neq.
  assert (String.eqb (Schedule task) "" = false) as ->
    by by apply String.eqb_neq.
  simpl. rewrite Hp.
  assert (Next c t2 = GoTime.zero) as Hz.
  { unfold Next. rewrite NextFrom_find.
    destruct (List.find (matches c) _) as [u|] eqn:Hfind; simpl; [|done].
    apply List.find_some in Hfind as [Hin Hdue].
    apply list_elem_of_In, candidates_elem in Hin as (k & Hk & ->).
    rewrite Z2Nat.id in Hk by done. unfold IsDue in Hnever.
    rewrite (Hnever k Hk) in Hdue. done. }
  eexists. split; [reflexivity|]. simpl.
  split; [done|]. intros now Hnow. unfold shouldRun. simpl.
  rewrite Hr, Hz. rewrite Unix_ge_aligned by done. by apply Z.leb_le.
Qed.

End DispatchFacts.

Lemma february_31_never_due c t :
  dayOfMonth c = [31] -> month c = [2] -> IsDue c t = false.
Proof.
  intros Hdom Hmon. unfold IsDue, matches.
  destruct (contains (minute c) _); [|done].
  destruct (contains (hour c) _); [|done].
  destruct (contains (dayOfMonth c) _) eqn:Hd; [|done].
  destruct (contains (month c) _) eqn:Hm; [|done].
  apply contains_In in Hd, Hm. rewrite Hdom in Hd. rewrite Hmon in Hm.
  simpl in Hd, Hm. pose proof (Day_in_february t). lia.
Qed.

Lemma shouldRun_from_NextRunAt_witness :
  let c := {| minute := [0]; hour := [8]; dayOfMonth := seqZ 1 31;
              month := seqZ 1 12; dayOfWeek := seqZ 0 7 |} in
  let from := GoTime.Date 2024 1 1 12 0 0 in
  let task : TaskRegistry.Task unit :=
    {| TaskRegistry.ID := "backup"; TaskRegistry.Name := "nightly backup";
       TaskRegistry.Schedule := "0 8 * * *"; TaskRegistry.Handler := tt;
       TaskRegistry.LastRunAt := GoTime.zero;
       TaskRegistry.NextRunAt := Next c from;
       TaskRegistry.RunCount := 0; TaskRegistry.FailCount := 0;
       TaskRegistry.IsRunning := false; TaskRegistry.Description := "";
       TaskRegistry.cronExpr := Some c |} in
  let now := GoTime.Date 2024 1 2 8 0 1 in
  TaskRegistry.shouldRun task now = true
  <-> TaskRegistry.NextRunAt task <= now.
Proof.
  intros c from task now.
  apply (shouldRun_from_NextRunAt task c from now); reflexivity.
Defined.

Lemma AddTask_never_due_always_dispatched_witness :
  let task : TaskRegistry.Task unit :=
    {| TaskRegistry.ID := "leap"; TaskRegistry.Name := "february 31";
       TaskRegistry.Schedule := "0 0 31 2 *"; TaskRegistry.Handler := tt;
       TaskRegistry.LastRunAt := GoTime.zero;
       TaskRegistry.NextRunAt := GoTime.zero;
       TaskRegistry.RunCount := 0; TaskRegistry.FailCount := 0;
       TaskRegistry.IsRunning := false; TaskRegistry.Description := "";
       TaskRegistry.cronExpr := None |} in
  let t := GoTime.Date 2024 1 1 12 0 0 in
  exists task',
    TaskRegistry.AddTask 100 ∅ task t t
    = TaskRegistry.Added (<["leap" := task']> ∅) None
    /\ TaskRegistry.NextRunAt task' = GoTime.zero
    /\ forall now, GoTime.zero <= now ->
         TaskRegistry.shouldRun task' now = true.
Proof.
  intros task t.
  apply (AddTask_never_due_always_dispatched 100 ∅ task t t
           {| minute := [0]; hour := [0]; dayOfMonth := [31]; month := [2];
              dayOfWeek := [0; 1; 2; 3; 4; 5; 6] |});
    [discriminate|reflexivity|discriminate|vm_compute; reflexivity|].
  intros k _. by apply february_31_never_due.
Defined.

(** ** Run counters *)

Section RunFacts.

Import TaskRegistry.
Context {H : Type}.

Lemma runAll_counters outs : forall (task : Task H),
  IsRunning task = false ->
  0 <= FailCount task <= RunCount task ->
  RunCount task + Z.of_nat (length outs) <= GoInt.max_int ->
  let task' := fst (runAll task outs) in
  let entries := snd (runAll task outs) in
  IsRunning task' = false
  /\ RunCount task' = RunCount task + Z.of_nat (length outs)
  /\ FailCount task'
     = FailCount task + Z.of_nat (length (List.filter failed outs))
  /\ Scheduler.Success <$> entries = (fun o => negb (failed o)) <$> outs
  /\ Scheduler.TaskID <$> entries = (fun _ => ID task) <$> outs.
Proof.
  induction outs as [|o rest IH]; intros task Hr Hc Hmax; simpl.
  - repeat split; try done; lia.
  - unfold runTask. rewrite Hr.
    set (task1 := {| ID := ID task |}).
    assert (RunCount task1 = RunCount task + 1) as Hr1
      by (simpl; rewrite wrap_small; [done|simpl in Hmax; int_lia]).
    assert (FailCount task1 = FailCount task + if failed o then 1 else 0)
      as Hf1.
    { simpl. unfold failed. destruct (failure o); [|lia].
      rewrite wrap_small; [done|simpl in Hmax; int_lia]. }
    specialize (IH task1 eq_refl).
    destruct (runAll task1 rest) as [task2 entries] eqn:Hrun. simpl in *.
    destruct IH as (I1 & I2 & I3 & I4 & I5);
      [destruct (failed o); lia|lia|].
    split; [done|]. split; [lia|]. split.
    + rewrite I3, Hf1. unfold failed at 3. fold (failed o).
      destruct (failed o); simpl; lia.
    + split; f_equal; try done.
      unfold failed. by destruct (failure o).
Qed.

(** X8. A task that starts with no run on record and is run any number
    of times, one run after the other, has [RunCount] equal to the
    number of runs and [FailCount] equal to the number of runs whose
    handler returned an error, so never above [RunCount]; it is left
    not running; and every run leaves one log entry under the task's
    ID, in the order of the runs, whose success flag tells whether the
    handler returned nil. *)
Theorem runs_counted (task : Task H) outs :
  IsRunning task = false -> RunCount task = 0 -> FailCount task = 0 ->
  Z.of_nat (length outs) <= GoInt.max_int ->
  let task' := fst (runAll task outs) in
  let entries := snd (runAll task outs) in
  RunCount task' = Z.of_nat (length outs)
  /\ FailCount task' = Z.of_nat (length (List.filter failed outs))
  /\ 0 <= FailCount task' <= RunCount task'
  /\ IsRunning task' = false
  /\ Scheduler.Success <$> entries = (fun o => negb (failed o)) <$> outs
  /\ Scheduler.TaskID <$> entries = (fun _ => ID task) <$> outs.
Proof.
  intros Hr Hrc Hfc Hlen.
  destruct (runAll_counters outs task Hr ltac:(lia) ltac:(lia))
    as (I1 & I2 & I3 & I4 & I5).
  intros task' entries. fold task' in I1, I2, I3. fold entries in I4, I5.
  pose proof (List.filter_length_le failed outs) as Hle.
  rewrite Hrc in I2. rewrite Hfc in I3. simpl in I2, I3.
  split; [done|]. split; [done|]. split; [lia|]. by split.
Qed.

End RunFacts.

Lemma runs_counted_witness :
  let task : TaskRegistry.Task unit :=
    {| TaskRegistry.ID := "backup"; TaskRegistry.Name := "nightly backup";
       TaskRegistry.Schedule := "0 8 * * *"; TaskRegistry.Handler := tt;
       TaskRegistry.LastRunAt := GoTime.zero;
       TaskRegistry.NextRunAt := GoTime.zero;
       TaskRegistry.RunCount := 0; TaskRegistry.FailCount := 0;
       TaskRegistry.IsRunning := false; TaskRegistry.Description := "";
       TaskRegistry.cronExpr := None |} in
  let t := GoTime.Date 2024 1 1 8 0 0 in
  let outs :=
    [ {| failure := None; startedAt := t; endedAt := t + 5;
         recomputedAt := t + 6 |};
      {| failure := Some "disk full"; startedAt := t + 7; endedAt := t + 8;
         recomputedAt := t + 9 |} ] in
  let task' := fst (runAll task outs) in
  let entries := snd (runAll task outs) in
  TaskRegistry.RunCount task' = 2
  /\ TaskRegistry.FailCount task' = 1
  /\ 0 <= TaskRegistry.FailCount task' <= TaskRegistry.RunCount task'
  /\ TaskRegistry.IsRunning task' = false
  /\ Scheduler.Success <$> entries = [true; false]
  /\ Scheduler.TaskID <$> entries = ["backup"; "backup"].
Proof.
  intros task t outs.
  apply (runs_counted task outs); try reflexivity.
  vm_compute. discriminate.
Defined.


(** ** The sliding window beside a limiter that never forgets *)

Section SlidingReferenceFacts.

Import SlidingWindow SlidingReference.

Lemma filter_filter_cutoff (c c' : Z) (l : list Z) :
  c <= c' ->
  List.filter (fun t => c' <? t) (List.filter (fun t => c <? t) l)
  = List.filter (fun t => c' <? t) l.
Proof.
  intros Hc. induction l as [|t l IH]; simpl; [done|].
  destruct (Z.ltb_spec c t); simpl.
  - by rewrite IH.
  - destruct (Z.ltb_spec c' t); [lia|done].
Qed.

Lemma filter_cutoff_nil (c : Z) (l : list Z) :
  Forall (fun t => t <= c) l -> List.filter (fun t => c <? t) l = [].
Proof.
  induction 1 as [|t l Ht _ IH]; simpl; [done|].
  destruct (Z.ltb_spec c t); [lia|done].
Qed.

Lemma Forall_filter_cutoff (P : Z -> Prop) (c : Z) (l : list Z) :
  Forall P l -> Forall P (List.filter (fun t => c <? t) l).
Proof.
  induction 1 as [|t l Ht _ IH]; simpl; [done|].
  destruct (c <? t); [by constructor|done].
Qed.

Lemma last_filter_cutoff (c : Z) (l : list Z) x y :
  last l = Some x -> Forall (fun t => t <= x) l ->
  last (List.filter (fun t => c <? t) l) = Some y -> y = x.
Proof.
  intros Hlast Hmax Hy.
  destruct l as [|a l _] using rev_ind; [done|].
  rewrite last_snoc in Hlast. injection Hlast as ->.
  rewrite List.filter_app in Hy. simpl in Hy.
  destruct (Z.ltb_spec c x).
  - rewrite last_snoc in Hy. by injection Hy.
  - rewrite app_nil_r, filter_cutoff_nil in Hy; [done|].
    apply Forall_app in Hmax as [Hmax _].
    eapply Forall_impl; [done|]. simpl. lia.
Qed.

Lemma agrees_nil T limit window :
  0 <= limit -> agrees T limit window [] [].
Proof. intros Hl. split; simpl; try done; lia. Qed.

Lemma agrees_later T T' limit window stored admitted :
  T <= T' -> agrees T limit window stored admitted ->
  agrees T' limit window stored admitted.
Proof.
  intros HT [H1 H2 H3 H4]. split; try done.
  - eapply Forall_impl; [done|]. simpl. lia.
  - intros c Hc. apply H4. lia.
Qed.

Lemma agrees_valid T now limit window stored admitted :
  T <= now -> agrees T limit window stored admitted ->
  agrees now limit window
    (List.filter (fun t => now - window <? t) stored) admitted.
Proof.
  intros HT [H1 H2 H3 H4]. split.
  - apply Forall_filter_cutoff. eapply Forall_impl; [done|]. simpl. lia.
  - intros y Hy.
    destruct (last stored) as [x|] eqn:Hx.
    + rewrite (last_filter_cutoff _ _ _ _ Hx (H2 x eq_refl) Hy).
      apply Forall_filter_cutoff. by apply H2.
    + apply last_None in Hx. by subst stored.
  - etransitivity; [apply inj_le, List.filter_length_le|done].
  - intros c Hc. rewrite filter_filter_cutoff by lia. apply H4. lia.
Qed.

Lemma agrees_admit now limit window valid admitted n :
  0 <= window ->
  Z.of_nat (length valid) + n <= limit ->
  agrees now limit window valid admitted ->
  agrees now limit window (valid ++ repeat now (Z.to_nat n))
    (admitted ++ repeat now (Z.to_nat n)).
Proof.
  intros Hw Hn [H1 H2 H3 H4].
  assert (Forall (fun t => t <= now) (repeat now (Z.to_nat n))) as Hrep.
  { apply Forall_forall. intros t Ht.
    apply list_elem_of_In, repeat_spec in Ht. lia. }
  split.
  - by apply Forall_app.
  - intros x Hx. destruct (Z.to_nat n) as [|k] eqn:Hk; simpl in *.
    + rewrite app_nil_r in *. by apply H2.
    + rewrite repeat_cons, app_assoc, last_snoc in Hx.
      injection Hx as <-. by apply Forall_app.
  - rewrite length_app, repeat_length. lia.
  - intros c Hc. rewrite !List.filter_app. f_equal. by apply H4.
Qed.

Lemma AllowN_agree T sw h key n now :
  0 <= limit sw -> 0 <= window sw <= GoInt.max_int ->
  GoInt.min_int <= n <= GoInt.max_int - limit sw ->
  T <= now -> agree T sw h ->
  fst (AllowN sw key n now) = fst (allowN (limit sw) (window sw) h key n now)
  /\ agree now (snd (AllowN sw key n now))
       (snd (allowN (limit sw) (window sw) h key n now)).
Proof.
  intros Hl Hw Hn HT Hagree.
  pose proof (agrees_valid T now _ _ _ _ HT (Hagree key)) as Hvalid.
  assert (validRequests sw key now
          = List.filter (fun t => now - window sw <? t)
              (default [] (windows sw !! key))) as Hv.
  { unfold validRequests, GoTime.Add, GoTime.After.
    rewrite wrap_small by int_lia.
    apply List.filter_ext. intros t. f_equal; lia. }
  assert (length (validRequests sw key now)
          = length (inWindow (window sw) h key now)) as Hlen.
  { rewrite Hv. unfold inWindow. f_equal.
    apply (agrees_window _ _ _ _ _ (Hagree key)). lia. }
  assert (Z.of_nat (length (validRequests sw key now)) <= limit sw) as Hle
    by (rewrite Hv; apply Hvalid).
  unfold AllowN, allowN. rewrite wrap_small by int_lia. rewrite <- Hlen.
  destruct (Z.leb_spec (Z.of_nat (length (validRequests sw key now)) + n)
              (limit sw)) as [Hok|Hno]; simpl; (split; [done|]);
    intros k; simpl;
    (destruct (decide (key = k)) as [<-|Hne];
     [rewrite ?lookup_insert_eq; simpl
     |repeat (rewrite lookup_insert_ne by done);
      by apply (agrees_later T now), Hagree]).
  - rewrite Hv in *. apply agrees_admit; [lia|done|done].
  - by rewrite Hv.
Qed.

Lemma Reset_agree T sw h key :
  0 <= limit sw -> agree T sw h -> agree T (Reset sw key) (delete key h).
Proof.
  intros Hl Hagree k. simpl.
  destruct (decide (key = k)) as [<-|Hne].
  - rewrite !lookup_delete_eq. simpl. by apply agrees_nil.
  - rewrite !lookup_delete_ne by done. apply Hagree.
Qed.

Lemma gc_agree T sw h now :
  0 <= limit sw -> 0 <= window sw -> 2 * window sw <= GoInt.max_int ->
  T <= now -> agree T sw h -> agree now (gc sw now) h.
Proof.
  intros Hl Hw Hw2 HT Hagree k. simpl.
  pose proof (agrees_later T now _ _ _ _ HT (Hagree k)) as Hk.
  destruct (windows sw !! k) as [rs|] eqn:Hrs; simpl in Hk.
  - destruct (last rs) as [x|] eqn:Hx.
    + destruct (GoTime.Before x
                  (GoTime.Add now
                     (GoInt.wrap (GoInt.wrap (- window sw) * 2)))) eqn:Hb.
      * rewrite (proj2 (map_lookup_filter_None _ _ _)); simpl.
        -- destruct Hk as [H1 H2 H3 H4]. split; simpl; try done.
           intros c Hc. rewrite <- H4 by done. symmetry.
           apply filter_cutoff_nil.
           eapply Forall_impl; [by apply H2|]. simpl. intros t Ht.
           unfold GoTime.Before, GoTime.Add in Hb.
           rewrite (wrap_small (- window sw)) in Hb by int_lia.
           rewrite wrap_small in Hb by int_lia. lia.
        -- right. intros rs' Hrs'. rewrite Hrs in Hrs'.
           injection Hrs' as <-. simpl. rewrite Hx, Hb. done.
      * rewrite (proj2 (map_lookup_filter_Some _ _ _ rs)); [done|].
        split; [done|]. simpl. by rewrite Hx, Hb.
    + rewrite (proj2 (map_lookup_filter_None _ _ _)); simpl.
      * apply last_None in Hx. by subst rs.
      * right. intros rs' Hrs'. rewrite Hrs in Hrs'.
        injection Hrs' as <-. simpl. by rewrite Hx.
  - rewrite (proj2 (map_lookup_filter_None _ _ _)); [done|by left].
Qed.

Lemma perform_window sw c : window (perform sw c) = window sw.
Proof. destruct c; simpl; unfold Allow, AllowN; try done;
  by destruct (_ <=? _). Qed.

Lemma answers_expected L W calls : forall T sw h,
  limit sw = L -> window sw = W ->
  0 <= L -> 0 <= W -> 2 * W <= GoInt.max_int ->
  boundedAmounts L calls = true ->
  nondecreasing (T :: flat_map reading calls) = true ->
  agree T sw h ->
  answers sw calls = expected L W h calls.
Proof.
  induction calls as [|c calls IH];
    intros T sw h HL HW Hl Hw Hw2 Hb Hclock Hagree; [done|].
  apply andb_true_iff in Hb as [Hc Hb].
  pose proof (perform_limit sw c) as HL'. rewrite HL in HL'.
  pose proof (perform_window sw c) as HW'. rewrite HW in HW'.
  destruct c as [key now|key n now|key|now];
    cbn [answers expected flat_map reading app] in *.
  - apply nondecreasing_cons in Hclock as [Hclock HT].
    destruct (AllowN_agree T sw h key 1 now) as [Hfst Hsnd];
      [lia|int_lia|cbn [SlidingWindow.amount] in Hc; int_lia|lia|done|].
    unfold Allow. rewrite Hfst, HL, HW. f_equal.
    apply (IH now); try done. rewrite <- HL, <- HW. apply Hsnd.
  - apply nondecreasing_cons in Hclock as [Hclock HT].
    destruct (AllowN_agree T sw h key n now) as [Hfst Hsnd];
      [lia|int_lia|cbn [SlidingWindow.amount] in Hc; int_lia|lia|done|].
    rewrite Hfst, HL, HW. f_equal.
    apply (IH now); try done. rewrite <- HL, <- HW. apply Hsnd.
  - apply (IH T); try done. apply Reset_agree; [lia|done].
  - apply nondecreasing_cons in Hclock as [Hclock HT].
    apply (IH now); try done. apply (gc_agree T); try done; lia.
Qed.

(** X9. Every answer of a sliding window limiter is the one of a
    limiter that keeps the times of all the requests it admitted for a
    key since the key's last [Reset] and is never swept: [AllowN(key, n)]
    at [now] returns true exactly when the requests admitted for [key]
    later than [now - window], plus [n], are at most [limit]. Dropping
    expired times and the sweeps of [gc] never change an answer, and no
    key's answers depend on another key's calls. *)
Theorem SlidingWindow_answers limit window calls :
  0 <= limit -> 0 <= window -> 2 * window <= GoInt.max_int ->
  boundedAmounts limit calls = true ->
  nondecreasing (flat_map reading calls) = true ->
  answers (NewSlidingWindow limit window) calls
  = expected limit window ∅ calls.
Proof.
  intros Hl Hw Hw2 Hb Hclock.
  apply (answers_expected limit window calls
           (hd 0 (flat_map reading calls)) (NewSlidingWindow limit window) ∅);
    try done.
  by apply nondecreasing_hd.
Qed.

End SlidingReferenceFacts.

Lemma SlidingWindow_answers_witness :
  let t := GoTime.Date 2024 1 1 12 0 0 in
  let calls :=
    [ SlidingWindow.CallAllow "a" t;
      SlidingWindow.CallAllowN "a" 2 (t + 1);
      SlidingWindow.CallAllow "b" (t + 2);
      SlidingWindow.CallAllow "a" (t + 3);
      SlidingWindow.Sweep (t + 3 * Duration.Minute);
      SlidingWindow.CallAllow "a" (t + 3 * Duration.Minute);
      SlidingWindow.CallReset "a";
      SlidingWindow.CallAllowN "a" 2 (t + 3 * Duration.Minute) ] in
  SlidingReference.answers
    (SlidingWindow.NewSlidingWindow 2 Duration.Minute) calls
  = SlidingReference.expected 2 Duration.Minute ∅ calls.
Proof.
  intros t calls.
  apply (SlidingWindow_answers 2 Duration.Minute calls);
    [lia|vm_compute; discriminate|vm_compute; discriminate
    |reflexivity|reflexivity].
Defined.

(** ** The sweeps of the token bucket *)





Section BucketSweeps.

Import TokenBucket BucketRuns.









Lemma perform_rate tb c : rate (perform tb c) = rate tb.
Proof. destruct c; simpl; unfold Allow, AllowN; try done;
  by destruct (Qgeb _ _). Qed.

Lemma perform_capacity tb c : capacity (perform tb c) = capacity tb.
Proof. destruct c; simpl; unfold Allow, AllowN; try done;
  by destruct (Qgeb _ _). Qed.



End BucketSweeps.


(** ** What a token bucket grants *)

Section BucketRate.

Import TokenBucket BucketRuns.








End BucketRate.


(** ** What a sliding window admits *)

Section SlidingBound.

Import SlidingWindow SlidingReference.

Lemma filter_length_le_impl {A} (P Q : A -> bool) (l : list A) :
  (forall x, P x = true -> Q x = true) ->
  (length (List.filter P l) <= length (List.filter Q l))%nat.
Proof.
  intros HPQ. induction l as [|x l IH]; simpl; [done|].
  destruct (P x) eqn:HP.
  - rewrite (HPQ x HP). simpl. lia.
  - destruct (Q x); simpl; lia.
Qed.

Lemma allowN_admitted limit window h key k n now a b :
  0 <= n -> b - a < window ->
  Z.of_nat (length (List.filter (within a b)
                      (default [] (h !! key)))) <= limit ->
  let ok := fst (allowN limit window h k n now) in
  let h' := snd (allowN limit window h k n now) in
  Z.of_nat (length (List.filter (within a b)
                      (default [] (h' !! key))))
  = Z.of_nat (length (List.filter (within a b)
                        (default [] (h !! key))))
    + (if ok && String.eqb k key && within a b now then n else 0)
  /\ Z.of_nat (length (List.filter (within a b)
                         (default [] (h' !! key)))) <= limit.
Proof.
  intros Hn Hab Hinv. unfold allowN.
  assert (within a b now = true ->
          le (length (List.filter (within a b)
                        (default [] (h !! key))))
             (length (inWindow window h key now))) as Hsub.
  { intros Hin. apply andb_true_iff in Hin as [Ha Hb].
    unfold inWindow. apply filter_length_le_impl.
    intros t Ht. apply andb_true_iff in Ht as [Hat Htb]. lia. }
  assert (forall j, List.filter (within a b) (repeat now j)
                    = if within a b now then repeat now j else []) as Hrep.
  { intros j. induction j as [|j IH]; simpl; [by destruct (within a b now)|].
    rewrite IH. by destruct (within a b now). }
  destruct (Z.leb_spec (Z.of_nat (length (inWindow window h k now)) + n) limit)
    as [Hok|Hno]; simpl; [|split; [by rewrite Z.add_0_r|done]].
  destruct (String.eqb_spec k key) as [->|Hne]; simpl;
    [|rewrite lookup_insert_ne by done; split; [by rewrite Z.add_0_r|done]].
  rewrite lookup_insert_eq. simpl. rewrite List.filter_app, length_app.
  set (m := length (List.filter (within a b)
                      (default [] (h !! key)))) in *.
  set (w := length (inWindow window h key now)) in *.
  clearbody m w.
  rewrite Hrep. destruct (within a b now) eqn:Hin; simpl.
  - rewrite repeat_length. specialize (Hsub eq_refl). lia.
  - split; lia.
Qed.

Lemma expected_admitted limit window key a b calls : forall h,
  b - a < window ->
  nonnegAmounts calls = true -> neverReset key calls = true ->
  Z.of_nat (length (List.filter (within a b)
                      (default [] (h !! key)))) <= limit ->
  Z.of_nat (length (List.filter (within a b)
                      (default [] (h !! key))))
  + admittedIn key a b calls (expected limit window h calls) <= limit.
Proof.
  induction calls as [|c calls IH]; intros h Hab Hn Hreset Hinv;
    [simpl; by rewrite Z.add_0_r|].
  apply andb_true_iff in Hn as [Hn1 Hn].
  apply andb_true_iff in Hreset as [Hr1 Hreset].
  destruct c as [k now|k n now|k|now]; cbn [admittedIn expected] in *.
  - destruct (allowN_admitted limit window h key k 1 now a b) as [Heq Hle];
      [lia|done|done|].
    specialize (IH _ Hab Hn Hreset Hle). rewrite Heq in IH.
    by rewrite Z.add_assoc.
  - destruct (allowN_admitted limit window h key k n now a b) as [Heq Hle];
      [simpl in Hn1; lia|done|done|].
    specialize (IH _ Hab Hn Hreset Hle). rewrite Heq in IH.
    by rewrite Z.add_assoc.
  - assert (k <> key) as Hne
      by (intros ->; by rewrite String.eqb_refl in Hr1).
    specialize (IH (delete k h) Hab Hn Hreset).
    rewrite lookup_delete_ne in IH by done. by apply IH.
  - by apply IH.
Qed.

(** X12. A sliding window limiter never admits more than [limit]
    requests of one key at times less than [window] apart: over any
    sequence of calls (sweeps of [gc] and calls on other keys included)
    in which the key is not [Reset], the amounts of the key's calls at
    the times from [a] to [b] that were answered true add up to at most
    [limit], whenever [b - a < window]. *)
Theorem SlidingWindow_window_bound limit window key a b calls :
  0 <= limit -> 0 <= window -> 2 * window <= GoInt.max_int ->
  boundedAmounts limit calls = true -> nonnegAmounts calls = true ->
  nondecreasing (flat_map reading calls) = true ->
  neverReset key calls = true ->
  b - a < window ->
  admittedIn key a b calls (answers (NewSlidingWindow limit window) calls)
  <= limit.
Proof.
  intros Hl Hw Hw2 Hb Hn Hclock Hreset Hab.
  rewrite (answers_expected limit window calls
             (hd 0 (flat_map reading calls)) (NewSlidingWindow limit window) ∅);
    try done; [|by apply nondecreasing_hd].
  pose proof (expected_admitted limit window key a b calls ∅ Hab Hn Hreset)
    as Hadm.
  rewrite lookup_empty in Hadm. simpl in Hadm. lia.
Qed.

End SlidingBound.

Lemma SlidingWindow_window_bound_witness :
  let t := GoTime.Date 2024 1 1 12 0 0 in
  let calls :=
    [ SlidingWindow.CallAllow "a" t;
      SlidingWindow.CallAllowN "a" 2 (t + 1);
      SlidingWindow.CallAllow "b" (t + 2);
      SlidingWindow.CallAllow "a" (t + 3);
      SlidingWindow.Sweep (t + 3 * Duration.Minute);
      SlidingWindow.CallAllow "a" (t + 3 * Duration.Minute) ] in
  SlidingReference.admittedIn "a" t (t + Duration.Minute - 1) calls
    (SlidingReference.answers
       (SlidingWindow.NewSlidingWindow 2 Duration.Minute) calls)
  <= 2.
Proof.
  intros t calls.
  apply (SlidingWindow_window_bound 2 Duration.Minute "a" t
           (t + Duration.Minute - 1) calls);
    [lia|vm_compute; discriminate|vm_compute; discriminate
    |reflexivity|reflexivity|reflexivity|reflexivity|lia].
Defined.

(** ** What a fixed window admits *)

Section FixedBound.

Import FixedWindow FixedRuns.

Lemma AllowN_account a b T S fw key n created now :
  0 <= limit fw -> 0 <= window fw -> b - a <= window fw ->
  0 <= n <= GoInt.max_int - limit fw ->
  T <= created <= now ->
  account a b (window fw) (limit fw) T S (windows fw !! key) ->
  account a b (window fw) (limit fw) now
    (S + if fst (AllowN fw key n created now) && within a b now
         then n else 0)
    (windows (snd (AllowN fw key n created now)) !! key).
Proof.
  intros Hl Hw Hab Hn HT Hacc.
  assert (account a b (window fw) (limit fw) now S
            (Some (current fw key created now))
          /\ resetTime (current fw key created now) - window fw <= now
             <= resetTime (current fw key created now))
    as [Hcur Hnow].
  { unfold current, GoTime.After, GoTime.Add.
    destruct (windows fw !! key) as [fwd|]; simpl in *.
    - destruct (Z.ltb_spec (resetTime fwd) now); simpl; [|split; lia].
      split; [|lia]. repeat split; try lia.
    - subst S.
      destruct (Z.ltb_spec (created + window fw) now); simpl; split; lia. }
  unfold AllowN.
  set (fwd := current fw key created now) in *. clearbody fwd.
  simpl in Hcur.
  rewrite wrap_small by int_lia.
  unfold within.
  destruct (Z.leb_spec (count fwd + n) (limit fw)) as [Hok|Hno]; simpl;
    rewrite lookup_insert_eq; simpl.
  - destruct (Z.leb_spec a now), (Z.leb_spec now b); simpl; lia.
  - rewrite Z.add_0_r. lia.
Qed.

Lemma AllowN_account_other a b T S fw key k n created now :
  k <> key -> T <= now ->
  account a b (window fw) (limit fw) T S (windows fw !! key) ->
  account a b (window fw) (limit fw) now S
    (windows (snd (AllowN fw k n created now)) !! key).
Proof.
  intros Hk HT Hacc. unfold AllowN.
  destruct (_ <=? _); simpl; rewrite lookup_insert_ne by done;
    (destruct (windows fw !! key) as [fwd|]; simpl in *; [lia|done]).
Qed.

Lemma perform_window_fixed fw c : window (perform fw c) = window fw.
Proof. destruct c; simpl; unfold Allow, AllowN; try done;
  by destruct (_ <=? _). Qed.

Lemma admitted_account key a b L W calls : forall T S fw,
  limit fw = L -> window fw = W ->
  0 <= L -> 0 <= W -> b - a <= W ->
  naturalAmounts L calls = true ->
  nondecreasing (T :: concat (readings <$> calls)) = true ->
  neverReset key calls = true ->
  account a b W L T S (windows fw !! key) ->
  S + admittedIn key a b calls (answers fw calls) <= 2 * L.
Proof.
  induction calls as [|c calls IH];
    intros T S fw HL HW Hl Hw Hab Hn Hclock Hreset Hacc.
  - simpl. destruct (windows fw !! key); simpl in Hacc; lia.
  - pose proof (perform_limit_fixed fw c) as HL'. rewrite HL in HL'.
    pose proof (perform_window_fixed fw c) as HW'. rewrite HW in HW'.
    apply andb_true_iff in Hn as [Hn1 Hn].
    apply andb_true_iff in Hreset as [Hr1 Hreset].
    subst L W.
    destruct c as [k created now|k n created now|k];
      cbn [answers admittedIn fmap list_fmap concat readings app perform
           amount] in *.
    + apply nondecreasing_cons in Hclock as [Hclock H1].
      apply nondecreasing_cons in Hclock as [Hclock H2].
      unfold Allow in *. rewrite Z.add_assoc.
      apply (IH now); try done; try lia.
      destruct (String.eqb_spec k key) as [->|Hne].
      * rewrite andb_true_r.
        apply (AllowN_account a b T); [done|done|done|int_lia|lia|done].
      * rewrite andb_false_r, Z.add_0_r.
        apply (AllowN_account_other a b T); [done|lia|done].
    + apply nondecreasing_cons in Hclock as [Hclock H1].
      apply nondecreasing_cons in Hclock as [Hclock H2].
      rewrite Z.add_assoc.
      apply (IH now); try done; try lia.
      destruct (String.eqb_spec k key) as [->|Hne].
      * rewrite andb_true_r.
        apply (AllowN_account a b T); [done|done|done|int_lia|lia|done].
      * rewrite andb_false_r, Z.add_0_r.
        apply (AllowN_account_other a b T); [done|lia|done].
    + apply (IH T); try done; try lia. simpl.
      rewrite lookup_delete_ne; [done|].
      intros ->. by rewrite String.eqb_refl in Hr1.
Qed.

(** X13. A fixed window limiter never admits more than twice [limit]
    requests of one key at times at most [window] apart: over any
    sequence of calls in which the key is not [Reset], the amounts of
    the key's calls at the times from [a] to [b] that were answered true
    add up to at most [2 * limit], whenever [b - a <= window]. Such
    times meet at most two of the key's windows, each of which admits at
    most [limit]. *)
Theorem FixedWindow_window_bound limit window key a b calls :
  0 <= limit -> 0 <= window ->
  naturalAmounts limit calls = true ->
  nondecreasing (concat (readings <$> calls)) = true ->
  neverReset key calls = true ->
  b - a <= window ->
  admittedIn key a b calls (answers (NewFixedWindow limit window) calls)
  <= 2 * limit.
Proof.
  intros Hl Hw Hn Hclock Hreset Hab.
  pose proof (admitted_account key a b limit window calls
                (hd 0 (concat (readings <$> calls))) 0
                (NewFixedWindow limit window) eq_refl eq_refl Hl Hw Hab Hn
                (nondecreasing_hd 0 _ Hclock) Hreset) as Hadm.
  rewrite Z.add_0_l in Hadm. apply Hadm. simpl. by rewrite lookup_empty.
Qed.

End FixedBound.

Lemma FixedWindow_window_bound_witness :
  let t := GoTime.Date 2024 1 1 12 0 0 in
  let calls :=
    [ FixedWindow.CallAllowN "a" 2 t t;
      FixedWindow.CallAllow "a" (t + 1) (t + 1);
      FixedWindow.CallAllowN "a" 2 (t + Duration.Minute + 1)
        (t + Duration.Minute + 1);
      FixedWindow.CallAllow "b" (t + Duration.Minute + 2)
        (t + Duration.Minute + 2) ] in
  FixedRuns.admittedIn "a" (t + 2) (t + Duration.Minute + 2) calls
    (FixedRuns.answers (FixedWindow.NewFixedWindow 2 Duration.Minute) calls)
  <= 2 * 2.
Proof.
  intros t calls.
  apply (FixedWindow_window_bound 2 Duration.Minute "a" (t + 2)
           (t + Duration.Minute + 2) calls);
    [lia|vm_compute; discriminate|reflexivity|reflexivity|reflexivity|lia].
Defined.

(** ** Keys do not meet *)

Section KeysApart.

Lemma TokenBucket_AllowN_local tb tb' key n created now :
  TokenBucket.rate tb = TokenBucket.rate tb' ->
  TokenBucket.capacity tb = TokenBucket.capacity tb' ->
  TokenBucket.buckets tb !! key = TokenBucket.buckets tb' !! key ->
  fst (TokenBucket.AllowN tb key n created now)
  = fst (TokenBucket.AllowN tb' key n created now)
  /\ TokenBucket.buckets (snd (TokenBucket.AllowN tb key n created now)) !! key
     = TokenBucket.buckets (snd (TokenBucket.AllowN tb' key n created now))
       !! key.
Proof.
  intros Hr Hc Hk. unfold TokenBucket.AllowN, TokenBucket.getBucket.
  rewrite Hk. unfold TokenBucket.refill. rewrite Hr, Hc.
  destruct (Qgeb _ _); simpl; by rewrite !lookup_insert_eq.
Qed.

Lemma TokenBucket_answersFor key calls : forall tb tb',
  TokenBucket.rate tb = TokenBucket.rate tb' ->
  TokenBucket.capacity tb = TokenBucket.capacity tb' ->
  TokenBucket.buckets tb !! key = TokenBucket.buckets tb' !! key ->
  BucketRuns.answersFor key calls (BucketRuns.answers tb calls)
  = BucketRuns.answers tb' (List.filter (BucketRuns.concerns key) calls).
Proof.
  induction calls as [|c calls IH]; intros tb tb' Hr Hc Hk; [done|].
  pose proof (perform_rate tb c) as Hr1.
  pose proof (perform_capacity tb c) as Hc1.
  destruct c as [k created now|k n created now|k|now];
    cbn [BucketRuns.answersFor BucketRuns.answers List.filter
         BucketRuns.concerns TokenBucket.perform] in *.
  - unfold TokenBucket.Allow in *.
    destruct (String.eqb_spec k key) as [->|Hne].
    + destruct (TokenBucket_AllowN_local tb tb' key 1 created now Hr Hc Hk)
        as [Hfst Hsnd].
      cbn [BucketRuns.answers TokenBucket.perform]. unfold TokenBucket.Allow.
      rewrite Hfst. f_equal. apply IH; try done.
      * rewrite Hr1, Hr. unfold TokenBucket.AllowN. by destruct (Qgeb _ _).
      * rewrite Hc1, Hc. unfold TokenBucket.AllowN. by destruct (Qgeb _ _).
    + apply IH; [lia|lia|]. rewrite <- Hk. unfold TokenBucket.AllowN.
      destruct (Qgeb _ _); simpl; by rewrite lookup_insert_ne.
  - destruct (String.eqb_spec k key) as [->|Hne].
    + destruct (TokenBucket_AllowN_local tb tb' key n created now Hr Hc Hk)
        as [Hfst Hsnd].
      cbn [BucketRuns.answers TokenBucket.perform].
      rewrite Hfst. f_equal. apply IH; try done.
      * rewrite Hr1, Hr. unfold TokenBucket.AllowN. by destruct (Qgeb _ _).
      * rewrite Hc1, Hc. unfold TokenBucket.AllowN. by destruct (Qgeb _ _).
    + apply IH; [lia|lia|]. rewrite <- Hk. unfold TokenBucket.AllowN.
      destruct (Qgeb _ _); simpl; by rewrite lookup_insert_ne.
  - destruct (String.eqb_spec k key) as [->|Hne].
    + cbn [BucketRuns.answers TokenBucket.perform].
      apply IH; try done. simpl. by rewrite !lookup_delete_eq.
    + apply IH; try done. simpl. by rewrite lookup_delete_ne.
  - cbn [BucketRuns.answers TokenBucket.perform].
    apply IH; try done. simpl. rewrite !map_lookup_filter, Hk. done.
Qed.

Lemma SlidingWindow_AllowN_local sw sw' key n now :
  SlidingWindow.limit sw = SlidingWindow.limit sw' ->
  SlidingWindow.window sw = SlidingWindow.window sw' ->
  SlidingWindow.windows sw !! key = SlidingWindow.windows sw' !! key ->
  fst (SlidingWindow.AllowN sw key n now)
  = fst (SlidingWindow.AllowN sw' key n now)
  /\ SlidingWindow.windows (snd (SlidingWindow.AllowN sw key n now)) !! key
     = SlidingWindow.windows (snd (SlidingWindow.AllowN sw' key n now)) !! key.
Proof.
  intros Hl Hw Hk. unfold SlidingWindow.AllowN, SlidingWindow.validRequests.
  rewrite Hk, Hl, Hw.
  destruct (_ <=? _); simpl; by rewrite !lookup_insert_eq.
Qed.

Lemma SlidingWindow_answersFor key calls : forall sw sw',
  SlidingWindow.limit sw = SlidingWindow.limit sw' ->
  SlidingWindow.window sw = SlidingWindow.window sw' ->
  SlidingWindow.windows sw !! key = SlidingWindow.windows sw' !! key ->
  SlidingReference.answersFor key calls (SlidingReference.answers sw calls)
  = SlidingReference.answers sw'
      (List.filter (SlidingReference.concerns key) calls).
Proof.
  induction calls as [|c calls IH]; intros sw sw' Hl Hw Hk; [done|].
  pose proof (perform_limit sw c) as Hl1.
  pose proof (perform_window sw c) as Hw1.
  destruct c as [k now|k n now|k|now];
    cbn [SlidingReference.answersFor SlidingReference.answers List.filter
         SlidingReference.concerns SlidingWindow.perform] in *.
  - unfold SlidingWindow.Allow in *.
    destruct (String.eqb_spec k key) as [->|Hne].
    + destruct (SlidingWindow_AllowN_local sw sw' key 1 now Hl Hw Hk)
        as [Hfst Hsnd].
      cbn [SlidingReference.answers SlidingWindow.perform].
      unfold SlidingWindow.Allow.
      rewrite Hfst. f_equal. apply IH; try done.
      * rewrite Hl1, Hl. unfold SlidingWindow.AllowN. by destruct (_ <=? _).
      * rewrite Hw1, Hw. unfold SlidingWindow.AllowN. by destruct (_ <=? _).
    + apply IH; [lia|lia|]. rewrite <- Hk. unfold SlidingWindow.AllowN.
      destruct (_ <=? _); simpl; by rewrite lookup_insert_ne.
  - destruct (String.eqb_spec k key) as [->|Hne].
    + destruct (SlidingWindow_AllowN_local sw sw' key n now Hl Hw Hk)
        as [Hfst Hsnd].
      cbn [SlidingReference.answers SlidingWindow.perform].
      rewrite Hfst. f_equal. apply IH; try done.
      * rewrite Hl1, Hl. unfold SlidingWindow.AllowN. by destruct (_ <=? _).
      * rewrite Hw1, Hw. unfold SlidingWindow.AllowN. by destruct (_ <=? _).
    + apply IH; [lia|lia|]. rewrite <- Hk. unfold SlidingWindow.AllowN.
      destruct (_ <=? _); simpl; by rewrite lookup_insert_ne.
  - destruct (String.eqb_spec k key) as [->|Hne].
    + cbn [SlidingReference.answers SlidingWindow.perform].
      apply IH; try done. simpl. by rewrite !lookup_delete_eq.
    + apply IH; try done. simpl. by rewrite lookup_delete_ne.
  - cbn [SlidingReference.answers SlidingWindow.perform].
    apply IH; try done. simpl. rewrite !map_lookup_filter, Hk, Hw. done.
Qed.

Lemma FixedWindow_AllowN_local fw fw' key n created now :
  FixedWindow.limit fw = FixedWindow.limit fw' ->
  FixedWindow.window fw = FixedWindow.window fw' ->
  FixedWindow.windows fw !! key = FixedWindow.windows fw' !! key ->
  fst (FixedWindow.AllowN fw key n created now)
  = fst (FixedWindow.AllowN fw' key n created now)
  /\ FixedWindow.windows (snd (FixedWindow.AllowN fw key n created now)) !! key
     = FixedWindow.windows (snd (FixedWindow.AllowN fw' key n created now))
       !! key.
Proof.
  intros Hl Hw Hk. unfold FixedWindow.AllowN, FixedWindow.current.
  rewrite Hk, Hl, Hw.
  destruct (_ <=? _); simpl; by rewrite !lookup_insert_eq.
Qed.

Lemma FixedWindow_answersFor key calls : forall fw fw',
  FixedWindow.limit fw = FixedWindow.limit fw' ->
  FixedWindow.window fw = FixedWindow.window fw' ->
  FixedWindow.windows fw !! key = FixedWindow.windows fw' !! key ->
  FixedRuns.answersFor key calls (FixedRuns.answers fw calls)
  = FixedRuns.answers fw' (List.filter (FixedRuns.concerns key) calls).
Proof.
  induction calls as [|c calls IH]; intros fw fw' Hl Hw Hk; [done|].
  pose proof (perform_limit_fixed fw c) as Hl1.
  pose proof (perform_window_fixed fw c) as Hw1.
  destruct c as [k created now|k n created now|k];
    cbn [FixedRuns.answersFor FixedRuns.answers List.filter
         FixedRuns.concerns FixedWindow.perform] in *.
  - unfold FixedWindow.Allow in *.
    destruct (String.eqb_spec k key) as [->|Hne].
    + destruct (FixedWindow_AllowN_local fw fw' key 1 created now Hl Hw Hk)
        as [Hfst Hsnd].
      cbn [FixedRuns.answers FixedWindow.perform].
      unfold FixedWindow.Allow.
      rewrite Hfst. f_equal. apply IH; try done.
      * rewrite Hl1, Hl. unfold FixedWindow.AllowN. by destruct (_ <=? _).
      * rewrite Hw1, Hw. unfold FixedWindow.AllowN. by destruct (_ <=? _).
    + apply IH; [lia|lia|]. rewrite <- Hk. unfold FixedWindow.AllowN.
      destruct (_ <=? _); simpl; by rewrite lookup_insert_ne.
  - destruct (String.eqb_spec k key) as [->|Hne].
    + destruct (FixedWindow_AllowN_local fw fw' key n created now Hl Hw Hk)
        as [Hfst Hsnd].
      cbn [FixedRuns.answers FixedWindow.perform].
      rewrite Hfst. f_equal. apply IH; try done.
      * rewrite Hl1, Hl. unfold FixedWindow.AllowN. by destruct (_ <=? _).
      * rewrite Hw1, Hw. unfold FixedWindow.AllowN. by destruct (_ <=? _).
    + apply IH; [lia|lia|]. rewrite <- Hk. unfold FixedWindow.AllowN.
      destruct (_ <=? _); simpl; by rewrite lookup_insert_ne.
  - destruct (String.eqb_spec k key) as [->|Hne].
    + cbn [FixedRuns.answers FixedWindow.perform].
      apply IH; try done. simpl. by rewrite !lookup_delete_eq.
    + apply IH; try done. simpl. by rewrite lookup_delete_ne.
Qed.

(** X14. The keys of a limiter do not meet: in any sequence of calls on
    any of the three limiters, in any state, the answers to the calls on
    one key are the answers the limiter gives when the calls on all the
    other keys are left out (the sweeps of [gc] kept). *)
Theorem limiters_keep_keys_apart key :
  (forall tb calls,
     BucketRuns.answersFor key calls (BucketRuns.answers tb calls)
     = BucketRuns.answers tb (List.filter (BucketRuns.concerns key) calls))
  /\ (forall sw calls,
        SlidingReference.answersFor key calls
          (SlidingReference.answers sw calls)
        = SlidingReference.answers sw
            (List.filter (SlidingReference.concerns key) calls))
  /\ (forall fw calls,
        FixedRuns.answersFor key calls (FixedRuns.answers fw calls)
        = FixedRuns.answers fw (List.filter (FixedRuns.concerns key) calls)).
Proof.
  split; [|split]; intros l calls.
  - by apply TokenBucket_answersFor.
  - by apply SlidingWindow_answersFor.
  - by apply FixedWindow_answersFor.
Qed.

End KeysApart.

(** ** What [GetStats] of a sliding window reports *)

Section SlidingStats.

Import SlidingWindow.

(** X15. After any sequence of calls on a sliding window limiter,
    [GetStats(key)] reports the number of the key's requests still in
    the window and, as [remaining], the limit less that number, which
    is from 0 to the limit; and [AllowN(key, n)] at the same instant
    returns true exactly when [n] is at most [remaining]. *)
Theorem GetStats_remaining limit window calls key n now :
  0 <= limit <= GoInt.max_int ->
  boundedAmounts limit calls = true ->
  GoInt.min_int <= n <= GoInt.max_int - limit ->
  let sw := run (NewSlidingWindow limit window) calls in
  let st := GetStats sw key now in
  stats_requests st = Z.of_nat (length (validRequests sw key now))
  /\ stats_limit st = limit
  /\ stats_requests st + stats_remaining st = limit
  /\ 0 <= stats_remaining st <= limit
  /\ fst (AllowN sw key n now) = (n <=? stats_remaining st).
Proof.
  intros Hl Hb Hn sw st.
  pose proof (run_limit_sliding calls (NewSlidingWindow limit window))
    as Hlim.
  assert (requestsWithinLimit sw) as Hinv.
  { apply run_requestsWithinLimit; [simpl; lia|done|]. intros k rs. simpl.
    by rewrite lookup_empty. }
  fold sw in Hlim. simpl in Hlim.
  pose proof (validRequests_le sw key now ltac:(lia) Hinv) as Hvalid.
  assert (stats_requests st = Z.of_nat (length (validRequests sw key now))
          /\ stats_limit st = limit
          /\ stats_remaining st
             = limit - Z.of_nat (length (validRequests sw key now)))
    as (Hreq & Hsl & Hrem).
  { subst st. unfold GetStats, validRequests.
    destruct (windows sw !! key) as [rs|] eqn:Hk; simpl.
    - rewrite Hlim. split; [done|]. split; [done|].
      apply wrap_small. unfold validRequests in Hvalid.
      rewrite Hk in Hvalid. simpl in Hvalid. int_lia.
    - rewrite Hlim. split; [done|]. split; [done|]. lia. }
  rewrite Hreq, Hsl, Hrem.
  split; [done|]. split; [done|]. split; [lia|]. split; [lia|].
  unfold AllowN. rewrite wrap_small by int_lia. rewrite Hlim.
  destruct (Z.leb_spec (Z.of_nat (length (validRequests sw key now)) + n) limit),
    (Z.leb_spec n (limit - Z.of_nat (length (validRequests sw key now))));
    simpl; try done; lia.
Qed.

End SlidingStats.

Lemma GetStats_remaining_witness :
  let t := GoTime.Date 2024 1 1 12 0 0 in
  let calls :=
    [ SlidingWindow.CallAllow "a" t;
      SlidingWindow.CallAllowN "a" 2 (t + 1);
      SlidingWindow.CallAllow "b" (t + 2) ] in
  let sw := SlidingWindow.run
              (SlidingWindow.NewSlidingWindow 5 Duration.Minute) calls in
  let st := SlidingWindow.GetStats sw "a" (t + 3) in
  SlidingWindow.stats_requests st
  = Z.of_nat (length (SlidingWindow.validRequests sw "a" (t + 3)))
  /\ SlidingWindow.stats_limit st = 5
  /\ SlidingWindow.stats_requests st + SlidingWindow.stats_remaining st = 5
  /\ 0 <= SlidingWindow.stats_remaining st <= 5
  /\ fst (SlidingWindow.AllowN sw "a" 2 (t + 3))
     = (2 <=? SlidingWindow.stats_remaining st).
Proof.
  intros t calls.
  apply (GetStats_remaining 5 Duration.Minute calls "a" 2 (t + 3));
    [vm_compute; split; discriminate|reflexivity
    |vm_compute; split; discriminate].
Defined.

(** ** When a fixed window ends *)

Section FixedReset.

Import FixedWindow FixedRuns.

Lemma AllowN_window_started fw key n created now T :
  0 <= window fw -> T <= created <= now ->
  (forall k fwd, windows fw !! k = Some fwd ->
     resetTime fwd - window fw <= T) ->
  (forall k fwd,
     windows (snd (AllowN fw key n created now)) !! k = Some fwd ->
     resetTime fwd - window fw <= now)
  /\ exists fwd,
       windows (snd (AllowN fw key n created now)) !! key = Some fwd
       /\ now <= resetTime fwd <= now + window fw.
Proof.
  intros Hw HT Hinv.
  assert (now <= resetTime (current fw key created now) <= now + window fw)
    as Hcur.
  { unfold current, GoTime.After, GoTime.Add.
    destruct (windows fw !! key) as [fwd|] eqn:Hk; simpl.
    - specialize (Hinv key fwd Hk).
      destruct (Z.ltb_spec (resetTime fwd) now); simpl; lia.
    - destruct (Z.ltb_spec (created + window fw) now); simpl; lia. }
  unfold AllowN. set (cur := current fw key created now) in *. clearbody cur.
  destruct (_ <=? _); simpl; (split; [intros k fwd|]).
  - destruct (decide (key = k)) as [<-|Hne].
    + rewrite lookup_insert_eq. intros [= <-]. simpl. lia.
    + rewrite lookup_insert_ne by done. intros Hk.
      specialize (Hinv k fwd Hk). lia.
  - eexists. rewrite lookup_insert_eq. split; [done|]. simpl. lia.
  - destruct (decide (key = k)) as [<-|Hne].
    + rewrite lookup_insert_eq. intros [= <-]. lia.
    + rewrite lookup_insert_ne by done. intros Hk.
      specialize (Hinv k fwd Hk). lia.
  - eexists. rewrite lookup_insert_eq. split; [done|]. lia.
Qed.

Lemma run_window_started W calls : forall fw T,
  window fw = W -> 0 <= W ->
  nondecreasing (T :: concat (readings <$> calls)) = true ->
  (forall k fwd, windows fw !! k = Some fwd -> resetTime fwd - W <= T) ->
  window (run fw calls) = W
  /\ forall k fwd, windows (run fw calls) !! k = Some fwd ->
       resetTime fwd - W <= List.last (concat (readings <$> calls)) T.
Proof.
  induction calls as [|c calls IH]; intros fw T HW Hw Hclock Hinv; [done|].
  pose proof (perform_window_fixed fw c) as HW'. rewrite HW in HW'.
  assert (forall ts : list GoTime.Time, forall a d,
            List.last (a :: ts) d = List.last ts a) as Hlast.
  { intros ts. induction ts as [|x ts IHts]; intros a d; [done|].
    change (List.last (a :: x :: ts) d) with (List.last (x :: ts) d).
    by rewrite !IHts. }
  subst W.
  destruct c as [k created now|k n created now|k];
    cbn [run fold_left fmap list_fmap concat readings app perform] in *.
  - apply nondecreasing_cons in Hclock as [Hclock H1].
    apply nondecreasing_cons in Hclock as [Hclock H2].
    rewrite !Hlast. unfold Allow in *.
    apply (IH _ now); try done.
    apply (AllowN_window_started fw k 1 created now T); [done|lia|done].
  - apply nondecreasing_cons in Hclock as [Hclock H1].
    apply nondecreasing_cons in Hclock as [Hclock H2].
    rewrite !Hlast.
    apply (IH _ now); try done.
    apply (AllowN_window_started fw k n created now T); [done|lia|done].
  - apply (IH _ T); try done. intros k' fwd. simpl. intros Hk.
    apply lookup_delete_Some in Hk as [_ Hk]. by eapply Hinv.
Qed.

Lemma last_cons_default (ts : list GoTime.Time) a d :
  List.last (a :: ts) d = List.last ts a.
Proof.
  revert a d. induction ts as [|x ts IH]; intros a d; [done|].
  change (List.last (a :: x :: ts) d) with (List.last (x :: ts) d).
  by rewrite !IH.
Qed.

Lemma nondecreasing_snoc ts x y :
  nondecreasing (ts ++ [x; y]) = true ->
  nondecreasing ts = true /\ List.last ts x <= x /\ x <= y.
Proof.
  induction ts as [|t ts IH]; intros H.
  - simpl in H. apply andb_true_iff in H as [H _]. simpl. lia.
  - change ((t :: ts) ++ [x; y]) with (t :: (ts ++ [x; y])) in H.
    apply nondecreasing_cons in H as [H Ht].
    destruct (IH H) as (IH1 & IH2 & IH3).
    destruct ts as [|u ts]; simpl in *; [lia|].
    split; [|done]. rewrite IH1. apply andb_true_iff. split; [lia|done].
Qed.

(** X16. Right after an [AllowN(key, n)] at the time [now], whatever
    calls came before it, the window of the key ends between [now] and
    [now + window]: that is what [GetResetTime(key)] returns, so a
    caller told to wait until then never waits longer than one
    window. *)
Theorem GetResetTime_after_call limit window calls key n created now later :
  0 <= window ->
  nondecreasing (concat (readings <$> calls) ++ [created; now]) = true ->
  let fw := run (NewFixedWindow limit window)
              (calls ++ [CallAllowN key n created now]) in
  now <= GetResetTime fw key later <= now + window.
Proof.
  intros Hw Hclock fw. subst fw. unfold run. rewrite fold_left_app. simpl.
  fold (run (NewFixedWindow limit window) calls).
  set (ts := concat (readings <$> calls)) in *.
  destruct (nondecreasing_snoc ts created now Hclock) as (Hts & Hc & Hn).
  assert (List.last ts (hd created ts) <= created) as Hlast.
  { clearbody ts. destruct ts as [|t ts']; [simpl; lia|].
    simpl hd. by rewrite last_cons_default in *. }
  destruct (run_window_started window calls (NewFixedWindow limit window)
              (hd created ts) eq_refl Hw (nondecreasing_hd created ts Hts))
    as [HW Hinv].
  { intros k fwd. simpl. by rewrite lookup_empty. }
  fold ts in Hinv.
  destruct (AllowN_window_started (run (NewFixedWindow limit window) calls)
              key n created now (List.last ts (hd created ts)))
    as [_ (fwd & Hk & Hfwd)]; [lia|lia|by rewrite HW|].
  rewrite HW in Hfwd.
  unfold GetResetTime. rewrite Hk. lia.
Qed.

End FixedReset.

Lemma GetResetTime_after_call_witness :
  let t := GoTime.Date 2024 1 1 12 0 0 in
  let calls :=
    [ FixedWindow.CallAllowN "a" 2 t t;
      FixedWindow.CallAllow "b" (t + 1) (t + 1) ] in
  let fw := FixedWindow.run (FixedWindow.NewFixedWindow 2 Duration.Minute)
              (calls ++ [FixedWindow.CallAllowN "a" 1 (t + 2)
                           (t + 2 * Duration.Minute)]) in
  t + 2 * Duration.Minute
  <= FixedWindow.GetResetTime fw "a" (t + 3 * Duration.Minute)
  <= t + 2 * Duration.Minute + Duration.Minute.
Proof.
  intros t calls.
  apply (GetResetTime_after_call 2 Duration.Minute calls "a" 1 (t + 2)
           (t + 2 * Duration.Minute) (t + 3 * Duration.Minute));
    [vm_compute; discriminate|reflexivity].
Defined.

(** ** A key that was reset *)




(** ** The statistics of the scheduler *)

Section SchedulerStats.

Import TaskRegistry.
Context {H : Type}.





End SchedulerStats.


(** ** The calendar *)

Lemma absYearDay_range d :
  0 <= snd (GoTime.absYearDay d) <= 365
  /\ (snd (GoTime.absYearDay d) = 365 ->
      GoTime.isLeap (fst (GoTime.absYearDay d)) = true).
Proof.
  unfold GoTime.absYearDay, GoTime.daysPer400Years, GoTime.daysPer100Years,
    GoTime.daysPer4Years.
  change (365 * 400 + 97) with 146097. change (365 * 100 + 24) with 36524.
  change (365 * 4 + 1) with 1461.
  rewrite !Z.shiftr_div_pow2 by lia. change (2 ^ 2) with 4.
  cbv zeta. cbn [fst snd].
  set (n1 := d / 146097).
  set (d1 := d - 146097 * n1).
  set (n2 := d1 / 36524).
  set (d2 := d1 - 36524 * (n2 - n2 / 4)).
  set (n3 := d2 / 1461).
  set (d3 := d2 - 1461 * n3).
  set (n4 := d3 / 365).
  assert (0 <= d1 < 146097) as Hd1 by (subst d1 n1; Z.to_euclidean_division_equations; lia).
  assert (0 <= n2 <= 4) as Hn2 by (subst n2; Z.to_euclidean_division_equations; lia).
  assert (0 <= d2 <= 36524 /\ (n2 = 4 -> d2 = 36524)
          /\ (n2 < 4 -> d2 < 36524)) as (Hd2 & Hd2' & Hd2'').
  { subst d2 n2. Z.to_euclidean_division_equations. lia. }
  assert (0 <= n3 <= 24) as Hn3 by (subst n3; Z.to_euclidean_division_equations; lia).
  assert (0 <= d3 <= 1460 /\ (n3 = 24 -> d2 = 36524 -> d3 = 1460))
    as (Hd3 & Hd3').
  { subst d3 n3. Z.to_euclidean_division_equations. lia. }
  assert (0 <= n4 <= 4) as Hn4 by (subst n4; Z.to_euclidean_division_equations; lia).
  assert (0 <= d3 - 365 * (n4 - n4 / 4) <= 365
          /\ (d3 - 365 * (n4 - n4 / 4) = 365 -> n4 = 4 /\ d3 = 1460))
    as (Hd4 & Hd4').
  { subst n4. Z.to_euclidean_division_equations. lia. }
  split; [done|]. intros H365. destruct (Hd4' H365) as [Hn44 Hd31460].
  unfold GoTime.isLeap.
  replace (n4 - n4 / 4) with 3 by (rewrite Hn44; done).
  assert (d3 = d2 - 1461 * n3) as Ed3 by reflexivity.
  clearbody n1 d1 n2 d2 n3 d3 n4.
  assert (n2 - n2 / 4 = if n2 =? 4 then 3 else n2) as Hn2'.
  { destruct (Z.eqb_spec n2 4) as [->|]; [done|].
    assert (n2 / 4 = 0) by (apply Z.div_small; lia). lia. }
  rewrite Hn2'.
  set (y := 400 * n1 + 100 * (if n2 =? 4 then 3 else n2) + 4 * n3 + 3 + 1).
  assert (y mod 4 = 0) as H4.
  { subst y. destruct (n2 =? 4); Z.to_euclidean_division_equations; lia. }
  rewrite H4. simpl.
  destruct (Z.eqb_spec (y mod 100) 0) as [H100|H100]; [|done]. simpl.
  apply Z.eqb_eq.
  assert (n3 = 24) as Hn324.
  { subst y. destruct (n2 =? 4); Z.to_euclidean_division_equations; lia. }
  assert (d2 = 36524) as Hd2e by lia.
  assert (n2 = 4) as Hn24 by lia.
  subst y. rewrite Hn24, Hn324. simpl.
  Z.to_euclidean_division_equations. lia.
Qed.

Lemma monthDay_range year yday :
  0 <= yday <= 365 -> (yday = 365 -> GoTime.isLeap year = true) ->
  1 <= fst (GoTime.monthDay year yday) <= 12
  /\ 1 <= snd (GoTime.monthDay year yday) <= 31.
Proof.
  intros Hy Hleap. unfold GoTime.monthDay.
  destruct (GoTime.isLeap year && (yday =? 31 + 29 - 1)) eqn:Hfeb;
    [simpl; lia|].
  set (day := if GoTime.isLeap year && (yday >? 31 + 29 - 1)
              then yday - 1 else yday).
  assert (0 <= day <= 364) as Hday.
  { subst day. destruct (GoTime.isLeap year) eqn:Hl; simpl.
    - destruct (Z.gtb_spec yday (31 + 29 - 1)); lia.
    - assert (yday <> 365) by (intros H; discriminate (Hleap H)). lia. }
  clearbody day.
  assert (0 <= day / 31 <= 11) as Hm
    by (Z.to_euclidean_division_equations; lia).
  assert (31 * (day / 31) <= day < 31 * (day / 31) + 31) as Hdm
    by (Z.to_euclidean_division_equations; lia).
  set (m := day / 31) in *. clearbody m.
  assert (m = 0 \/ m = 1 \/ m = 2 \/ m = 3 \/ m = 4 \/ m = 5 \/ m = 6
          \/ m = 7 \/ m = 8 \/ m = 9 \/ m = 10 \/ m = 11) as Hcases by lia.
  repeat (destruct Hcases as [->|Hcases]); try subst m; simpl;
    match goal with
    | |- context [?a >=? ?b] => destruct (Z.geb_spec a b)
    end; simpl; lia.
Qed.

Lemma date_range t :
  0 <= GoTime.Minute t <= 59 /\ 0 <= GoTime.Hour t <= 23
  /\ 1 <= GoTime.Day t <= 31 /\ 1 <= GoTime.Month t <= 12
  /\ 0 <= GoTime.Weekday t <= 6.
Proof.
  assert (0 <= GoTime.secOfDay t < 86400) as Hs.
  { unfold GoTime.secOfDay, GoTime.secondsPerDay.
    apply Z.mod_pos_bound. lia. }
  unfold GoTime.Minute, GoTime.Hour, GoTime.Weekday.
  split; [Z.to_euclidean_division_equations; lia|].
  split; [Z.to_euclidean_division_equations; lia|].
  unfold GoTime.Day, GoTime.Month, GoTime.absDate.
  pose proof (absYearDay_range (GoTime.days t)) as [Hy Hl].
  destruct (GoTime.absYearDay (GoTime.days t)) as [year yday]. simpl in *.
  pose proof (monthDay_range year yday Hy Hl) as [Hm Hd].
  destruct (GoTime.monthDay year yday) as [m dd]. simpl in *.
  split; [done|]. split; [done|].
  Z.to_euclidean_division_equations. lia.
Qed.

(** ** The time presets of the task builder *)

Lemma isDigit_not_space c : isDigit c = true -> strings.isSpace c = false.
Proof. destruct c as [[] [] [] [] [] [] [] []]; (discriminate || done). Qed.

Lemma digits_no_space s :
  forallb isDigit s = true ->
  forallb (fun c => negb (strings.isSpace c)) s = true.
Proof.
  induction s as [|c s IH]; [done|]. simpl. intros H.
  apply andb_true_iff in H as [Hc Hs].
  by rewrite (isDigit_not_space c Hc), IH.
Qed.

Lemma render_word spec :
  render spec <> []
  /\ forallb (fun c => negb (strings.isSpace c)) (render spec) = true.
Proof.
  destruct spec as [|v]; [done|]. simpl.
  destruct (Z.lt_ge_cases v 0) as [Hv|Hv].
  - destruct (Itoa_neg v Hv) as (ds & -> & _ & Hd & _).
    split; [done|]. simpl. by apply digits_no_space.
  - destruct (Itoa_nonneg v Hv) as (Hne & Hd & _).
    split; [done|]. by apply digits_no_space.
Qed.

Lemma Fields_last w :
  w <> [] -> forallb (fun c => negb (strings.isSpace c)) w = true ->
  strings.Fields w = [w].
Proof.
  induction w as [|x w IH]; [done|]. intros _ Hw. simpl in Hw.
  apply andb_true_iff in Hw as [Hx Hw]. apply negb_true_iff in Hx.
  simpl. rewrite Hx. destruct w as [|y w]; [done|].
  assert (strings.isSpace y = false) as Hy.
  { simpl in Hw. apply andb_true_iff in Hw as [Hy _].
    by apply negb_true_iff in Hy. }
  rewrite Hy. by rewrite IH.
Qed.

Lemma Fields_word w rest :
  w <> [] -> forallb (fun c => negb (strings.isSpace c)) w = true ->
  strings.Fields (w ++ " "%char :: rest) = w :: strings.Fields rest.
Proof.
  induction w as [|x w IH]; [done|]. intros _ Hw. simpl in Hw.
  apply andb_true_iff in Hw as [Hx Hw]. apply negb_true_iff in Hx.
  cbn [app strings.Fields]. rewrite Hx. destruct w as [|y w]; [done|].
  assert (strings.isSpace y = false) as Hy.
  { simpl in Hw. apply andb_true_iff in Hw as [Hy _].
    by apply negb_true_iff in Hy. }
  cbn [app]. rewrite Hy.
  change (y :: w ++ " "%char :: rest) with ((y :: w) ++ " "%char :: rest).
  by rewrite IH.
Qed.

Lemma parseField_spec fuel lo hi spec :
  0 <= lo -> lo <= hi + 1 -> hi < GoInt.max_int ->
  (Z.to_nat (hi + 1 - lo) < fuel)%nat ->
  match parseField fuel (render spec) lo hi with
  | Ok vs => inRange lo hi spec = true /\ vs = valuesOf lo hi spec
  | Err _ => inRange lo hi spec = false
  | OutOfFuel => False
  end.
Proof.
  intros Hlo Hle Hhi Hfuel. destruct spec as [|v]; simpl.
  - rewrite (appendFrom_unit (Z.to_nat (hi + 1 - lo))); try done; int_lia.
  - rewrite parseField_not_star by apply Itoa_not_star.
    rewrite Split_none by apply Itoa_no_comma.
    unfold parseParts, parsePart, mbind, result_bind.
    destruct (Z.lt_ge_cases v 0) as [Hv|Hv].
    + destruct (Itoa_neg v Hv) as (ds & Hds & Hn). rewrite Hds.
      assert (strings.Contains ds "-" = false) as Hc
        by (by eapply Contains_numeral).
      change (strings.Contains ("-"%char :: ds) "-") with true. cbv iota.
      rewrite Split_cons_sep, Split_none by done. simpl. lia.
    + pose proof (Itoa_nonneg v Hv) as Hn.
      rewrite (Contains_numeral _ v "-"), (Contains_numeral _ v "/") by done.
      rewrite Atoi_Itoa. unfold GoInt.in_range.
      destruct ((GoInt.min_int <=? v) && (v <=? GoInt.max_int)) eqn:Hr.
      * destruct (Z.ltb_spec v lo), (Z.gtb_spec v hi),
          (Z.leb_spec lo v), (Z.leb_spec v hi); simpl; try lia; done.
      * destruct (Z.leb_spec lo v), (Z.leb_spec v hi); simpl; try done.
        exfalso. apply andb_false_iff in Hr as [Hr|Hr]; int_lia.
Qed.

Lemma ParseCron_specs fuel s0 s1 s2 s3 s4 :
  (60 < fuel)%nat ->
  parsesTo
    (ParseCron fuel
       (string_of_list_ascii
          (render s0 ++ " "%char :: render s1 ++ " "%char :: render s2
           ++ " "%char :: render s3 ++ " "%char :: render s4)))
    s0 s1 s2 s3 s4.
Proof.
  intros Hfuel. unfold ParseCron.
  rewrite list_ascii_of_string_of_list_ascii.
  destruct (render_word s0) as [Hn0 Hw0], (render_word s1) as [Hn1 Hw1],
    (render_word s2) as [Hn2 Hw2], (render_word s3) as [Hn3 Hw3],
    (render_word s4) as [Hn4 Hw4].
  rewrite !Fields_word, Fields_last by done.
  pose proof (parseField_spec fuel 0 59 s0) as H0.
  pose proof (parseField_spec fuel 0 23 s1) as H1.
  pose proof (parseField_spec fuel 1 31 s2) as H2.
  pose proof (parseField_spec fuel 1 12 s3) as H3.
  pose proof (parseField_spec fuel 0 6 s4) as H4.
  unfold parsesTo, expressionOf, mbind, result_bind, wrapErr.
  destruct (parseField fuel (render s0) 0 59) as [v0|e0|];
    [destruct H0 as [-> ->]; [lia|lia|int_lia|simpl; lia|]
    |rewrite H0; [done|lia|lia|int_lia|simpl; lia]
    |apply H0; [lia|lia|int_lia|simpl; lia]].
  destruct (parseField fuel (render s1) 0 23) as [v1|e1|];
    [destruct H1 as [-> ->]; [lia|lia|int_lia|simpl; lia|]
    |rewrite H1; [done|lia|lia|int_lia|simpl; lia]
    |apply H1; [lia|lia|int_lia|simpl; lia]].
  destruct (parseField fuel (render s2) 1 31) as [v2|e2|];
    [destruct H2 as [-> ->]; [lia|lia|int_lia|simpl; lia|]
    |rewrite H2; [done|lia|lia|int_lia|simpl; lia]
    |apply H2; [lia|lia|int_lia|simpl; lia]].
  destruct (parseField fuel (render s3) 1 12) as [v3|e3|];
    [destruct H3 as [-> ->]; [lia|lia|int_lia|simpl; lia|]
    |rewrite H3; [by rewrite andb_false_r|lia|lia|int_lia|simpl; lia]
    |apply H3; [lia|lia|int_lia|simpl; lia]].
  destruct (parseField fuel (render s4) 0 6) as [v4|e4|];
    [destruct H4 as [-> ->]; [lia|lia|int_lia|simpl; lia|]
    |rewrite H4; [by rewrite andb_false_r|lia|lia|int_lia|simpl; lia]
    |apply H4; [lia|lia|int_lia|simpl; lia]].
  done.
Qed.

(** X19. The time presets of the task builder give a schedule that
    [ParseCron] accepts exactly when their arguments are in range
    (minute 0-59, hour 0-23, day 1-31, weekday 0-6), a negative
    argument included; the expression then has the given minute, hour,
    day or weekday alone in its set and every value of the other
    fields. The presets without arguments are instances: [Hourly] is
    [HourlyAt(0)], [Daily] is [DailyAt(0, 0)], [Weekly] is
    [WeeklyOn(0, 0, 0)], [Monthly] is [MonthlyOn(1, 0, 0)], and
    [Yearly] is midnight of January 1. *)
Theorem time_presets_parse fuel minute hour day weekday :
  (60 < fuel)%nat ->
  parsesTo (ParseCron fuel (TaskBuilder.HourlyAt minute))
    (Exactly minute) Any Any Any Any
  /\ parsesTo (ParseCron fuel (TaskBuilder.DailyAt hour minute))
       (Exactly minute) (Exactly hour) Any Any Any
  /\ parsesTo (ParseCron fuel (TaskBuilder.WeeklyOn weekday hour minute))
       (Exactly minute) (Exactly hour) Any Any (Exactly weekday)
  /\ parsesTo (ParseCron fuel (TaskBuilder.MonthlyOn day hour minute))
       (Exactly minute) (Exactly hour) (Exactly day) Any Any
  /\ TaskBuilder.Hourly = TaskBuilder.HourlyAt 0
  /\ TaskBuilder.Daily = TaskBuilder.DailyAt 0 0
  /\ TaskBuilder.Weekly = TaskBuilder.WeeklyOn 0 0 0
  /\ TaskBuilder.Monthly = TaskBuilder.MonthlyOn 1 0 0
  /\ parsesTo (ParseCron fuel TaskBuilder.Yearly)
       (Exactly 0) (Exactly 0) (Exactly 1) (Exactly 1) Any.
Proof.
  intros Hfuel. split; [|split; [|split; [|split]]].
  - apply (ParseCron_specs fuel (Exactly minute) Any Any Any Any Hfuel).
  - apply (ParseCron_specs fuel (Exactly minute) (Exactly hour) Any Any Any
             Hfuel).
  - apply (ParseCron_specs fuel (Exactly minute) (Exactly hour) Any Any
             (Exactly weekday) Hfuel).
  - apply (ParseCron_specs fuel (Exactly minute) (Exactly hour) (Exactly day)
             Any Any Hfuel).
  - repeat (split; [reflexivity|]).
    apply (ParseCron_specs fuel (Exactly 0) (Exactly 0) (Exactly 1)
             (Exactly 1) Any Hfuel).
Qed.

Lemma time_presets_parse_witness :
  parsesTo (ParseCron 100 (TaskBuilder.HourlyAt 30))
    (Exactly 30) Any Any Any Any
  /\ parsesTo (ParseCron 100 (TaskBuilder.DailyAt 24 30))
       (Exactly 30) (Exactly 24) Any Any Any
  /\ parsesTo (ParseCron 100 (TaskBuilder.WeeklyOn 1 24 30))
       (Exactly 30) (Exactly 24) Any Any (Exactly 1)
  /\ parsesTo (ParseCron 100 (TaskBuilder.MonthlyOn (-1) 24 30))
       (Exactly 30) (Exactly 24) (Exactly (-1)) Any Any
  /\ TaskBuilder.Hourly = TaskBuilder.HourlyAt 0
  /\ TaskBuilder.Daily = TaskBuilder.DailyAt 0 0
  /\ TaskBuilder.Weekly = TaskBuilder.WeeklyOn 0 0 0
  /\ TaskBuilder.Monthly = TaskBuilder.MonthlyOn 1 0 0
  /\ parsesTo (ParseCron 100 TaskBuilder.Yearly)
       (Exactly 0) (Exactly 0) (Exactly 1) (Exactly 1) Any.
Proof. exact (time_presets_parse 100 30 24 (-1) 1 ltac:(lia)). Defined.

(** ** When a preset is next due *)

Lemma find_first {A} (P : A -> bool) (l1 l2 : list A) (x : A) :
  P x = true ->
  exists y, List.find P (l1 ++ x :: l2) = Some y /\ In y (l1 ++ [x]).
Proof.
  intros Hx. induction l1 as [|a l1 IH]; simpl.
  - rewrite Hx. exists x. split; [done|by left].
  - destruct (P a); [exists a; split; [done|by left]|].
    destruct IH as (y & Hy & Hin). exists y. split; [done|by right].
Qed.

Lemma candidates_split n k0 t :
  0 <= k0 < n ->
  exists later,
    candidates n t
    = candidates k0 t ++ GoTime.Add t (k0 * Duration.Minute) :: later.
Proof.
  intros Hk. unfold candidates. eexists.
  replace n with (k0 + (n - k0)) at 1 by lia.
  rewrite seqZ_app by lia. rewrite (seqZ_cons (0 + k0)) by lia.
  rewrite fmap_app, fmap_cons. rewrite Z.add_0_l. reflexivity.
Qed.

(** [Next] finds a due minute no later than any due minute of its
    search. *)
Lemma Next_bounded c from k0 :
  0 <= k0 < maxIterations ->
  matches c (GoTime.Add
               (GoTime.Add (GoTime.Truncate from Duration.Minute)
                  Duration.Minute) (k0 * Duration.Minute)) = true ->
  from < Next c from
       <= GoTime.Add
            (GoTime.Add (GoTime.Truncate from Duration.Minute)
               Duration.Minute) (k0 * Duration.Minute)
  /\ matches c (Next c from) = true
  /\ Next c from mod Duration.Minute = 0.
Proof.
  intros Hk Hdue.
  pose proof (Truncate_minute from) as [Hfrom _].
  pose proof (Next_aligned c from) as Hal.
  split; [|split; [|done]]; unfold Next in *; rewrite NextFrom_find in *;
    rewrite Z2Nat.id by done;
    set (start := GoTime.Add (GoTime.Truncate from Duration.Minute)
                    Duration.Minute) in *;
    destruct (candidates_split maxIterations k0 start Hk) as [later ->];
    destruct (find_first (matches c) (candidates k0 start) later _ Hdue)
      as (y & Hy & Hin); rewrite Hy; simpl.
  - apply in_app_or in Hin as [Hin|[<-|[]]].
    + apply list_elem_of_In, candidates_elem in Hin as (k & Hkin & ->).
      unfold GoTime.Add in *. rewrite minute_val in *. lia.
    + unfold GoTime.Add in *. rewrite minute_val in *. lia.
  - by apply List.find_some in Hy as [_ Hsome].
Qed.

Lemma contains_seqZ lo n x :
  lo <= x < lo + n -> contains (seqZ lo n) x = true.
Proof.
  intros Hx. apply contains_In, list_elem_of_In, elem_of_seqZ. lia.
Qed.

Lemma contains_singleton v x : contains [v] x = (v =? x).
Proof. simpl. by destruct (v =? x). Qed.

(** An expression for every day is due by the minute and the hour
    alone. *)
Lemma matches_every_day s0 s1 t :
  matches (expressionOf s0 s1 Any Any Any) t
  = contains (valuesOf 0 59 s0) (GoTime.Minute t)
    && contains (valuesOf 0 23 s1) (GoTime.Hour t).
Proof.
  pose proof (date_range t) as (_ & _ & Hd & Hm & Hw).
  unfold matches, expressionOf.
  cbn [minute hour dayOfMonth month dayOfWeek].
  unfold valuesOf at 3 4 5.
  rewrite !contains_seqZ by lia.
  by destruct (contains _ _), (contains _ _).
Qed.

(** The minute and the hour of the [x]th minute since the zero time. *)
Lemma time_of_minute x :
  GoTime.Minute (x * Duration.Minute) = x mod 60
  /\ GoTime.Hour (x * Duration.Minute) = (x mod 1440) / 60.
Proof.
  unfold GoTime.Minute, GoTime.Hour, GoTime.secOfDay, GoTime.secondsPerDay.
  rewrite minute_val, second_val.
  replace (x * 60000000000) with (x * 60 * 1000000000) by lia.
  rewrite Z.div_mul by lia.
  Z.to_euclidean_division_equations. lia.
Qed.

Lemma parsesTo_Ok r s0 s1 s2 s3 s4 :
  parsesTo r s0 s1 s2 s3 s4 ->
  inRange 0 59 s0 && inRange 0 23 s1 && inRange 1 31 s2
  && inRange 1 12 s3 && inRange 0 6 s4 = true ->
  r = Ok (expressionOf s0 s1 s2 s3 s4).
Proof.
  destruct r as [c|e|]; simpl; [|congruence|done].
  by intros [_ ->] _.
Qed.

(** X20. When the presets are next due. After [EveryMinute], [Next]
    is the minute that follows the one of [from]. After [HourlyAt] with
    a minute from 0 to 59, it is the one time later than [from] and at
    most an hour later that has that minute and zero seconds. After
    [DailyAt] with an hour from 0 to 23 and such a minute, it is the
    one time later than [from] and at most 24 hours later that has that
    hour, that minute and zero seconds. *)
Theorem time_presets_next fuel hour minute from :
  (60 < fuel)%nat -> 0 <= hour <= 23 -> 0 <= minute <= 59 ->
  (exists c,
     ParseCron fuel TaskBuilder.EveryMinute = Ok c
     /\ Next c from
        = GoTime.Add (GoTime.Truncate from Duration.Minute) Duration.Minute)
  /\ (exists c,
        ParseCron fuel (TaskBuilder.HourlyAt minute) = Ok c
        /\ from < Next c from <= GoTime.Add from Duration.Hour
        /\ GoTime.Minute (Next c from) = minute
        /\ GoTime.Second (Next c from) = 0
        /\ GoTime.Nanosecond (Next c from) = 0)
  /\ (exists c,
        ParseCron fuel (TaskBuilder.DailyAt hour minute) = Ok c
        /\ from < Next c from <= GoTime.Add from (24 * Duration.Hour)
        /\ GoTime.Hour (Next c from) = hour
        /\ GoTime.Minute (Next c from) = minute
        /\ GoTime.Second (Next c from) = 0
        /\ GoTime.Nanosecond (Next c from) = 0).
Proof.
  intros Hfuel Hh Hm.
  pose proof (Truncate_minute from) as [Hfrom Hal].
  set (start := GoTime.Add (GoTime.Truncate from Duration.Minute)
                  Duration.Minute) in *.
  assert (exists q, start = q * Duration.Minute) as [q Hq].
  { subst start. unfold GoTime.Add.
    apply Z.mod_divide in Hal as [q0 Hq0]; [|by rewrite minute_val].
    exists (q0 + 1). lia. }
  assert (forall k, GoTime.Add start (k * Duration.Minute)
                    = (q + k) * Duration.Minute) as Hcand
    by (intros k; unfold GoTime.Add; lia).
  split; [|split].
  - eexists. split.
    + apply (parsesTo_Ok _ Any Any Any Any Any); [|done].
      apply (ParseCron_specs fuel Any Any Any Any Any Hfuel).
    + destruct (Next_bounded (expressionOf Any Any Any Any Any) from 0)
        as (Hn & _ & Hmod).
      * unfold maxIterations. lia.
      * fold start. rewrite matches_every_day. unfold valuesOf.
        pose proof (date_range (GoTime.Add start (0 * Duration.Minute)))
          as (Hmi & Hho & _).
        rewrite !contains_seqZ by lia. done.
      * fold start in Hn. apply Z.mod_divide in Hmod as [p Hp];
          [|by rewrite minute_val].
        clear Hcand. subst start. unfold GoTime.Add in *.
        rewrite minute_val in *. lia.
  - eexists. split.
    + apply (parsesTo_Ok _ (Exactly minute) Any Any Any Any).
      * apply (ParseCron_specs fuel (Exactly minute) Any Any Any Any Hfuel).
      * simpl. lia.
    + set (c := expressionOf (Exactly minute) Any Any Any Any).
      destruct (Next_bounded c from ((minute - q) mod 60))
        as (Hn & Hdue & Hmod).
      * unfold maxIterations.
        pose proof (Z.mod_pos_bound (minute - q) 60 ltac:(lia)). lia.
      * fold start. rewrite Hcand. subst c. rewrite matches_every_day.
        destruct (time_of_minute (q + (minute - q) mod 60)) as [-> ->].
        unfold valuesOf. rewrite contains_singleton, contains_seqZ.
        -- rewrite andb_true_r. apply Z.eqb_eq.
           Z.to_euclidean_division_equations. lia.
        -- Z.to_euclidean_division_equations. lia.
      * fold start in Hn. rewrite Hcand in Hn.
        subst c. rewrite matches_every_day in Hdue.
        apply andb_true_iff in Hdue as [Hmin _].
        unfold valuesOf in Hmin. rewrite contains_singleton in Hmin.
        apply Z.eqb_eq in Hmin.
        destruct (minute_boundary _ Hmod) as [Hs Hns].
        split; [|by repeat split].
        pose proof (Z.mod_pos_bound (minute - q) 60 ltac:(lia)) as Hk.
        clear Hcand. subst start. unfold GoTime.Add in *.
        unfold Duration.Hour. rewrite minute_val in *. lia.
  - eexists. split.
    + apply (parsesTo_Ok _ (Exactly minute) (Exactly hour) Any Any Any).
      * apply (ParseCron_specs fuel (Exactly minute) (Exactly hour) Any Any
                 Any Hfuel).
      * simpl. lia.
    + set (c := expressionOf (Exactly minute) (Exactly hour) Any Any Any).
      destruct (Next_bounded c from ((60 * hour + minute - q) mod 1440))
        as (Hn & Hdue & Hmod).
      * unfold maxIterations.
        pose proof (Z.mod_pos_bound (60 * hour + minute - q) 1440
                      ltac:(lia)). lia.
      * fold start. rewrite Hcand. subst c. rewrite matches_every_day.
        destruct (time_of_minute (q + (60 * hour + minute - q) mod 1440))
          as [-> ->].
        unfold valuesOf. rewrite !contains_singleton.
        apply andb_true_iff. split; apply Z.eqb_eq;
          Z.to_euclidean_division_equations; lia.
      * fold start in Hn. rewrite Hcand in Hn.
        subst c. rewrite matches_every_day in Hdue.
        apply andb_true_iff in Hdue as [Hmin Hhour].
        unfold valuesOf in Hmin, Hhour.
        rewrite contains_singleton in Hmin, Hhour.
        apply Z.eqb_eq in Hmin, Hhour.
        destruct (minute_boundary _ Hmod) as [Hs Hns].
        split; [|by repeat split].
        pose proof (Z.mod_pos_bound (60 * hour + minute - q) 1440
                      ltac:(lia)) as Hk.
        clear Hcand. subst start. unfold GoTime.Add in *.
        unfold Duration.Hour. rewrite minute_val in *. lia.
Qed.

Lemma time_presets_next_witness :
  let from := GoTime.Date 2024 1 1 12 0 30 in
  (exists c,
     ParseCron 100 TaskBuilder.EveryMinute = Ok c
     /\ Next c from
        = GoTime.Add (GoTime.Truncate from Duration.Minute) Duration.Minute)
  /\ (exists c,
        ParseCron 100 (TaskBuilder.HourlyAt 30) = Ok c
        /\ from < Next c from <= GoTime.Add from Duration.Hour
        /\ GoTime.Minute (Next c from) = 30
        /\ GoTime.Second (Next c from) = 0
        /\ GoTime.Nanosecond (Next c from) = 0)
  /\ (exists c,
        ParseCron 100 (TaskBuilder.DailyAt 8 30) = Ok c
        /\ from < Next c from <= GoTime.Add from (24 * Duration.Hour)
        /\ GoTime.Hour (Next c from) = 8
        /\ GoTime.Minute (Next c from) = 30
        /\ GoTime.Second (Next c from) = 0
        /\ GoTime.Nanosecond (Next c from) = 0).
Proof.
  intros from.
  exact (time_presets_next 100 8 30 from ltac:(lia) ltac:(lia) ltac:(lia)).
Defined.

(** ** The IDs that [Do] gives *)



Section BuilderIDs.

Import TaskRegistry.
Context {H : Type}.


End BuilderIDs.


(** ** After a run *)

Lemma Next_cases c from :
  Next c from = GoTime.zero
  \/ (from < Next c from /\ matches c (Next c from) = true).
Proof.
  pose proof (Truncate_minute from) as [Hfrom _].
  unfold Next. rewrite NextFrom_find.
  destruct (List.find (matches c) _) as [u|] eqn:Hfind; [right|by left].
  apply List.find_some in Hfind as [Hin Hdue]. simpl. split; [|done].
  apply list_elem_of_In, candidates_elem in Hin as (k & Hk & ->).
  unfold GoTime.Add in *. rewrite minute_val in *. lia.
Qed.

Section AfterRun.

Import TaskRegistry.
Context {H : Type}.

(** X22. Runs do not queue up. When a run of a task with a cron
    expression ends at the clock reading [now], the task is left not
    running and its [NextRunAt] is either the zero time ([Next] found
    no due minute) or a due minute later than [now]; in the second case
    the tick dispatches the task again exactly from that minute on, so
    the occurrences that fell due while the handler ran are skipped. *)
Theorem runTask_reschedules (task : Task H) c err started ended now
  task' entry :
  cronExpr task = Some c ->
  runTask task err started ended now = Some (task', entry) ->
  IsRunning task' = false
  /\ LastRunAt task' = started
  /\ (NextRunAt task' = GoTime.zero
      \/ (now < NextRunAt task'
          /\ IsDue c (NextRunAt task') = true
          /\ forall tick,
               shouldRun task' tick = true <-> NextRunAt task' <= tick)).
Proof.
  intros Hc. unfold runTask.
  destruct (IsRunning task); [done|]. intros [= <- _]. rewrite Hc.
  cbn [IsRunning LastRunAt NextRunAt].
  split; [done|]. split; [done|].
  destruct (Next_cases c now) as [Hz|[Hlater Hdue]]; [by left|right].
  split; [done|]. split; [done|]. intros tick.
  unfold shouldRun. cbn [IsRunning cronExpr NextRunAt].
  rewrite Unix_ge_aligned by apply Next_aligned. apply Z.leb_le.
Qed.

End AfterRun.

Lemma runTask_reschedules_witness :
  let c := {| minute := [0]; hour := [8]; dayOfMonth := seqZ 1 31;
              month := seqZ 1 12; dayOfWeek := seqZ 0 7 |} in
  let task : TaskRegistry.Task unit :=
    {| TaskRegistry.ID := "backup"; TaskRegistry.Name := "nightly backup";
       TaskRegistry.Schedule := "0 8 * * *"; TaskRegistry.Handler := tt;
       TaskRegistry.LastRunAt := GoTime.zero;
       TaskRegistry.NextRunAt := GoTime.Date 2024 1 1 8 0 0;
       TaskRegistry.RunCount := 0; TaskRegistry.FailCount := 0;
       TaskRegistry.IsRunning := false; TaskRegistry.Description := "";
       TaskRegistry.cronExpr := Some c |} in
  let started := GoTime.Date 2024 1 1 8 0 1 in
  let now := GoTime.Date 2024 1 2 9 0 0 in
  exists task' entry,
    TaskRegistry.runTask task None started now now = Some (task', entry)
    /\ TaskRegistry.IsRunning task' = false
    /\ TaskRegistry.LastRunAt task' = started
    /\ (TaskRegistry.NextRunAt task' = GoTime.zero
        \/ (now < TaskRegistry.NextRunAt task'
            /\ IsDue c (TaskRegistry.NextRunAt task') = true
            /\ forall tick,
                 TaskRegistry.shouldRun task' tick = true
                 <-> TaskRegistry.NextRunAt task' <= tick)).
Proof.
  intros c task started now. eexists. eexists.
  split; [reflexivity|].
  eapply (runTask_reschedules task c None started now now); reflexivity.
Defined.

(** ** The key generators *)

Lemma append_String x (a b : string) : String x a +:+ b = String x (a +:+ b).
Proof. reflexivity. Qed.

Lemma append_empty (b : string) : "" +:+ b = b.
Proof. reflexivity. Qed.

(** Appending to a literal prefix, unfolded. *)
Ltac append_literal := rewrite ?append_String, ?append_empty in *.

Lemma app_assoc_string (a b c : string) : (a +:+ b) +:+ c = a +:+ (b +:+ c).
Proof.
  induction a as [|x a IH]; [done|]. rewrite !append_String. by f_equal.
Qed.

Lemma app_empty_r (a : string) : a +:+ "" = a.
Proof.
  induction a as [|x a IH]; [done|]. rewrite append_String. by f_equal.
Qed.

(** A colon-free prefix ends where the first colon stands. *)
Lemma colon_prefix s : forall s' t t',
  colonFree s = true -> colonFree s' = true ->
  (t = "" \/ exists r, t = String ":" r) ->
  (t' = "" \/ exists r, t' = String ":" r) ->
  s +:+ t = s' +:+ t' -> s = s' /\ t = t'.
Proof.
  induction s as [|x s IH]; intros s' t t' Hs Hs' Ht Ht' Heq.
  - destruct s' as [|y s']; append_literal; [done|].
    simpl in Hs'. apply andb_true_iff in Hs' as [Hy _].
    destruct Ht as [->|[r ->]]; [done|]. injection Heq as <- _.
    by rewrite Ascii.eqb_refl in Hy.
  - simpl in Hs. apply andb_true_iff in Hs as [Hx Hs].
    destruct s' as [|y s']; append_literal.
    + destruct Ht' as [->|[r ->]]; [done|]. injection Heq as -> _.
      by rewrite Ascii.eqb_refl in Hx.
    + simpl in Hs'. apply andb_true_iff in Hs' as [_ Hs'].
      injection Heq as -> Heq.
      destruct (IH s' t t' Hs Hs' Ht Ht' Heq) as [-> ->]. done.
Qed.

Lemma colonJoined_sep parts :
  colonJoined parts = "" \/ exists r, colonJoined parts = String ":" r.
Proof.
  destruct parts; simpl; [by left|right]. append_literal. by eexists.
Qed.

Lemma compositeFrom_later parts : forall i result,
  0 < i -> compositeFrom i parts result = result +:+ colonJoined parts.
Proof.
  induction parts as [|part rest IH]; intros i result Hi; simpl.
  - by rewrite app_empty_r.
  - destruct (Z.gtb_spec i 0); [|lia]. rewrite IH by lia.
    by rewrite !app_assoc_string.
Qed.

Lemma Composite_cons part rest :
  CompositeKeyGenerator (part :: rest) = part +:+ colonJoined rest.
Proof.
  unfold CompositeKeyGenerator. simpl. by rewrite compositeFrom_later.
Qed.

Lemma colonJoined_inj rest : forall rest',
  Forall (fun p => colonFree p = true) rest ->
  Forall (fun p => colonFree p = true) rest' ->
  colonJoined rest = colonJoined rest' -> rest = rest'.
Proof.
  induction rest as [|p rest IH]; intros rest' Hr Hr'.
  - destruct rest'; [done|]. simpl. append_literal. discriminate.
  - destruct rest' as [|p' rest']; [simpl; append_literal; discriminate|].
    apply Forall_cons in Hr as [Hp Hr]. apply Forall_cons in Hr' as [Hp' Hr'].
    simpl. append_literal. intros [= Heq].
    destruct (colon_prefix p p' (colonJoined rest) (colonJoined rest') Hp Hp'
                (colonJoined_sep rest) (colonJoined_sep rest') Heq)
      as [-> Hrest].
    f_equal. by apply IH.
Qed.

(** X23. The keys of the generators. An IP key and a user key
    determine the IP and the user, and keys of the three kinds never
    coincide. An endpoint key determines the method and the path when
    the methods hold no colon. A composite key is its parts joined by
    colons, so it determines the parts when there is at least one and
    none holds a colon; and the composite of "ip" and an address is
    that address's IP key, so composite keys can fall on the keys of
    the other generators. *)
Theorem key_generators a b m m' p p' parts parts' :
  colonFree m = true -> colonFree m' = true ->
  parts <> [] -> parts' <> [] ->
  Forall (fun part => colonFree part = true) parts ->
  Forall (fun part => colonFree part = true) parts' ->
  (IPKeyGenerator a = IPKeyGenerator b -> a = b)
  /\ (UserKeyGenerator a = UserKeyGenerator b -> a = b)
  /\ IPKeyGenerator a <> UserKeyGenerator b
  /\ IPKeyGenerator a <> EndpointKeyGenerator m p
  /\ UserKeyGenerator a <> EndpointKeyGenerator m p
  /\ (EndpointKeyGenerator m p = EndpointKeyGenerator m' p' ->
      m = m' /\ p = p')
  /\ (CompositeKeyGenerator parts = CompositeKeyGenerator parts' ->
      parts = parts')
  /\ CompositeKeyGenerator ["ip"; a] = IPKeyGenerator a
  /\ CompositeKeyGenerator ["endpoint"; m; p] = EndpointKeyGenerator m p.
Proof.
  intros Hm Hm' Hne Hne' Hparts Hparts'.
  unfold IPKeyGenerator, UserKeyGenerator, EndpointKeyGenerator.
  split; [intros Heq; by apply (inj (String.app "ip:")) in Heq|].
  split; [intros Heq; by apply (inj (String.app "user:")) in Heq|].
  split; [append_literal; discriminate|].
  split; [append_literal; discriminate|].
  split; [append_literal; discriminate|].
  split; [|split; [|split]].
  - intros Heq. apply (inj (String.app "endpoint:")) in Heq.
    append_literal.
    destruct (colon_prefix m m' (String ":" p) (String ":" p') Hm Hm'
                ltac:(right; by eexists) ltac:(right; by eexists) Heq)
      as [-> [= ->]].
    done.
  - destruct parts as [|q rest]; [done|].
    destruct parts' as [|q' rest']; [done|].
    rewrite !Composite_cons.
    apply Forall_cons in Hparts as [Hq Hrest].
    apply Forall_cons in Hparts' as [Hq' Hrest'].
    intros Heq.
    destruct (colon_prefix q q' (colonJoined rest) (colonJoined rest') Hq Hq'
                (colonJoined_sep rest) (colonJoined_sep rest') Heq)
      as [-> Hj].
    f_equal. by apply colonJoined_inj.
  - rewrite Composite_cons. simpl. append_literal. by rewrite app_empty_r.
  - rewrite Composite_cons. simpl. append_literal.
    by rewrite app_empty_r.
Qed.

Lemma key_generators_witness :
  (IPKeyGenerator "10.0.0.1" = IPKeyGenerator "10.0.0.2" ->
   "10.0.0.1" = "10.0.0.2")
  /\ (UserKeyGenerator "10.0.0.1" = UserKeyGenerator "10.0.0.2" ->
      "10.0.0.1" = "10.0.0.2")
  /\ IPKeyGenerator "10.0.0.1" <> UserKeyGenerator "10.0.0.2"
  /\ IPKeyGenerator "10.0.0.1" <> EndpointKeyGenerator "GET" "/a:b"
  /\ UserKeyGenerator "10.0.0.1" <> EndpointKeyGenerator "GET" "/a:b"
  /\ (EndpointKeyGenerator "GET" "/a:b" = EndpointKeyGenerator "POST" "/c" ->
      "GET" = "POST" /\ "/a:b" = "/c")
  /\ (CompositeKeyGenerator ["ip"; "x"] = CompositeKeyGenerator ["user"; "y"] ->
      ["ip"; "x"] = ["user"; "y"])
  /\ CompositeKeyGenerator ["ip"; "10.0.0.1"] = IPKeyGenerator "10.0.0.1"
  /\ CompositeKeyGenerator ["endpoint"; "GET"; "/a:b"]
     = EndpointKeyGenerator "GET" "/a:b".
Proof.
  apply (key_generators "10.0.0.1" "10.0.0.2" "GET" "POST" "/a:b" "/c"
           ["ip"; "x"] ["user"; "y"]);
    try reflexivity; try discriminate; repeat constructor.
Defined.

(** ** The step presets of the task builder *)

Lemma stepValues_length n : 1 <= n -> (length (stepValues 0 n 59) <= 60)%nat.
Proof.
  intros Hn. unfold stepValues. change (0 <=? 59) with true. cbv iota.
  rewrite Z.sub_0_r, length_fmap, length_seqZ.
  assert (59 / n <= 59) by (apply Z.div_le_upper_bound; lia).
  assert (0 <= 59 / n) by (apply Z.div_pos; lia). lia.
Qed.

Lemma contains_stepValues n x :
  1 <= n -> 0 <= x <= 59 ->
  contains (stepValues 0 n 59) x = true <-> x mod n = 0.
Proof.
  intros Hn Hx. rewrite contains_In, <- list_elem_of_In.
  unfold stepValues. change (0 <=? 59) with true. cbv iota.
  rewrite Z.sub_0_r, list_elem_of_fmap. split.
  - intros (k & -> & _). rewrite Z.add_0_l. apply Z.mod_mul. lia.
  - intros Hmod. exists (x / n). split.
    + apply Z.div_exact in Hmod; lia.
    + apply elem_of_seqZ.
      assert (0 <= x / n) by (apply Z.div_pos; lia).
      assert (x / n <= 59 / n) by (apply Z.div_le_mono; lia). lia.
Qed.

Lemma matches_minutes ms t :
  matches {| minute := ms; hour := seqZ 0 24; dayOfMonth := seqZ 1 31;
             month := seqZ 1 12; dayOfWeek := seqZ 0 7 |} t
  = contains ms (GoTime.Minute t).
Proof.
  pose proof (date_range t) as (_ & Hh & Hd & Hm & Hw).
  unfold matches. cbn [minute hour dayOfMonth month dayOfWeek].
  rewrite !contains_seqZ by lia. by destruct (contains _ _).
Qed.

Lemma ParseCron_every fuel n :
  1 <= n <= 59 -> (60 < fuel)%nat ->
  ParseCron fuel
    (string_of_list_ascii
       ("*"%char :: "/"%char :: strconv.Itoa n
        ++ list_ascii_of_string " * * * *"))
  = Ok {| minute := stepValues 0 n 59; hour := seqZ 0 24;
          dayOfMonth := seqZ 1 31; month := seqZ 1 12;
          dayOfWeek := seqZ 0 7 |}.
Proof.
  intros Hn Hfuel. unfold ParseCron.
  rewrite list_ascii_of_string_of_list_ascii.
  destruct (Itoa_nonneg n ltac:(lia)) as (Hne & Hd & _).
  change ("*"%char :: "/"%char :: strconv.Itoa n
          ++ list_ascii_of_string " * * * *")
    with (("*"%char :: "/"%char :: strconv.Itoa n)
          ++ " "%char :: ["*"%char] ++ " "%char :: ["*"%char]
          ++ " "%char :: ["*"%char] ++ " "%char :: ["*"%char]).
  rewrite !Fields_word, Fields_last
    by (try done; simpl; by apply digits_no_space).
  pose proof (stepValues_length n ltac:(lia)) as Hlen.
  rewrite parseField_star_step by (try int_lia; lia).
  unfold mbind, result_bind, wrapErr, parseField.
  rewrite (appendFrom_unit 24), (appendFrom_unit 31), (appendFrom_unit 12),
    (appendFrom_unit 7) by (try int_lia; try lia; done).
  done.
Qed.

(** X24. The step presets. [EveryFiveMinutes], [EveryTenMinutes],
    [EveryFifteenMinutes] and [EveryThirtyMinutes] give a schedule that
    [ParseCron] accepts, with the minutes 0, n, 2n, ... below 60 for
    n = 5, 10, 15, 30; and [Next] is then a time with zero seconds whose
    minute is a multiple of n, later than [from] and at most n minutes
    later. *)
Theorem step_presets_next fuel from :
  (60 < fuel)%nat ->
  Forall (fun '(preset, n) =>
            exists c,
              ParseCron fuel preset = Ok c
              /\ minute c = stepValues 0 n 59
              /\ from < Next c from
                      <= GoTime.Add from (n * Duration.Minute)
              /\ GoTime.Minute (Next c from) mod n = 0
              /\ GoTime.Second (Next c from) = 0
              /\ GoTime.Nanosecond (Next c from) = 0)
    [ (TaskBuilder.EveryFiveMinutes, 5); (TaskBuilder.EveryTenMinutes, 10);
      (TaskBuilder.EveryFifteenMinutes, 15);
      (TaskBuilder.EveryThirtyMinutes, 30) ].
Proof.
  intros Hfuel.
  pose proof (Truncate_minute from) as [Hfrom Hal].
  set (start := GoTime.Add (GoTime.Truncate from Duration.Minute)
                  Duration.Minute) in *.
  assert (exists q, start = q * Duration.Minute) as [q Hq].
  { subst start. unfold GoTime.Add.
    apply Z.mod_divide in Hal as [q0 Hq0]; [|by rewrite minute_val].
    exists (q0 + 1). lia. }
  assert (forall n, n = 5 \/ n = 10 \/ n = 15 \/ n = 30 ->
            exists c,
              ParseCron fuel
                (string_of_list_ascii
                   ("*"%char :: "/"%char :: strconv.Itoa n
                    ++ list_ascii_of_string " * * * *")) = Ok c
              /\ minute c = stepValues 0 n 59
              /\ from < Next c from
                      <= GoTime.Add from (n * Duration.Minute)
              /\ GoTime.Minute (Next c from) mod n = 0
              /\ GoTime.Second (Next c from) = 0
              /\ GoTime.Nanosecond (Next c from) = 0) as Hall.
  { intros n Hn. eexists. split; [apply ParseCron_every; lia|].
    split; [done|].
    set (c := {| minute := stepValues 0 n 59 |}).
    destruct (Next_bounded c from ((- q) mod n)) as (Hnext & Hdue & Hmod).
    - unfold maxIterations.
      pose proof (Z.mod_pos_bound (- q) n ltac:(lia)). lia.
    - fold start. replace (GoTime.Add start ((- q) mod n * Duration.Minute))
        with ((q + (- q) mod n) * Duration.Minute)
        by (unfold GoTime.Add; lia).
      subst c. rewrite matches_minutes.
      destruct (time_of_minute (q + (- q) mod n)) as [-> _].
      apply contains_stepValues; [lia| |].
      + pose proof (Z.mod_pos_bound (q + (- q) mod n) 60 ltac:(lia)). lia.
      + destruct Hn as [->|[->|[->| ->]]];
          Z.to_euclidean_division_equations; lia.
    - destruct (minute_boundary _ Hmod) as [Hs Hns].
      subst c. rewrite matches_minutes in Hdue.
      pose proof (date_range (Next {| minute := stepValues 0 n 59;
                                      hour := seqZ 0 24;
                                      dayOfMonth := seqZ 1 31;
                                      month := seqZ 1 12;
                                      dayOfWeek := seqZ 0 7 |} from))
        as (Hmin & _).
      apply contains_stepValues in Hdue; [|lia|done].
      split; [|by repeat split].
      pose proof (Z.mod_pos_bound (- q) n ltac:(lia)) as Hk.
      fold start in Hnext. subst start. unfold GoTime.Add in *.
      rewrite minute_val in *. split; [lia|]. nia. }
  repeat constructor.
  - apply (Hall 5). by left.
  - apply (Hall 10). right. by left.
  - apply (Hall 15). right. right. by left.
  - apply (Hall 30). right. right. by right.
Qed.

Lemma step_presets_next_witness :
  let from := GoTime.Date 2024 1 1 12 3 30 in
  Forall (fun '(preset, n) =>
            exists c,
              ParseCron 100 preset = Ok c
              /\ minute c = stepValues 0 n 59
              /\ from < Next c from
                      <= GoTime.Add from (n * Duration.Minute)
              /\ GoTime.Minute (Next c from) mod n = 0
              /\ GoTime.Second (Next c from) = 0
              /\ GoTime.Nanosecond (Next c from) = 0)
    [ (TaskBuilder.EveryFiveMinutes, 5); (TaskBuilder.EveryTenMinutes, 10);
      (TaskBuilder.EveryFifteenMinutes, 15);
      (TaskBuilder.EveryThirtyMinutes, 30) ].
Proof.
  intros from. exact (step_presets_next 100 from ltac:(lia)).
Defined.

(** ** The weekday presets of the task builder *)

Lemma ParseCron_weekdays fuel :
  (60 < fuel)%nat ->
  ParseCron fuel TaskBuilder.Weekdays
  = Ok {| minute := [0]; hour := [0]; dayOfMonth := seqZ 1 31;
          month := seqZ 1 12; dayOfWeek := [1; 2; 3; 4; 5] |}
  /\ ParseCron fuel TaskBuilder.Weekends
     = Ok {| minute := [0]; hour := [0]; dayOfMonth := seqZ 1 31;
             month := seqZ 1 12; dayOfWeek := [0; 6] |}.
Proof.
  intros Hfuel.
  assert (forall lo hi, appendFrom fuel lo hi 1 []
                        = parseField fuel ["*"%char] lo hi) as Hstar by done.
  split.
  - unfold ParseCron, TaskBuilder.Weekdays.
    change (strings.Fields (list_ascii_of_string "0 0 * * 1-5"))
      with [["0"%char]; ["0"%char]; ["*"%char]; ["*"%char];
            rangeTerm 1 5].
    cbv beta iota zeta.
    change (parseField fuel ["0"%char] 0 59) with (Ok (A:=list Z) [0]).
    change (parseField fuel ["0"%char] 0 23) with (Ok (A:=list Z) [0]).
    rewrite <- !Hstar.
    rewrite (appendFrom_unit 31 fuel 1 31 []) by first [lia|int_lia].
    rewrite (appendFrom_unit 12 fuel 1 12 []) by first [lia|int_lia].
    rewrite parseField_not_star by done.
    rewrite Split_none by apply rangeTerm_no_comma.
    unfold parseParts. rewrite parsePart_range by (try int_lia; simpl; lia).
    done.
  - unfold ParseCron, TaskBuilder.Weekends.
    change (strings.Fields (list_ascii_of_string "0 0 * * 0,6"))
      with [["0"%char]; ["0"%char]; ["*"%char]; ["*"%char];
            ["0"%char; ","%char; "6"%char]].
    cbv beta iota zeta.
    change (parseField fuel ["0"%char] 0 59) with (Ok (A:=list Z) [0]).
    change (parseField fuel ["0"%char] 0 23) with (Ok (A:=list Z) [0]).
    change (parseField fuel ["0"%char; ","%char; "6"%char] 0 6)
      with (Ok (A:=list Z) [0; 6]).
    rewrite <- !Hstar.
    rewrite (appendFrom_unit 31 fuel 1 31 []) by first [lia|int_lia].
    rewrite (appendFrom_unit 12 fuel 1 12 []) by first [lia|int_lia].
    done.
Qed.

(** X25. The weekday presets. [Weekdays] and [Weekends] give schedules
    that [ParseCron] accepts; the first is due exactly at the times of
    hour 0 and minute 0 from Monday to Friday, the second exactly at
    those of Saturday and Sunday (Sunday is 0, Saturday 6), so every
    midnight is due in one of the two and in one only. *)
Theorem weekday_presets fuel :
  (60 < fuel)%nat ->
  exists weekdays weekends,
    ParseCron fuel TaskBuilder.Weekdays = Ok weekdays
    /\ ParseCron fuel TaskBuilder.Weekends = Ok weekends
    /\ forall t,
         (IsDue weekdays t = true
          <-> GoTime.Hour t = 0 /\ GoTime.Minute t = 0
              /\ 1 <= GoTime.Weekday t <= 5)
         /\ (IsDue weekends t = true
             <-> GoTime.Hour t = 0 /\ GoTime.Minute t = 0
                 /\ (GoTime.Weekday t = 0 \/ GoTime.Weekday t = 6))
         /\ (GoTime.Hour t = 0 -> GoTime.Minute t = 0 ->
             IsDue weekdays t = negb (IsDue weekends t)).
Proof.
  intros Hfuel. destruct (ParseCron_weekdays fuel Hfuel) as [Hd He].
  eexists. eexists. split; [exact Hd|]. split; [exact He|]. intros t.
  pose proof (date_range t) as (_ & _ & Hday & Hmon & Hw).
  unfold IsDue, matches. cbn [minute hour dayOfMonth month dayOfWeek].
  rewrite !contains_seqZ by lia. rewrite !contains_singleton.
  assert (contains [1; 2; 3; 4; 5] (GoTime.Weekday t)
          = (1 <=? GoTime.Weekday t) && (GoTime.Weekday t <=? 5)) as ->.
  { destruct (contains [1; 2; 3; 4; 5] (GoTime.Weekday t)) eqn:Hc.
    - apply contains_In in Hc. simpl in Hc. symmetry.
      apply andb_true_iff. lia.
    - symmetry. apply andb_false_iff.
      destruct (Z.leb_spec 1 (GoTime.Weekday t)); [|by left].
      destruct (Z.leb_spec (GoTime.Weekday t) 5); [|by right].
      exfalso. assert (contains [1; 2; 3; 4; 5] (GoTime.Weekday t) = true)
        as Hin by (apply contains_In; simpl; lia).
      congruence. }
  assert (contains [0; 6] (GoTime.Weekday t)
          = (GoTime.Weekday t =? 0) || (GoTime.Weekday t =? 6)) as ->.
  { unfold contains. rewrite (Z.eqb_sym 0), (Z.eqb_sym 6).
    by destruct (_ =? 0), (_ =? 6). }
  destruct (Z.eqb_spec 0 (GoTime.Minute t)), (Z.eqb_spec 0 (GoTime.Hour t)),
    (Z.leb_spec 1 (GoTime.Weekday t)), (Z.leb_spec (GoTime.Weekday t) 5),
    (Z.eqb_spec (GoTime.Weekday t) 0), (Z.eqb_spec (GoTime.Weekday t) 6);
    simpl; repeat split; try done; try lia; intros; lia.
Qed.

Lemma weekday_presets_witness :
  exists weekdays weekends,
    ParseCron 100 TaskBuilder.Weekdays = Ok weekdays
    /\ ParseCron 100 TaskBuilder.Weekends = Ok weekends
    /\ forall t,
         (IsDue weekdays t = true
          <-> GoTime.Hour t = 0 /\ GoTime.Minute t = 0
              /\ 1 <= GoTime.Weekday t <= 5)
         /\ (IsDue weekends t = true
             <-> GoTime.Hour t = 0 /\ GoTime.Minute t = 0
                 /\ (GoTime.Weekday t = 0 \/ GoTime.Weekday t = 6))
         /\ (GoTime.Hour t = 0 -> GoTime.Minute t = 0 ->
             IsDue weekdays t = negb (IsDue weekends t)).
Proof. exact (weekday_presets 100 ltac:(lia)). Defined.
